(** * hget: a shallow embedding of the download engine

    The Go sources of [abzcoding/hget] are rendered as Rocq functions:
    - 64-bit integers are [Z] with the wrap-around written out;
    - Go strings are byte strings, i.e. [string];
    - the file system is a finite map from cleaned absolute paths to nodes,
      threaded explicitly through the code that touches the disk;
    - the goroutines of a download take their turns as a list of events
      tells: the loop of [Execute] takes a message or a signal, or a
      worker runs;
    - a panic ([FatalCheck]) and [os.Exit] are outcomes of their own, kept
      apart from returned [error] values;
    - the calls into the Go standard library ([strings], [path/filepath],
      [strconv], [fmt], [net/url], [unicode/utf8], [encoding/json]) are
      modelled by executable functions written after the library's
      documented behaviour on Unix. *)

From Stdlib Require Import ZArith Lia List Ascii String Bool.
From stdpp Require Import base option list strings gmap sorting.

Local Open Scope Z_scope.

(** ** 64-bit signed integers *)

Module Int64.

Definition min_int : Z := - 2 ^ 63.
Definition max_int : Z := 2 ^ 63 - 1.

Definition in_range (z : Z) : Prop := min_int <= z <= max_int.

(** Two's complement wrap-around of an arbitrary integer. *)
Definition wrap (z : Z) : Z := (z + 2 ^ 63) mod 2 ^ 64 - 2 ^ 63.

Definition add (a b : Z) : Z := wrap (a + b).
Definition sub (a b : Z) : Z := wrap (a - b).
Definition mul (a b : Z) : Z := wrap (a * b).
(** Go's [/] truncates towards zero; the divisor is non-zero at every
    use below. *)
Definition div (a b : Z) : Z := wrap (Z.quot a b).

(** [min] of part_001 (and the Go 1.21 builtin at type int64). *)
Definition min (a b : Z) : Z := if a <? b then a else b.

End Int64.

(** ** Byte strings: the [strings] package *)

Module Strings.

Definition byte_in (c : ascii) (cutset : string) : bool :=
  existsb (Ascii.eqb c) (list_ascii_of_string cutset).

(** [strings.HasPrefix(s, prefix)] *)
Fixpoint HasPrefix (s prefix : string) {struct prefix} : bool :=
  match prefix with
  | EmptyString => true
  | String c p =>
      match s with
      | EmptyString => false
      | String d t => Ascii.eqb c d && HasPrefix t p
      end
  end.

(** [strings.Contains(s, substr)] *)
Fixpoint Contains (s substr : string) : bool :=
  HasPrefix s substr ||
  match s with
  | EmptyString => false
  | String _ t => Contains t substr
  end.

(** [strings.Index(s, substr)], [None] for -1. *)
Fixpoint Index (s substr : string) : option nat :=
  if HasPrefix s substr then Some 0%nat
  else match s with
       | EmptyString => None
       | String _ t => S <$> Index t substr
       end.

(** [strings.LastIndex(s, substr)], [None] for -1. *)
Fixpoint LastIndex (s substr : string) : option nat :=
  match s with
  | EmptyString => if HasPrefix s substr then Some 0%nat else None
  | String _ t =>
      match LastIndex t substr with
      | Some i => Some (S i)
      | None => if HasPrefix s substr then Some 0%nat else None
      end
  end.

(** [s[i:]] for [i <= len(s)]. *)
Fixpoint drop (i : nat) (s : string) : string :=
  match i, s with
  | O, _ => s
  | S i, String _ t => drop i t
  | S _, EmptyString => EmptyString
  end.

(** [s[:i]] for [i <= len(s)]. *)
Fixpoint take (i : nat) (s : string) : string :=
  match i, s with
  | O, _ => EmptyString
  | S i, String c t => String c (take i t)
  | S _, EmptyString => EmptyString
  end.

(** [strings.Cut(s, sep)]: the text before and after the first [sep]. *)
Definition Cut (s sep : string) : string * string * bool :=
  match Index s sep with
  | Some i => (take i s, drop (i + String.length sep) s, true)
  | None => (s, EmptyString, false)
  end.

(** [strings.TrimRight(s, cutset)] for an ASCII cutset, where Go trims
    byte by byte. *)
Fixpoint TrimRight (s cutset : string) : string :=
  match s with
  | EmptyString => EmptyString
  | String c t =>
      match TrimRight t cutset with
      | EmptyString => if byte_in c cutset then EmptyString else String c EmptyString
      | t' => String c t'
      end
  end.

(** [strings.Join(elems, sep)] *)
Fixpoint Join (elems : list string) (sep : string) : string :=
  match elems with
  | [] => EmptyString
  | [e] => e
  | e :: rest => e +:+ sep +:+ Join rest sep
  end.

(** [strings.Split(s, "/")]: never empty, one more element than there are
    separators. *)
Fixpoint SplitSlash (s : string) : list string :=
  match s with
  | EmptyString => [EmptyString]
  | String c t =>
      if Ascii.eqb c "/" then EmptyString :: SplitSlash t
      else match SplitSlash t with
           | h :: r => String c h :: r
           | [] => [String c EmptyString]
           end
  end.

(** ASCII lower-casing; [strings.ToLower] leaves every other byte of a
    valid UTF-8 string in place or maps it to non-ASCII bytes, so tests
    for an ASCII substring of the result agree with this function. *)
Definition lower_byte (c : ascii) : ascii :=
  let n := N_of_ascii c in
  if ((65 <=? n) && (n <=? 90))%N then ascii_of_N (n + 32) else c.

Fixpoint ToLower (s : string) : string :=
  match s with
  | EmptyString => EmptyString
  | String c t => String (lower_byte c) (ToLower t)
  end.

End Strings.

(** ** Paths: the [path/filepath] package on Unix *)

Module Filepath.
Import Strings.

Definition IsAbs (path : string) : bool := HasPrefix path "/".

(** The text after the last separator (all of [s] when there is none). *)
Fixpoint lastElem (s : string) : string :=
  match s with
  | EmptyString => EmptyString
  | String c t =>
      if Contains t "/" then lastElem t
      else if Ascii.eqb c "/" then t
      else s
  end.

(** [filepath.Base]: "." for the empty path; trailing separators are
    dropped before the last element is taken; "/" when only separators
    were there. *)
Definition Base (path : string) : string :=
  if String.eqb path "" then "."
  else
    let p := lastElem (TrimRight path "/") in
    if String.eqb p "" then "/" else p.

(** One element of the path read by [filepath.Clean]; [out] is the list of
    elements written so far, last one first. A rooted path never holds a
    ".." element in [out]; for a relative one the ".." elements that
    cannot be cancelled stay at the front of the result. *)
Definition cleanStep (rooted : bool) (out : list string) (elem : string)
  : list string :=
  if String.eqb elem "" then out
  else if String.eqb elem "." then out
  else if String.eqb elem ".." then
    match out with
    | top :: rest => if String.eqb top ".." then elem :: out else rest
    | [] => if rooted then [] else [elem]
    end
  else elem :: out.

(** [filepath.Clean]: the shortest equivalent path by lexical processing. *)
Definition Clean (path : string) : string :=
  if String.eqb path "" then "."
  else
    let rooted := HasPrefix path "/" in
    let out := rev (fold_left (cleanStep rooted) (SplitSlash path) []) in
    let s := (if rooted then "/" else "") +:+ Join out "/" in
    if String.eqb s "" then "." else s.

(** [filepath.Join]: the elements from the first non-empty one on are
    joined with separators and cleaned; "" when all are empty. *)
Fixpoint JoinPath (elem : list string) : string :=
  match elem with
  | [] => ""
  | e :: rest =>
      if String.eqb e "" then JoinPath rest else Clean (Join elem "/")
  end.

(** [filepath.Abs]; [wd] is what [os.Getwd] returns. *)
Definition Abs (wd : option string) (path : string) : option string :=
  if IsAbs path then Some (Clean path)
  else wd' ← wd; Some (JoinPath [wd'; path]).

(** The elements [filepath.Rel] walks over in a cleaned path: the pieces
    between separators, the empty piece before a leading separator
    included and the empty piece after a final one left out. *)
Definition relElems (p : string) : list string :=
  if String.eqb p "" then []
  else
    let l := SplitSlash p in
    match rev l with
    | last :: front => if String.eqb last "" then rev front else l
    | [] => l
    end.

(** Strip the longest common prefix of two element lists. *)
Fixpoint stripCommon (b t : list string) : list string * list string :=
  match b, t with
  | x :: b', y :: t' => if String.eqb x y then stripCommon b' t' else (b, t)
  | _, _ => (b, t)
  end.

(** [filepath.Rel(basepath, targpath)], [None] for its error. *)
Definition Rel (basepath targpath : string) : option string :=
  let base := Clean basepath in
  let targ := Clean targpath in
  if String.eqb targ base then Some "."
  else
    let base := if String.eqb base "." then "" else base in
    if negb (Bool.eqb (HasPrefix base "/") (HasPrefix targ "/")) then None
    else
      let '(b, t) := stripCommon (relElems base) (relElems targ) in
      match b with
      | [] => Some (Join t "/")
      | x :: _ =>
          if String.eqb x ".." then None
          else Some (Join (map (fun _ => "..") b ++ t) "/")
      end.

End Filepath.

(** ** Numbers and text: [strconv] and the [%d] verbs of [fmt] *)

Module Strconv.

Definition digit (d : Z) : ascii := ascii_of_N (Z.to_N (48 + d)).

Definition isDigit (c : ascii) : bool :=
  let n := N_of_ascii c in ((48 <=? n) && (n <=? 57))%N.

Definition digitVal (c : ascii) : Z := Z.of_N (N_of_ascii c) - 48.

(** The decimal digits of [z >= 0], most significant first; [fuel] bounds
    the number of digits. *)
Fixpoint digitsAux (fuel : nat) (z : Z) (acc : string) : string :=
  match fuel with
  | O => acc
  | S fuel =>
      let acc := String (digit (z mod 10)) acc in
      if z <? 10 then acc else digitsAux fuel (z / 10) acc
  end.

Definition digits (z : Z) : string :=
  digitsAux (S (Z.to_nat (Z.log2 z))) z EmptyString.

(** [strconv.FormatInt(z, 10)], which is also [%d]. *)
Definition FormatInt (z : Z) : string :=
  if z <? 0 then String "-" (digits (- z)) else digits z.

Fixpoint zeros (n : nat) : string :=
  match n with
  | O => EmptyString
  | S n => String "0" (zeros n)
  end.

(** [%0wd]: the sign first, then zeros up to the width [w]. *)
Definition FormatIntPad (w : nat) (z : Z) : string :=
  let s := FormatInt z in
  let pad := zeros (w - String.length s) in
  if z <? 0 then String "-" (pad +:+ digits (- z)) else pad +:+ s.

(** The value of a run of decimal digits; [None] on any other byte. *)
Fixpoint parseDigits (s : string) (acc : Z) : option Z :=
  match s with
  | EmptyString => Some acc
  | String c t =>
      if isDigit c then parseDigits t (10 * acc + digitVal c) else None
  end.

(** [strconv.ParseInt(s, 10, 64)]: an optional sign, at least one digit,
    nothing else, and a value that fits 64 bits; [None] for its error. *)
Definition ParseInt (s : string) : option Z :=
  let '(neg, body) :=
    match s with
    | String "+" t => (false, t)
    | String "-" t => (true, t)
    | _ => (false, s)
    end in
  match body with
  | EmptyString => None
  | _ =>
      v ← parseDigits body 0;
      let v := if neg then - v else v in
      if (Int64.min_int <=? v) && (v <=? Int64.max_int) then Some v else None
  end.

End Strconv.

(** ** URLs: what [net/url] extracts *)

Module Url.
Import Strings.

(** The fields of [url.URL] the program reads. *)
Record t := { Scheme : string; Host : string; Path : string }.

Definition isCTL (c : ascii) : bool :=
  let n := N_of_ascii c in ((n <? 32) || (n =? 127))%N.

Definition isAlpha (c : ascii) : bool :=
  let n := N_of_ascii c in
  (((97 <=? n) && (n <=? 122)) || ((65 <=? n) && (n <=? 90)))%N.

Definition isSchemeExtra (c : ascii) : bool :=
  Strconv.isDigit c || byte_in c "+-.".

Definition hexVal (c : ascii) : option N :=
  let n := N_of_ascii c in
  if ((48 <=? n) && (n <=? 57))%N then Some (n - 48)%N
  else if ((97 <=? n) && (n <=? 102))%N then Some (n - 87)%N
  else if ((65 <=? n) && (n <=? 70))%N then Some (n - 55)%N
  else None.

(** [getScheme]: the scheme and the rest, [None] for "missing protocol
    scheme". [seen] counts the bytes read so far. *)
Fixpoint getSchemeAux (raw s : string) (seen : nat) : option (string * string) :=
  match s with
  | EmptyString => Some (EmptyString, raw)
  | String c t =>
      if isAlpha c then getSchemeAux raw t (S seen)
      else if isSchemeExtra c then
        match seen with
        | O => Some (EmptyString, raw)
        | _ => getSchemeAux raw t (S seen)
        end
      else if Ascii.eqb c ":" then
        match seen with
        | O => None
        | _ => Some (take seen raw, t)
        end
      else Some (EmptyString, raw)
  end.

Definition getScheme (raw : string) : option (string * string) :=
  getSchemeAux raw raw 0.

(** [unescape] in path mode: each [%XX] becomes one byte, a malformed
    escape is an error. *)
Fixpoint unescape (s : string) : option string :=
  match s with
  | EmptyString => Some EmptyString
  | String "%" (String h (String l t)) =>
      hv ← hexVal h; lv ← hexVal l; r ← unescape t;
      Some (String (ascii_of_N (16 * hv + lv)) r)
  | String "%" _ => None
  | String c t => String c <$> unescape t
  end.

Fixpoint count (c : ascii) (s : string) : nat :=
  match s with
  | EmptyString => O
  | String d t => ((if Ascii.eqb c d then 1 else 0) + count c t)%nat
  end.

Fixpoint endsWith (c : ascii) (s : string) : bool :=
  match s with
  | EmptyString => false
  | String d EmptyString => Ascii.eqb c d
  | String _ t => endsWith c t
  end.

(** The bytes a host may hold as they are: [shouldEscape(c, encodeHost)]
    is false for them. *)
Definition isHostByte (c : ascii) : bool :=
  isAlpha c || Strconv.isDigit c || byte_in c "!$&'()*+,;=:[]<>"
  || Ascii.eqb c (ascii_of_nat 34) || byte_in c "-_.~".

(** [unescape] in host mode, and in zone mode for the zone of an IPv6
    literal: in a host an escape stands for a byte that is not ASCII
    (or for the percent sign), in a zone for a byte a host may hold (or
    a space, or the percent sign); any other ASCII byte is an error. *)
Fixpoint unescapeHost (zone : bool) (s : string) : option string :=
  match s with
  | EmptyString => Some EmptyString
  | String "%" (String h (String l t)) =>
      hv ← hexVal h; lv ← hexVal l;
      let v := ascii_of_N (16 * hv + lv) in
      let is25 := Ascii.eqb h "2" && Ascii.eqb l "5" in
      if negb zone && (hv <? 8)%N && negb is25 then None
      else if zone && negb is25 && negb (Ascii.eqb v " ") && negb (isHostByte v) then None
      else String v <$> unescapeHost zone t
  | String "%" _ => None
  | String c t =>
      if (N_of_ascii c <? 128)%N && negb (isHostByte c) then None
      else String c <$> unescapeHost zone t
  end.

(** [validOptionalPort]: empty, or a colon and decimal digits. *)
Definition validOptionalPort (port : string) : bool :=
match port with
| EmptyString => true
| String c t => Ascii.eqb c ":" && forallb Strconv.isDigit (list_ascii_of_string t)
end.

(** [parseHost]: a host with an optional port; an IPv6 literal stands
    in brackets and may name a zone after [%25]. *)
Definition parseHost (host : string) : option string :=
  if HasPrefix host "[" then
    match LastIndex host "]" with
    | None => None
    | Some i =>
        if negb (validOptionalPort (drop (S i) host)) then None
        else
          match Index (take i host) "%25" with
          | Some zone =>
              host1 ← unescapeHost false (take zone host);
              host2 ← unescapeHost true (take (i - zone) (drop zone host));
              host3 ← unescapeHost false (drop i host);
              Some (host1 +:+ host2 +:+ host3)
          | None => unescapeHost false host
          end
    end
  else
    match LastIndex host ":" with
    | Some i => if validOptionalPort (drop i host) then unescapeHost false host else None
    | None => unescapeHost false host
    end.

(** [validUserinfo] *)
Definition validUserinfo (s : string) : bool :=
  forallb (fun c => isAlpha c || Strconv.isDigit c || byte_in c "-._:~!$&'()*+,;=%@")
          (list_ascii_of_string s).

(** [parseAuthority], for the host: the user information before the
    last [@] is checked and dropped. *)
Definition parseAuthority (authority : string) : option string :=
  match LastIndex authority "@" with
  | None => parseHost authority
  | Some i =>
      host ← parseHost (drop (S i) authority);
      let userinfo := take i authority in
      if negb (validUserinfo userinfo) then None
      else if negb (Contains userinfo ":") then _ ← unescape userinfo; Some host
      else
        let '(username, password, _) := Cut userinfo ":" in
        _ ← unescape username; _ ← unescape password; Some host
  end.

(** [URL.Hostname]: [Host] without a valid port and without the brackets
    of an IPv6 literal. *)
Definition Hostname (u : t) : string :=
let host := Host u in
let host :=
  match LastIndex host ":" with
  | Some i => if validOptionalPort (drop i host) then take i host else host
  | None => host
  end in
if HasPrefix host "[" && endsWith "]" host
then take (String.length host - 2) (drop 1 host)
else host.

(** [url.Parse] as of Go 1.24 (the version of go.mod), for the fields
    above. *)
Definition Parse (rawURL : string) : option t :=
  let '(u, frag, _) := Cut rawURL "#" in
  if existsb isCTL (list_ascii_of_string u) then None
  else if String.eqb u "*" then
    _ ← unescape frag; Some {| Scheme := ""; Host := ""; Path := "*" |}
  else
    '(scheme, rest) ← getScheme u;
    let scheme := ToLower scheme in
    let rest :=
      if endsWith "?" rest && Nat.eqb (count "?" rest) 1
      then take (String.length rest - 1) rest
      else fst (fst (Cut rest "?")) in
    if negb (HasPrefix rest "/") && negb (String.eqb scheme "") then
      (* a rootless path after a scheme is opaque: no Path *)
      _ ← unescape frag; Some {| Scheme := scheme; Host := ""; Path := "" |}
    else if negb (HasPrefix rest "/")
            && Contains (fst (fst (Cut rest "/"))) ":" then None
    else
      '(host, rest) ←
        (if (negb (String.eqb scheme "") || negb (HasPrefix rest "///"))
            && HasPrefix rest "//"
         then
           let a := drop 2 rest in
           let '(authority, rest) :=
             match Index a "/" with
             | Some i => (take i a, drop i a)
             | None => (a, EmptyString)
             end in
           host ← parseAuthority authority; Some (host, rest)
         else Some (EmptyString, rest));
      path ← unescape rest;
      _ ← unescape frag;
      Some {| Scheme := scheme; Host := host; Path := path |}.

End Url.

(** ** Errors, outcomes and the world the program runs in *)

Inductive error : Type :=
| ErrTraversal              (* "you may be a victim of directory traversal path attack" *)
| ErrParseURL (raw : string)  (* url.Parse, http.NewRequest *)
| ErrUser                   (* user.Current *)
| ErrGetwd                  (* os.Getwd, inside filepath.Abs *)
| ErrRel                    (* filepath.Rel *)
| ErrNotExist (path : string)
| ErrNotDir (path : string)
| ErrIsDir (path : string)
| ErrInvalid (path : string)
| ErrJSON                   (* json.Unmarshal *)
| ErrLookup (host : string)   (* net.LookupIP *)
| ErrTransport              (* client.Do *)
| ErrCanceled               (* context.Canceled *)
| ErrMakeSlice              (* make with a negative length *)
| ErrMakeChan               (* make of a channel with a negative size *)
| ErrJoin                   (* JoinFile *)
| ErrNil.                   (* a nil pointer dereference *)

(** How a call ends: it returns, it panics ([FatalCheck]) or it leaves the
    process ([os.Exit]). *)
Inductive outcome (A : Type) : Type :=
| Done (a : A)
| Panic (e : error)
| Exit (code : Z).
Arguments Done {A} a.
Arguments Panic {A} e.
Arguments Exit {A} code.

(** A Go result [(T, error)]. *)
Inductive result (A : Type) : Type :=
| Ok (a : A)
| Err (e : error).
Arguments Ok {A} a.
Arguments Err {A} e.

Module Part.
(** [type Part struct] of state.go *)
Record t := { Index : Z; URL : string; Path : string; RangeFrom : Z; RangeTo : Z }.
End Part.

Module State.
(** [type State struct] of state.go *)
Record t := { URL : string; Parts : list Part.t }.
End State.

Global Instance error_eq_dec : EqDecision error.
Proof. solve_decision. Defined.

Global Instance Part_eq_dec : EqDecision Part.t.
Proof. solve_decision. Defined.

Module Http.
(** A header list as [http.Header] keeps it for the canonical keys used
    here: [Add] appends, [Set] replaces, [Get] reads the first value. *)
Definition Header := list (string * string).

Definition Get (h : Header) (key : string) : string :=
  match List.find (fun kv => String.eqb (fst kv) key) h with
  | Some kv => snd kv
  | None => EmptyString
  end.

Definition Del (h : Header) (key : string) : Header :=
  List.filter (fun kv => negb (String.eqb (fst kv) key)) h.

Definition Add (h : Header) (key value : string) : Header := h ++ [(key, value)].

Definition Set_ (h : Header) (key value : string) : Header := Del h key ++ [(key, value)].

Record Request := { Method : string; Target : string; ReqHeader : Header }.

Record Response := { StatusCode : Z; RespHeader : Header; Body : string }.

Definition StatusPartialContent : Z := 206.
End Http.

Module FS.
Import Strings Filepath.

Inductive node := File (data : string) | Dir.

(** The disk: cleaned absolute paths to nodes; the root is always there. *)
Abbreviation t := (gmap string node).

Definition isDirAt (fs : t) (p : string) : bool :=
  String.eqb p "/" || match fs !! p with Some Dir => true | _ => false end.

(** [filepath.Dir] of a cleaned absolute path: its parent. *)
Definition parent (p : string) : string :=
  match LastIndex p "/" with
  | Some i => Clean (take (S i) p)
  | None => "."
  end.

(** The path of the entry [name] of the directory [dir]. *)
Definition child (dir name : string) : string :=
  if String.eqb dir "/" then "/" +:+ name else dir +:+ "/" +:+ name.

(** What is in the way when a directory is needed at [p]. *)
Definition noDir (fs : t) (p : string) : error :=
  match fs !! p with
  | Some (File _) => ErrNotDir p
  | _ => ErrNotExist p
  end.

(** How the kernel follows a path (there are no symbolic links on this
    disk): element by element, from the directory [cur]. An empty element
    (a doubled or a final separator), [.] and [..] need a directory where
    they stand. A name needs no test of its own: the disk is a tree, so
    below a name that is not a directory nothing is found when the last
    name is looked up. The result is the cleaned absolute path of the
    place the path leads to, which may not be there. *)
Fixpoint walk (fs : t) (cur : string) (elems : list string) : result string :=
  match elems with
  | [] => Ok cur
  | e :: rest =>
      if String.eqb e "" || String.eqb e "." then
        if isDirAt fs cur then walk fs cur rest else Err (noDir fs cur)
      else if String.eqb e ".." then
        if isDirAt fs cur then walk fs (parent cur) rest else Err (noDir fs cur)
      else walk fs (child cur e) rest
  end.

(** The place a path given to a system call leads to: the empty path
    leads nowhere, a rooted path is followed from the root and any other
    from the working directory [wd] (what [os.Getwd] returns; when that
    is not known, nothing is found). *)
Definition lookupPath (wd : option string) (p : string) (fs : t) : result string :=
  if String.eqb p "" then Err (ErrNotExist p)
  else if HasPrefix p "/" then walk fs "/" (SplitSlash p)
  else
    match wd with
    | Some d => walk fs (Clean d) (SplitSlash p)
    | None => Err ErrGetwd
    end.

(** [os.MkdirAll] from the directory [cur]: the path is followed as by
    [walk], and every name on the way that is not there is made a
    directory; a file in the way is an error, and the path has to end at
    a directory. *)
Fixpoint mkdirs (fs : t) (cur : string) (elems : list string) : result t :=
  match elems with
  | [] => if isDirAt fs cur then Ok fs else Err (noDir fs cur)
  | e :: rest =>
      if String.eqb e "" || String.eqb e "." then
        if isDirAt fs cur then mkdirs fs cur rest else Err (noDir fs cur)
      else if String.eqb e ".." then
        if isDirAt fs cur then mkdirs fs (parent cur) rest else Err (noDir fs cur)
      else
        match fs !! child cur e with
        | Some (File _) => Err (ErrNotDir (child cur e))
        | Some Dir => mkdirs fs (child cur e) rest
        | None => mkdirs (<[child cur e := Dir]> fs) (child cur e) rest
        end
  end.

(** [os.MkdirAll]; the starting points are those of [lookupPath]. *)
Definition MkdirAll (wd : option string) (p : string) (fs : t) : result t :=
  if String.eqb p "" then Err (ErrNotExist p)
  else if HasPrefix p "/" then mkdirs fs "/" (SplitSlash p)
  else
    match wd with
    | Some d => mkdirs fs (Clean d) (SplitSlash p)
    | None => Err ErrGetwd
    end.

Definition under (old k : string) : bool :=
  String.eqb k old || HasPrefix k (old +:+ "/").

(** The tree at [old] is moved to [new]. *)
Definition moveTree (old new : string) (fs : t) : t :=
  map_fold
    (fun k v acc =>
       if under old k
       then <[new +:+ drop (String.length old) k := v]> (delete k acc)
       else acc)
    fs fs.

(** [os.Rename] on resolved paths: the source is there, the parent of the
    target is a directory, a file does not replace a directory nor a
    directory a file, and a directory does not move under itself. *)
Definition Rename (old new : string) (fs : t) : result t :=
  match fs !! old with
  | None => Err (ErrNotExist old)
  | Some src =>
      if String.eqb old new then Ok fs
      else if negb (isDirAt fs (parent new)) then Err (ErrNotExist new)
      else
        match src, fs !! new with
        | File _, Some Dir => Err (ErrIsDir new)
        | Dir, Some (File _) => Err (ErrNotDir new)
        | Dir, Some Dir => Err (ErrInvalid new)
        | Dir, None =>
            if under old new then Err (ErrInvalid new) else Ok (moveTree old new fs)
        | File d, _ => Ok (<[new := File d]> (delete old fs))
        end
  end.

(** [os.WriteFile]: create or truncate. *)
Definition WriteFile (p data : string) (fs : t) : result t :=
  if negb (isDirAt fs (parent p)) then Err (ErrNotExist p)
  else if isDirAt fs p then Err (ErrIsDir p)
  else Ok (<[p := File data]> fs).

(** [os.OpenFile(p, O_CREATE|O_WRONLY|O_APPEND)] then writes of [data]. *)
Definition AppendFile (p data : string) (fs : t) : result t :=
  if negb (isDirAt fs (parent p)) then Err (ErrNotExist p)
  else if isDirAt fs p then Err (ErrIsDir p)
  else
    match fs !! p with
    | Some (File old) => Ok (<[p := File (old +:+ data)]> fs)
    | _ => Ok (<[p := File data]> fs)
    end.

(** [os.ReadFile] *)
Definition ReadFile (p : string) (fs : t) : result string :=
  match fs !! p with
  | Some (File d) => Ok d
  | Some Dir => Err (ErrIsDir p)
  | None => if String.eqb p "/" then Err (ErrIsDir p) else Err (ErrNotExist p)
  end.

(** [os.RemoveAll] *)
Definition RemoveAll (p : string) (fs : t) : t :=
  filter (fun kv => negb (under p (fst kv))) fs.

(** One entry of the directory [p]: a node that lies at the path of its
    name in [p], with the name and whether it is a directory. *)
Definition entryOf (p : string) (kv : string * node) : option (string * bool) :=
  let name := Base (fst kv) in
  if negb (Contains name "/") && String.eqb (fst kv) (child p name)
  then Some (name, match snd kv with Dir => true | File _ => false end)
  else None.

Definition entries (p : string) (fs : t) : list (string * bool) :=
  omap (entryOf p) (map_to_list fs).

(** The order of [os.ReadDir]: by name, byte by byte. *)
Definition byName (a b : string * bool) : Prop := String.le (fst a) (fst b).

Global Instance byName_dec : RelDecision byName.
Proof. intros a b. unfold byName. apply _. Defined.

Global Instance byName_trans : Transitive byName.
Proof. intros a b c. unfold byName. apply transitivity. Qed.

Global Instance byName_total : Total byName.
Proof. intros a b. unfold byName. apply total, _. Qed.

(** [os.ReadDir] on a resolved path: the entries of the directory, sorted
    by name. *)
Definition ReadDir (p : string) (fs : t) : result (list (string * bool)) :=
  if isDirAt fs p then Ok (merge_sort byName (entries p fs))
  else
    match fs !! p with
    | Some (File _) => Err (ErrNotDir p)
    | _ => Err (ErrNotExist p)
    end.

End FS.


(** ** UTF-8: the package [unicode/utf8] *)

Module Utf8.

Definition byteZ (c : ascii) : Z := Z.of_N (N_of_ascii c).
Definition zbyte (z : Z) : ascii := ascii_of_N (Z.to_N z).

Definition RuneError : Z := 65533.
Definition MaxRune : Z := 1114111.

Definition between (lo hi : Z) (c : ascii) : bool :=
  (lo <=? byteZ c) && (byteZ c <=? hi).

(** [utf8.DecodeRune]: the rune at the front of [s] and its width in
    bytes; [(RuneError, 1)] on a byte that starts no well-formed
    sequence, [(RuneError, 0)] on the empty string. *)
Definition DecodeRune (s : string) : Z * nat :=
  match s with
  | EmptyString => (RuneError, 0%nat)
  | String b0 t =>
      let x := byteZ b0 in
      if x <? 128 then (x, 1%nat)
      else if (194 <=? x) && (x <=? 223) then
        match t with
        | String b1 _ =>
            if between 128 191 b1
            then ((x - 192) * 64 + (byteZ b1 - 128), 2%nat)
            else (RuneError, 1%nat)
        | _ => (RuneError, 1%nat)
        end
      else if (224 <=? x) && (x <=? 239) then
        match t with
        | String b1 (String b2 _) =>
            let lo := if x =? 224 then 160 else 128 in
            let hi := if x =? 237 then 159 else 191 in
            if between lo hi b1 && between 128 191 b2
            then ((x - 224) * 4096 + (byteZ b1 - 128) * 64 + (byteZ b2 - 128), 3%nat)
            else (RuneError, 1%nat)
        | _ => (RuneError, 1%nat)
        end
      else if (240 <=? x) && (x <=? 244) then
        match t with
        | String b1 (String b2 (String b3 _)) =>
            let lo := if x =? 240 then 144 else 128 in
            let hi := if x =? 244 then 143 else 191 in
            if between lo hi b1 && between 128 191 b2 && between 128 191 b3
            then ((x - 240) * 262144 + (byteZ b1 - 128) * 4096
                  + (byteZ b2 - 128) * 64 + (byteZ b3 - 128), 4%nat)
            else (RuneError, 1%nat)
        | _ => (RuneError, 1%nat)
        end
      else (RuneError, 1%nat)
  end.

Definition str1 (a : Z) : string := String (zbyte a) EmptyString.
Definition str2 (a b : Z) : string := String (zbyte a) (str1 b).
Definition str3 (a b c : Z) : string := String (zbyte a) (str2 b c).
Definition str4 (a b c d : Z) : string := String (zbyte a) (str3 b c d).

(** [utf8.EncodeRune]; surrogates and runes out of range are written as
    [RuneError]. *)
Definition EncodeRune (r : Z) : string :=
  if (0 <=? r) && (r <? 128) then str1 r
  else if (0 <=? r) && (r <? 2048) then str2 (192 + r / 64) (128 + r mod 64)
  else if (r <? 0) || (MaxRune <? r) || ((55296 <=? r) && (r <=? 57343))
  then str3 239 191 189
  else if r <? 65536
  then str3 (224 + r / 4096) (128 + (r / 64) mod 64) (128 + r mod 64)
  else str4 (240 + r / 262144) (128 + (r / 4096) mod 64)
            (128 + (r / 64) mod 64) (128 + r mod 64).

(** No byte of [s] is read as [(RuneError, 1)]: [utf8.ValidString]. *)
Fixpoint validAux (fuel : nat) (s : string) : bool :=
  match fuel with
  | O => true
  | S fuel =>
      match s with
      | EmptyString => true
      | _ =>
          let '(r, size) := DecodeRune s in
          if (r =? RuneError) && Nat.eqb size 1 then false
          else validAux fuel (Strings.drop size s)
      end
  end.

Definition ValidString (s : string) : bool := validAux (String.length s) s.

End Utf8.

(** ** The manifest as JSON: [encoding/json] at the type [State] *)

Module Json.
Import Strings Utf8.

Definition dq : ascii := ascii_of_nat 34.      (* the double quote *)
Definition bs : ascii := ascii_of_nat 92.      (* the backslash *)

Definition hexDigit (d : Z) : ascii :=
  if d <? 10 then zbyte (48 + d) else zbyte (87 + d).

(** [htmlSafeSet]: the ASCII bytes written as they are. *)
Definition htmlSafe (b : ascii) : bool :=
  let x := byteZ b in
  (32 <=? x) && (x <? 128)
  && negb (Z.eqb x 34) && negb (Z.eqb x 92)
  && negb (Z.eqb x 60) && negb (Z.eqb x 62) && negb (Z.eqb x 38).

(** One ASCII byte inside a string literal. *)
Definition escapeByte (b : ascii) : string :=
  if htmlSafe b then String b EmptyString
  else
    let x := byteZ b in
    if (x =? 34) || (x =? 92) then String bs (String b EmptyString)
    else if x =? 8 then String bs "b"
    else if x =? 12 then String bs "f"
    else if x =? 10 then String bs "n"
    else if x =? 13 then String bs "r"
    else if x =? 9 then String bs "t"
    else String bs ("u00" +:+ String (hexDigit (x / 16)) (String (hexDigit (x mod 16)) EmptyString)).

(** The inside of a string literal, [appendString] with HTML escaping:
    invalid UTF-8 is written as the escape of U+FFFD, the separators
    U+2028 and U+2029 as escapes, everything else as it is. *)
Fixpoint quoteAux (fuel : nat) (s : string) : string :=
  match fuel with
  | O => EmptyString
  | S fuel =>
      match s with
      | EmptyString => EmptyString
      | String b t =>
          if byteZ b <? 128 then escapeByte b +:+ quoteAux fuel t
          else
            let '(c, size) := DecodeRune s in
            if (c =? RuneError) && Nat.eqb size 1
            then String bs "ufffd" +:+ quoteAux fuel t
            else if (c =? 8232) || (c =? 8233)
            then String bs "u202" +:+ String (hexDigit (c mod 16)) (quoteAux fuel (drop size s))
            else take size s +:+ quoteAux fuel (drop size s)
      end
  end.

Definition quote (s : string) : string :=
  String dq (quoteAux (String.length s) s +:+ String dq EmptyString).

Definition member (name value : string) : string :=
  String dq name +:+ String dq ":" +:+ value.

Definition marshalPart (p : Part.t) : string :=
  "{" +:+ member "Index" (Strconv.FormatInt (Part.Index p))
  +:+ "," +:+ member "URL" (quote (Part.URL p))
  +:+ "," +:+ member "Path" (quote (Part.Path p))
  +:+ "," +:+ member "RangeFrom" (Strconv.FormatInt (Part.RangeFrom p))
  +:+ "," +:+ member "RangeTo" (Strconv.FormatInt (Part.RangeTo p))
  +:+ "}".

(** [json.Marshal(s)] for [s *State]: the fields in declaration order,
    no white space. (A nil [Parts] would be written [null]; the slices
    of this program come from [make] and are written as arrays.) *)
Definition Marshal (s : State.t) : string :=
  "{" +:+ member "URL" (quote (State.URL s))
  +:+ "," +:+ member "Parts" ("[" +:+ Join (map marshalPart (State.Parts s)) "," +:+ "]")
  +:+ "}".

(** *** Reading *)

#[warnings="-register-all"]
Inductive value :=
| JNull
| JBool (b : bool)
| JNum (literal : string)
| JStr (s : string)
| JArr (elems : list value)
| JObj (members : list (string * value)).

Definition isWS (c : ascii) : bool :=
  let x := byteZ c in (x =? 32) || (x =? 9) || (x =? 10) || (x =? 13).

Fixpoint skipWS (s : string) : string :=
  match s with
  | String c t => if isWS c then skipWS t else s
  | EmptyString => s
  end.

(** [getu4] after the backslash and the u: four hex digits. *)
Definition hex4 (s : string) : option Z :=
  match s with
  | String a (String b (String c (String d _))) =>
      x ← Url.hexVal a; y ← Url.hexVal b; z ← Url.hexVal c; w ← Url.hexVal d;
      Some (Z.of_N (((x * 16 + y) * 16 + z) * 16 + w))
  | _ => None
  end.

Definition isSurrogate (r : Z) : bool := (55296 <=? r) && (r <? 57344).

(** [utf16.DecodeRune] *)
Definition decodePair (r1 r2 : Z) : Z :=
  if (55296 <=? r1) && (r1 <? 56320) && (56320 <=? r2) && (r2 <? 57344)
  then (r1 - 55296) * 1024 + (r2 - 56320) + 65536
  else RuneError.

Definition simpleEscape (e : ascii) : option ascii :=
  let x := byteZ e in
  if (x =? 34) || (x =? 92) || (x =? 47) then Some e
  else if x =? 98 then Some (zbyte 8)
  else if x =? 102 then Some (zbyte 12)
  else if x =? 110 then Some (zbyte 10)
  else if x =? 114 then Some (zbyte 13)
  else if x =? 116 then Some (zbyte 9)
  else None.

(** A string literal after its opening quote: the text it stands for
    ([unquote]) and what follows the closing quote. *)
Fixpoint unquoteAux (fuel : nat) (s : string) : option (string * string) :=
  match fuel with
  | O => None
  | S fuel =>
      match s with
      | EmptyString => None
      | String c t =>
          if Ascii.eqb c dq then Some (EmptyString, t)
          else if Ascii.eqb c bs then
            match t with
            | EmptyString => None
            | String e t' =>
                if Ascii.eqb e "u" then
                  rr ← hex4 t';
                  let t'' := drop 4 t' in
                  if isSurrogate rr then
                    let rr1 :=
                      match t'' with
                      | String c1 (String c2 u) =>
                          if Ascii.eqb c1 bs && Ascii.eqb c2 "u" then hex4 u else None
                      | _ => None
                      end in
                    match rr1 with
                    | Some r2 =>
                        if decodePair rr r2 =? RuneError
                        then '(r, rest) ← unquoteAux fuel t'';
                             Some (EncodeRune RuneError +:+ r, rest)
                        else '(r, rest) ← unquoteAux fuel (drop 6 t'');
                             Some (EncodeRune (decodePair rr r2) +:+ r, rest)
                    | None =>
                        '(r, rest) ← unquoteAux fuel t'';
                        Some (EncodeRune RuneError +:+ r, rest)
                    end
                  else
                    '(r, rest) ← unquoteAux fuel t'';
                    Some (EncodeRune rr +:+ r, rest)
                else
                  b ← simpleEscape e;
                  '(r, rest) ← unquoteAux fuel t';
                  Some (String b r, rest)
            end
          else if byteZ c <? 32 then None
          else if byteZ c <? 128 then
            '(r, rest) ← unquoteAux fuel t;
            Some (String c r, rest)
          else
            let '(rr, size) := DecodeRune s in
            '(r, rest) ← unquoteAux fuel (drop size s);
            Some (EncodeRune rr +:+ r, rest)
      end
  end.

Fixpoint spanDigits (s : string) : string * string :=
  match s with
  | String c t =>
      if Strconv.isDigit c
      then let '(d, r) := spanDigits t in (String c d, r)
      else (EmptyString, s)
  | EmptyString => (EmptyString, EmptyString)
  end.

(** A number literal: sign, integer part without a leading zero,
    fraction, exponent. *)
Definition scanNumber (s : string) : option (string * string) :=
  let '(sign, s1) :=
    match s with
    | String "-" t => ("-", t)
    | _ => (EmptyString, s)
    end in
  '(int, s2) ←
    match s1 with
    | String "0" t => Some ("0", t)
    | _ => let '(d, r) := spanDigits s1 in
           if String.eqb d "" then None else Some (d, r)
    end;
  '(frac, s3) ←
    match s2 with
    | String "." t =>
        let '(d, r) := spanDigits t in
        if String.eqb d "" then None else Some (String "." d, r)
    | _ => Some (EmptyString, s2)
    end;
  '(exp, s4) ←
    match s3 with
    | String e t =>
        if Ascii.eqb e "e" || Ascii.eqb e "E" then
          let '(sg, t1) :=
            match t with
            | String "+" u => ("+", u)
            | String "-" u => ("-", u)
            | _ => (EmptyString, t)
            end in
          let '(d, r) := spanDigits t1 in
          if String.eqb d "" then None else Some (String e (sg +:+ d), r)
        else Some (EmptyString, s3)
    | EmptyString => Some (EmptyString, s3)
    end;
  Some (sign +:+ int +:+ frac +:+ exp, s4).

(** One JSON value at the front of [s], white space before it skipped. *)
Fixpoint parseValue (fuel : nat) (s : string) : option (value * string) :=
  match fuel with
  | O => None
  | S fuel =>
      match skipWS s with
      | EmptyString => None
      | String c t as s' =>
          if Ascii.eqb c "{" then
            match skipWS t with
            | String "}" r => Some (JObj [], r)
            | _ => '(ms, r) ← parseMembers fuel t; Some (JObj ms, r)
            end
          else if Ascii.eqb c "[" then
            match skipWS t with
            | String "]" r => Some (JArr [], r)
            | _ => '(vs, r) ← parseElems fuel t; Some (JArr vs, r)
            end
          else if Ascii.eqb c dq then
            '(str, r) ← unquoteAux (String.length t) t; Some (JStr str, r)
          else if HasPrefix s' "true" then Some (JBool true, drop 4 s')
          else if HasPrefix s' "false" then Some (JBool false, drop 5 s')
          else if HasPrefix s' "null" then Some (JNull, drop 4 s')
          else '(lit, r) ← scanNumber s'; Some (JNum lit, r)
      end
  end
with parseElems (fuel : nat) (s : string) : option (list value * string) :=
  match fuel with
  | O => None
  | S fuel =>
      '(v, r) ← parseValue fuel s;
      match skipWS r with
      | String "," r' => '(vs, r'') ← parseElems fuel r'; Some (v :: vs, r'')
      | String "]" r' => Some ([v], r')
      | _ => None
      end
  end
with parseMembers (fuel : nat) (s : string) : option (list (string * value) * string) :=
  match fuel with
  | O => None
  | S fuel =>
      match skipWS s with
      | String c t =>
          if Ascii.eqb c dq then
            '(k, r) ← unquoteAux (String.length t) t;
            match skipWS r with
            | String ":" r1 =>
                '(v, r2) ← parseValue fuel r1;
                match skipWS r2 with
                | String "," r3 => '(ms, r4) ← parseMembers fuel r3; Some ((k, v) :: ms, r4)
                | String "}" r3 => Some ([(k, v)], r3)
                | _ => None
                end
            | _ => None
            end
          else None
      | EmptyString => None
      end
  end.

(** The whole document: one value, then white space only. *)
Definition parse (data : string) : option value :=
  '(v, r) ← parseValue (S (String.length data)) data;
  if String.eqb (skipWS r) "" then Some v else None.

(** Field names are matched without regard to case; the two letters
    outside ASCII that fold to an ASCII letter (the long s and the Kelvin
    sign) are folded as well. *)
Fixpoint foldName (s : string) : string :=
  match s with
  | String c1 s1 =>
      match s1 with
      | String c2 t =>
          if (byteZ c1 =? 197) && (byteZ c2 =? 191) then String "s" (foldName t)
          else
            match t with
            | String c3 u =>
                if (byteZ c1 =? 226) && (byteZ c2 =? 132) && (byteZ c3 =? 170)
                then String "k" (foldName u)
                else String (lower_byte c1) (foldName s1)
            | EmptyString => String (lower_byte c1) (foldName s1)
            end
      | EmptyString => String (lower_byte c1) (foldName s1)
      end
  | EmptyString => EmptyString
  end.

Definition isField (key name : string) : bool :=
  String.eqb (foldName key) (foldName name).

(** A value stored into a [string] field: the new content of the field
    and whether the value had the right type. *)
Definition storeString (old : string) (v : value) : string * bool :=
  match v with
  | JStr s => (s, true)
  | JNull => (old, true)
  | _ => (old, false)
  end.

(** A value stored into an [int64] field. *)
Definition storeInt (old : Z) (v : value) : Z * bool :=
  match v with
  | JNum lit =>
      match Strconv.ParseInt lit with
      | Some n => (n, true)
      | None => (old, false)
      end
  | JNull => (old, true)
  | _ => (old, false)
  end.

Definition zeroPart : Part.t :=
  {| Part.Index := 0; Part.URL := ""; Part.Path := ""; Part.RangeFrom := 0; Part.RangeTo := 0 |}.

Definition storePartField (acc : Part.t * bool) (m : string * value) : Part.t * bool :=
  let '(p, ok) := acc in
  let '(k, v) := m in
  if isField k "Index" then
    let '(x, ok') := storeInt (Part.Index p) v in
    ({| Part.Index := x; Part.URL := Part.URL p; Part.Path := Part.Path p;
        Part.RangeFrom := Part.RangeFrom p; Part.RangeTo := Part.RangeTo p |}, ok && ok')
  else if isField k "URL" then
    let '(x, ok') := storeString (Part.URL p) v in
    ({| Part.Index := Part.Index p; Part.URL := x; Part.Path := Part.Path p;
        Part.RangeFrom := Part.RangeFrom p; Part.RangeTo := Part.RangeTo p |}, ok && ok')
  else if isField k "Path" then
    let '(x, ok') := storeString (Part.Path p) v in
    ({| Part.Index := Part.Index p; Part.URL := Part.URL p; Part.Path := x;
        Part.RangeFrom := Part.RangeFrom p; Part.RangeTo := Part.RangeTo p |}, ok && ok')
  else if isField k "RangeFrom" then
    let '(x, ok') := storeInt (Part.RangeFrom p) v in
    ({| Part.Index := Part.Index p; Part.URL := Part.URL p; Part.Path := Part.Path p;
        Part.RangeFrom := x; Part.RangeTo := Part.RangeTo p |}, ok && ok')
  else if isField k "RangeTo" then
    let '(x, ok') := storeInt (Part.RangeTo p) v in
    ({| Part.Index := Part.Index p; Part.URL := Part.URL p; Part.Path := Part.Path p;
        Part.RangeFrom := Part.RangeFrom p; Part.RangeTo := x |}, ok && ok')
  else (p, ok).

(** A value stored into a [Part]. *)
Definition storePart (old : Part.t) (v : value) : Part.t * bool :=
  match v with
  | JObj ms => fold_left storePartField ms (old, true)
  | JNull => (old, true)
  | _ => (old, false)
  end.

(** An array stored into a slice: the element at an index that the slice
    already has is decoded over the old element. *)
Fixpoint storeParts (old : list Part.t) (vs : list value) : list Part.t * bool :=
  match vs with
  | [] => ([], true)
  | v :: vs' =>
      let '(p, ok) := storePart (hd zeroPart old) v in
      let '(ps, ok') := storeParts (tl old) vs' in
      (p :: ps, ok && ok')
  end.

Definition storeStateField (acc : State.t * bool) (m : string * value) : State.t * bool :=
  let '(s, ok) := acc in
  let '(k, v) := m in
  if isField k "URL" then
    let '(x, ok') := storeString (State.URL s) v in
    ({| State.URL := x; State.Parts := State.Parts s |}, ok && ok')
  else if isField k "Parts" then
    match v with
    | JArr vs =>
        let '(ps, ok') := storeParts (State.Parts s) vs in
        ({| State.URL := State.URL s; State.Parts := ps |}, ok && ok')
    | JNull => ({| State.URL := State.URL s; State.Parts := [] |}, ok)
    | _ => (s, false)
    end
  else (s, ok).

Definition zeroState : State.t := {| State.URL := ""; State.Parts := [] |}.

(** [json.Unmarshal(data, s)] for a fresh [s *State]: the state as the
    call leaves it, and its error. A document that is not JSON leaves
    the state untouched; a value of the wrong type for its field is
    skipped and reported at the end. *)
Definition Unmarshal (data : string) : State.t * option error :=
  match parse data with
  | None => (zeroState, Some ErrJSON)
  | Some (JObj ms) =>
      let '(s, ok) := fold_left storeStateField ms (zeroState, true) in
      (s, if ok then None else Some ErrJSON)
  | Some JNull => (zeroState, None)
  | Some _ => (zeroState, Some ErrJSON)
  end.

End Json.
(** What the operating system, the network and the libraries outside the
    repository answer. The program only asks; nothing here is changed by
    a run. *)
Record Env := {
  (** [url.Parse] *)
  url_Parse : string -> option Url.t;
  (** [user.Current().HomeDir], [None] when the lookup fails *)
  user_HomeDir : option string;
  (** [os.Getenv("HOME")] *)
  os_Getenv_HOME : string;
  (** [os.Getwd] *)
  os_Getwd : option string;
  (** the package variable [dataFolder], ".hget/" unless a test changes it *)
  dataFolder : string;
  (** [fi.Size()] of a directory *)
  dirSize : Z;
  (** [net.LookupIP]: addresses as text, each with whether [To4] is non-nil *)
  net_LookupIP : string -> option (list (bool * string));
  (** the server behind [client.Do] *)
  server : Http.Request -> result Http.Response;
  (** [units.ParseStrictBytes] *)
  units_ParseStrictBytes : string -> option Z;
  (** [JoinFile] of joiner.go, which is not part of the sources at hand *)
  JoinFile : list string -> string -> FS.t -> option error * FS.t
}.

(** What the coordinator does to the outside: it sends [n] interrupts to
    the workers, saves a manifest, warns, joins the part files or removes
    the task folder. *)
Inductive Action :=
| ActInterrupt (n : Z)
| ActSave (s : State.t)
| ActWarn
| ActJoin (files : list string) (dst : string)
| ActRemoveAll (folder : string).

(** What a run changes: the disk, the requests put on the wire, and the
    record of what the coordinator did, in order. *)
Record World := { disk : FS.t; sent : list Http.Request; acts : list Action }.

Definition withDisk (fs : FS.t) (w : World) : World :=
{| disk := fs; sent := sent w; acts := acts w |}.

(** Code with effects: from a world to an outcome and the world it leaves,
    which is kept when the code panics. *)
Definition M (A : Type) : Type := World -> outcome A * World.

Definition ret {A} (a : A) : M A := fun w => (Done a, w).

Definition bind {A B} (m : M A) (k : A -> M B) : M B :=
  fun w =>
    match m w with
    | (Done a, w') => k a w'
    | (Panic e, w') => (Panic e, w')
    | (Exit c, w') => (Exit c, w')
    end.

Definition lift {A} (o : outcome A) : M A := fun w => (o, w).

Definition panic {A} (e : error) : M A := lift (Panic e).

Definition getDisk : M FS.t := fun w => (Done (disk w), w).

Definition putDisk (fs : FS.t) : M unit :=
  fun w => (Done tt, withDisk fs w).

Definition act (a : Action) : M unit :=
  fun w => (Done tt, {| disk := disk w; sent := sent w; acts := acts w ++ [a] |}).

Global Instance M_ret : MRet M := @ret.
Global Instance M_bind : MBind M := fun A B k m => bind m k.

(** Outcomes alone, for code that reads the environment only. *)
Definition obind {A B} (o : outcome A) (k : A -> outcome B) : outcome B :=
  match o with
  | Done a => k a
  | Panic e => Panic e
  | Exit c => Exit c
  end.

Global Instance outcome_ret : MRet outcome := @Done.
Global Instance outcome_bind : MBind outcome := fun A B k o => obind o k.

(** [FatalCheck] on a library call that may fail. *)
Definition fatal {A} (o : option A) (e : error) : outcome A :=
  match o with
  | Some a => Done a
  | None => Panic e
  end.

Section Program.

Context (E : Env).
Import Strings Filepath.

(** *** util.go *)

(** Paths given to the [os] package are resolved against the working
    directory. *)
Definition resolve (p : string) : result string :=
  match Abs (os_Getwd E) p with
  | Some q => Ok q
  | None => Err ErrGetwd
  end.

(** [os.Stat], returning the size: the kernel follows the path as it is
    written, nothing is cleaned beforehand. (Of its error the callers
    only ask whether there is one.) *)
Definition os_Stat (p : string) (fs : FS.t) : result Z :=
  match FS.lookupPath (os_Getwd E) p fs with
  | Err e => Err e
  | Ok q =>
      match fs !! q with
      | Some (FS.File d) => Ok (Z.of_nat (String.length d))
      | Some FS.Dir => Ok (dirSize E)
      | None => if String.eqb q "/" then Ok (dirSize E) else Err (ErrNotExist q)
      end
  end.

(** An [os] call that changes the disk, as a step of [M] returning Go's
    [error]. *)
Definition os_update (p : string) (f : string -> FS.t -> result FS.t) : M (option error) :=
  fun w =>
    match resolve p with
    | Err e => (Done (Some e), w)
    | Ok q =>
        match f q (disk w) with
        | Ok fs => (Done None, withDisk fs w)
        | Err e => (Done (Some e), w)
        end
    end.

(** [os.MkdirAll] as a step of [M]. *)
Definition os_MkdirAll (p : string) : M (option error) :=
  fun w =>
    match FS.MkdirAll (os_Getwd E) p (disk w) with
    | Ok fs => (Done None, withDisk fs w)
    | Err e => (Done (Some e), w)
    end.

(** [MkdirIfNotExist] *)
Definition MkdirIfNotExist (folder : string) : M (option error) :=
  fs ← getDisk;
  match os_Stat folder fs with
  | Err _ => os_MkdirAll folder
  | Ok _ => ret None
  end.

(** [ExistDir] *)
Definition ExistDir (folder : string) : M bool :=
  fs ← getDisk;
  ret (match os_Stat folder fs with Ok _ => true | Err _ => false end).

(** [TaskFromURL], state_test.go 278-287 *)
Definition TaskFromURL (urlStr : string) : outcome string :=
  parsedURL ← fatal (url_Parse E urlStr) (ErrParseURL urlStr);
  let cleanPath := Clean (Url.Path parsedURL) in
  Done (Base (TrimRight cleanPath "/\")).

(** [FolderOf], state_test.go 243-275 *)
Definition FolderOf (urlStr : string) : outcome string :=
  homeDir ← fatal (user_HomeDir E) ErrUser;
  let safePath := JoinPath [homeDir; dataFolder E] in
  parsedURL ← fatal (url_Parse E urlStr) (ErrParseURL urlStr);
  if Contains (Url.Path parsedURL) ".." then Panic ErrTraversal
  else
    cleanPath ← TaskFromURL urlStr;
    fullQualifyPath ←
      fatal (Abs (os_Getwd E) (JoinPath [homeDir; dataFolder E; cleanPath])) ErrGetwd;
    relative ← fatal (Rel safePath fullQualifyPath) ErrRel;
    if Contains relative ".." then Panic ErrTraversal
    else Done fullQualifyPath.

(** The older copy of [TaskFromURL], util.go 81-87: the path is not
    cleaned. *)
Definition TaskFromURL_util (urlStr : string) : outcome string :=
  parsedURL ← fatal (url_Parse E urlStr) (ErrParseURL urlStr);
  Done (Base (TrimRight (Url.Path parsedURL) "/\")).

(** The older copy of [FolderOf], util.go 55-78: the home comes from the
    environment variable and the raw path is not checked. *)
Definition FolderOf_util (urlStr : string) : outcome string :=
  let safePath := JoinPath [os_Getenv_HOME E; dataFolder E] in
  cleanPath ← TaskFromURL_util urlStr;
  fullQualifyPath ←
    fatal (Abs (os_Getwd E) (JoinPath [os_Getenv_HOME E; dataFolder E; cleanPath])) ErrGetwd;
  relative ← fatal (Rel safePath fullQualifyPath) ErrRel;
  if Contains relative ".." then Panic ErrTraversal
  else Done fullQualifyPath.

(** [IsURL], state_test.go 290-297 *)
Definition IsURL (s : string) : bool :=
  match url_Parse E s with
  | None => false
  | Some u => negb (String.eqb (Url.Scheme u) "") && negb (String.eqb (Url.Host u) "")
  end.

(** *** state.go *)

Definition stateFileName : string := "state.json".

(** [os.Rename] *)
Definition os_Rename (oldpath newpath : string) : M (option error) :=
fun w =>
  match resolve oldpath, resolve newpath with
  | Ok o, Ok n =>
      match FS.Rename o n (disk w) with
      | Ok fs => (Done None, withDisk fs w)
      | Err e => (Done (Some e), w)
      end
  | Err e, _ => (Done (Some e), w)
  | _, Err e => (Done (Some e), w)
  end.

(** The loop of [Save] that moves the part files into the task folder; it
    returns at the first error. *)
Fixpoint moveParts (folder : string) (parts : list Part.t) : M (option error) :=
match parts with
| [] => mret None
| part :: rest =>
    err ← os_Rename (Part.Path part) (JoinPath [folder; Base (Part.Path part)]);
    match err with
    | Some e => mret (Some e)
    | None => moveParts folder rest
    end
end.

(** [State.Save], util.go 122-145 *)
Definition Save (s : State.t) : M (option error) :=
folder ← lift (FolderOf (State.URL s));
err ← MkdirIfNotExist folder;
match err with
| Some e => mret (Some e)
| None =>
    err ← moveParts folder (State.Parts s);
    match err with
    | Some e => mret (Some e)
    | None =>
        let j := Json.Marshal s in
        os_update (JoinPath [folder; stateFileName]) (fun q => FS.WriteFile q j)
    end
end.

(** [Read], util.go 148-166: the state (nil when the file cannot be read)
    and the error. *)
Definition Read (task : string) : M (option State.t * option error) :=
homeDir ← lift (fatal (user_HomeDir E) ErrUser);
taskName ← lift (TaskFromURL task);
let file := JoinPath [homeDir; dataFolder E; taskName; stateFileName] in
fs ← getDisk;
match resolve file with
| Err e => mret (None, Some e)
| Ok q =>
    match FS.ReadFile q fs with
    | Err e => mret (None, Some e)
    | Ok bytes =>
        let '(s, err) := Json.Unmarshal bytes in
        mret (Some s, err)
    end
end.

(** *** resume.go *)

Definition setRangeFrom (newFrom : Z) (p : Part.t) : Part.t :=
{| Part.Index := Part.Index p; Part.URL := Part.URL p; Part.Path := Part.Path p;
   Part.RangeFrom := newFrom; Part.RangeTo := Part.RangeTo p |}.

(** The loop of [Resume]: [n] parts are still to be visited, [i] is the
    index of the next one; the slice is updated in place. *)
Fixpoint resumeLoop (fs : FS.t) (n i : nat) (parts : list Part.t) : list Part.t :=
match n with
| O => parts
| S n =>
    match parts !! i with
    | None => parts
    | Some part =>
        match os_Stat (Part.Path part) fs with
        | Err _ => resumeLoop fs n (S i) parts
        | Ok downloaded =>
            let newFrom :=
              Int64.min (Int64.add (Part.RangeFrom part) downloaded) (Part.RangeTo part) in
            resumeLoop fs n (S i) (alter (setRangeFrom newFrom) i parts)
        end
    end
end.

(** [Resume], part_001 318-336 *)
Definition Resume (task : string) : M (option State.t * option error) :=
'(state, err) ← Read task;
match err, state with
| Some e, _ => mret (None, Some e)
| None, None => panic ErrNil
| None, Some st =>
    fs ← getDisk;
    let parts := resumeLoop fs (length (State.Parts st)) 0 (State.Parts st) in
    mret (Some {| State.URL := State.URL st; State.Parts := parts |}, None)
end.

(** The line feed between the names that [TaskPrint] prints. *)
Definition newline : string := String (Ascii.ascii_of_nat 10) EmptyString.

(** [TaskPrint], part_001 293-316: the text given to [fmt.Println] (none
    when the function returns before it prints) and the error. *)
Definition TaskPrint : M (option string * option error) :=
homeDir ← lift (fatal (user_HomeDir E) ErrUser);
let downloadingPath := JoinPath [homeDir; dataFolder E] in
fs ← getDisk;
match resolve downloadingPath with
| Err e => mret (None, Some e)
| Ok q =>
    match FS.ReadDir q fs with
    | Err e => mret (None, Some e)
    | Ok downloading =>
        let folders := map fst (List.filter snd downloading) in
        mret (Some (Join folders newline), None)
    end
end.

(** *** http.go (http_test.go 443-996) *)

Definition acceptRangeHeader : string := "Accept-Ranges".
Definition contentLengthHeader : string := "Content-Length".
Definition defaultUserAgent : string := "curl/8.7.1".

(** [type HTTPDownloader struct]; [sharedLimiter] holds the rate of the
    limiter, [None] for nil. *)
Record HTTPDownloader := {
  proxy : string;
  rate : Z;
  url : string;
  file : string;
  par : Z;
  len : Z;
  ips : list string;
  skipTLS : bool;
  parts : list Part.t;
  resumable : bool;
  sharedLimiter : option Z
}.

(** [FilterIPV4] *)
Definition FilterIPV4 (ips : list (bool * string)) : list string :=
map snd (List.filter fst ips).

(** [http.NewRequest]: it fails when the URL does not parse. *)
Definition NewRequest (method target : string) : result Http.Request :=
match url_Parse E target with
| Some _ => Ok {| Http.Method := method; Http.Target := target; Http.ReqHeader := [] |}
| None => Err (ErrParseURL target)
end.

Definition setHeader (req : Http.Request) (key value : string) : Http.Request :=
{| Http.Method := Http.Method req; Http.Target := Http.Target req;
   Http.ReqHeader := Http.Set_ (Http.ReqHeader req) key value |}.

Definition addHeader (req : Http.Request) (key value : string) : Http.Request :=
{| Http.Method := Http.Method req; Http.Target := Http.Target req;
   Http.ReqHeader := Http.Add (Http.ReqHeader req) key value |}.

(** [client.Do]: the request goes on the wire and the server answers. *)
Definition client_Do (req : Http.Request) : M (result Http.Response) :=
fun w => (Done (server E req), {| disk := disk w; sent := sent w ++ [req]; acts := acts w |}).

(** A length header that is there, parses and is positive. *)
Definition positiveLength (cl : string) : option Z :=
if String.eqb cl "" then None
else
  match Strconv.ParseInt cl with
  | Some v => if 0 <? v then Some v else None
  | None => None
  end.

(** What the prober has learnt so far. *)
Record probe := { rangeSupported : bool; lenValue : Z; lengthSpecified : bool }.

(** The HEAD probe, http_test.go 527-546. *)
Definition headProbe (target : string) : M probe :=
match NewRequest "HEAD" target with
| Err e => panic e
| Ok req =>
    let req := setHeader req "Accept" "*/*" in
    let req := setHeader req "User-Agent" defaultUserAgent in
    resp ← client_Do req;
    match resp with
    | Err _ => mret {| rangeSupported := false; lenValue := 0; lengthSpecified := false |}
    | Ok resp =>
        let rs := Contains (ToLower (Http.Get (Http.RespHeader resp) acceptRangeHeader)) "bytes" in
        match positiveLength (Http.Get (Http.RespHeader resp) contentLengthHeader) with
        | Some v => mret {| rangeSupported := rs; lenValue := v; lengthSpecified := true |}
        | None => mret {| rangeSupported := rs; lenValue := 0; lengthSpecified := false |}
        end
    end
end.

(** The total after the last slash of a [Content-Range] value. *)
Definition contentRangeTotal (cr : string) : option Z :=
match LastIndex cr "/" with
| Some slash =>
    if (S slash <? String.length cr)%nat then
      match Strconv.ParseInt (drop (S slash) cr) with
      | Some total => if 0 <? total then Some total else None
      | None => None
      end
    else None
| None => None
end.

(** The range probe, http_test.go 548-580. *)
Definition rangeProbe (target : string) (p : probe) : M probe :=
if negb (rangeSupported p) || (lenValue p =? 0) then
  match NewRequest "GET" target with
  | Err _ => mret p
  | Ok preq =>
      let preq := setHeader preq "Range" "bytes=0-0" in
      let preq := setHeader preq "Accept" "*/*" in
      let preq := setHeader preq "User-Agent" defaultUserAgent in
      pr ← client_Do preq;
      match pr with
      | Err _ => mret p
      | Ok pr =>
          if Http.StatusCode pr =? Http.StatusPartialContent then
            match contentRangeTotal (Http.Get (Http.RespHeader pr) "Content-Range") with
            | Some total =>
                mret {| rangeSupported := true; lenValue := total; lengthSpecified := true |}
            | None =>
                mret {| rangeSupported := true; lenValue := lenValue p;
                        lengthSpecified := lengthSpecified p |}
            end
          else
            match positiveLength (Http.Get (Http.RespHeader pr) contentLengthHeader) with
            | Some v =>
                mret {| rangeSupported := false; lenValue := v; lengthSpecified := true |}
            | None =>
                mret {| rangeSupported := false; lenValue := lenValue p;
                        lengthSpecified := lengthSpecified p |}
            end
      end
  end
else mret p.

(** The decisions taken from the probes, http_test.go 582-592: the
    parallelism, the length and whether the task can be resumed. *)
Definition settle (par : Z) (p : probe) : Z * Z * bool :=
let par := if negb (rangeSupported p) then 1 else par in
if lenValue p =? 0 then (1, 1, false) else (par, lenValue p, true).

(** The loop of [partCalculate]: [n] parts are still to be made, [j] is the
    index of the next one. *)
Fixpoint partLoop (n : nat) (j par len : Z) (target : string) (ret : list Part.t)
  : M (list Part.t) :=
match n with
| O => mret ret
| S n =>
    let from := Int64.mul (Int64.div len par) j in
    let to :=
      if j <? Int64.sub par 1
      then Int64.sub (Int64.mul (Int64.div len par) (Int64.add j 1)) 1
      else len in
    file ← lift (TaskFromURL target);
    folder ← lift (FolderOf target);
    err ← MkdirIfNotExist folder;
    match err with
    | Some _ => lift (Exit 1)
    | None =>
        let fname := file +:+ ".part" +:+ Strconv.FormatIntPad 6 j in
        let path := JoinPath [folder; fname] in
        let part := {| Part.Index := j; Part.URL := target; Part.Path := path;
                       Part.RangeFrom := from; Part.RangeTo := to |} in
        partLoop n (Int64.add j 1) par len target (<[Z.to_nat j := part]> ret)
    end
end.

(** [partCalculate], http_test.go 631-656 *)
Definition partCalculate (par len : Z) (target : string) : M (list Part.t) :=
if par <? 0 then panic ErrMakeSlice
else partLoop (Z.to_nat par) 0 par len target (replicate (Z.to_nat par) Json.zeroPart).

(** [NewHTTPDownloader], http_test.go 509-628 *)
Definition NewHTTPDownloader (target : string) (par : Z) (skip : bool)
  (proxyServer bwLimit : string) : M HTTPDownloader :=
parsed ← lift (fatal (url_Parse E target) (ErrParseURL target));
ips ← lift (fatal (net_LookupIP E (Url.Hostname parsed)) (ErrLookup (Url.Hostname parsed)));
let ipstr := FilterIPV4 ips in
p ← headProbe target;
p ← rangeProbe target p;
let '(par, lenValue, resumable) := settle par p in
file ← lift (TaskFromURL target);
let rate :=
  match units_ParseStrictBytes E bwLimit with
  | Some bandwidthLimit => bandwidthLimit
  | None => 0
  end in
parts ← partCalculate par lenValue target;
mret {| proxy := proxyServer; rate := rate; url := target; file := file;
        par := par; len := lenValue; ips := ipstr; skipTLS := skip;
        parts := parts; resumable := resumable;
        sharedLimiter := if 0 <? rate then Some rate else None |}.

(** [buildRequestForPart], http_test.go 882-905 *)
Definition buildRequestForPart (d : HTTPDownloader) (part : Part.t) : result Http.Request :=
match NewRequest "GET" (url d) with
| Err e => Err e
| Ok req =>
    let req :=
      if 1 <? par d then
        let ranges :=
          if negb (Part.RangeTo part =? len d)
          then "bytes=" +:+ Strconv.FormatInt (Part.RangeFrom part)
               +:+ "-" +:+ Strconv.FormatInt (Part.RangeTo part)
          else "bytes=" +:+ Strconv.FormatInt (Part.RangeFrom part) +:+ "-" in
        addHeader req "Range" ranges
      else req in
    let req := setHeader req "Accept" "*/*" in
    let req := setHeader req "User-Agent" defaultUserAgent in
    Ok req
end.

(** What a worker puts on the channels of the coordinator. *)
Inductive Msg :=
| ToError (e : error)
| ToState (p : Part.t)
| ToFile (path : string).

(** When the interrupt reaches a worker: never, before the response
    headers are in, or after [n] bytes of the body have been copied. *)
Inductive Interrupt :=
| NoInterrupt
| BeforeResponse
| DuringCopy (n : nat).

(** [handleCompletedPart], http_test.go 777-787 *)
Definition handleCompletedPart (d : HTTPDownloader) (p : Part.t) : list Msg :=
[ToState {| Part.Index := Part.Index p; Part.URL := url d; Part.Path := Part.Path p;
            Part.RangeFrom := Part.RangeFrom p; Part.RangeTo := Part.RangeTo p |}].

(** [downloadPart], http_test.go 790-879: the messages the worker sends,
    in order. [copyContent] writes what it reads of the body to the file,
    which was opened for appending; its errors are dropped. *)
Definition downloadPart (d : HTTPDownloader) (part : Part.t) (intr : Interrupt)
  : M (list Msg) :=
match buildRequestForPart d part with
| Err e => mret [ToError e]
| Ok req =>
    resp ← client_Do req;
    let resp := match intr with BeforeResponse => Err ErrCanceled | _ => resp end in
    match resp with
    | Err e =>
        match e, intr with
        | ErrCanceled, _ | _, BeforeResponse =>
            mret [ToState {| Part.Index := Part.Index part; Part.URL := url d;
                             Part.Path := Part.Path part;
                             Part.RangeFrom := Part.RangeFrom part;
                             Part.RangeTo := Part.RangeTo part |}]
        | _, _ => mret [ToError e]
        end
    | Ok resp =>
        let current := 0 in
        let body :=
          match intr with
          | DuringCopy n => take n (Http.Body resp)
          | _ => Http.Body resp
          end in
        err ← os_update (Part.Path part) (fun q => FS.AppendFile q body);
        match err with
        | Some e => mret [ToError e]
        | None =>
            let currentPart :=
              {| Part.Index := Part.Index part; Part.URL := url d;
                 Part.Path := Part.Path part;
                 Part.RangeFrom := Int64.add (Part.RangeFrom part) current;
                 Part.RangeTo := Part.RangeTo part |} in
            mret [ToState currentPart; ToFile (Part.Path part)]
        end
    end
end.

(** What [Do] starts for a part, http_test.go 744-762: a part with nothing
    left to fetch is reported on the state channel by [Do] itself; any
    other part gets a worker goroutine. *)
Inductive Job :=
| Reported (msgs : list Msg)
| Started (part : Part.t).

(** [Do], http_test.go 739-775: the jobs, in the order of the parts. A
    job is done when the events of [Execute] say so; the message on
    [doneChan] follows when every part was reported and every worker
    that was started has returned. *)
Definition Do (d : HTTPDownloader) : list Job :=
map (fun p =>
       if Part.RangeTo p <=? Part.RangeFrom p
       then Reported (handleCompletedPart d p)
       else Started p)
    (parts d).

(** *** main.go (README.md 71-240) *)

(** What happens while [Execute] stands in its loop, one thing after the
    other. The [select] takes a signal, a path from [fileChan], an error
    from [errorChan], a part from [stateChan] or the message of
    [doneChan]. Or, beside the loop, part [i] of the downloader is dealt
    with: by [Do] itself when nothing is left to fetch, else by the
    worker that [Do] started for it, which runs to its end ([intr] tells
    where the interrupt caught it). Or the worker of part [i] is under
    way and does not come to its end while [Execute] runs: its request
    is out and it stands where [upto] says (no response yet, or so many
    bytes of the body in its file), having sent nothing to the loop. *)
Inductive Event :=
| EvSignal
| EvFile (file : string)
| EvError (e : error)
| EvState (part : Part.t)
| EvDone
| EvPart (i : nat) (intr : Interrupt)
| EvCopy (i : nat) (upto : Interrupt).

(** How far a run of the coordinator got: it returned; the events ran out
    and it waits in its [select]; or the events ask for what cannot be (a
    message that nobody has sent, the message of [doneChan] while a part
    is still to be dealt with, an interrupted worker when no interrupt is
    left for it, a part that was dealt with before, has its worker under
    way or is not there): no run of the program goes that way. *)
Inductive Run :=
| Returned
| Waiting
| Blocked.

(** The variables of the loop. *)
Record Loop := { files : list string; seen : list Part.t; isInterrupted : bool }.

(** What is under way beside the loop: the messages sent on [fileChan],
    [errorChan] and [stateChan] that the [select] has not taken, the
    parts dealt with, the parts whose workers do not come to their end,
    and the interrupts the loop has sent that no worker has taken. The
    channels are read without their bounds and without the order of
    their messages, so that every run of the program is among the runs
    described: a bound or an order only keeps the program from some of
    them. *)
Record Flight := {
  inbox : list Msg;
  dealt : list nat;
  unfinished : list nat;
  interrupts : Z
}.

Global Instance Msg_eq_dec : EqDecision Msg.
Proof. solve_decision. Defined.

(** One message [m] is taken out of those under way. *)
Fixpoint takeMsg (m : Msg) (l : list Msg) : option (list Msg) :=
match l with
| [] => None
| x :: rest => if decide (x = m) then Some rest else cons x <$> takeMsg m rest
end.

(** The branch of [select] on [doneChan], README.md 205-222. *)
Definition onDone (target : string) (d : HTTPDownloader) (l : Loop) : M Run :=
if isInterrupted l then
  if resumable d then
    let s := {| State.URL := target; State.Parts := seen l |} in
    bind (act (ActSave s)) (fun _ =>
    bind (Save s) (fun _ =>
    mret Returned))
  else bind (act ActWarn) (fun _ => mret Returned)
else
  dst ← lift (TaskFromURL target);
  bind (act (ActJoin (files l) dst)) (fun _ =>
  fs ← getDisk;
  let '(err, fs') := JoinFile E (files l) dst fs in
  bind (putDisk fs') (fun _ =>
  match err with
  | Some e => panic e
  | None =>
      folder ← lift (FolderOf target);
      bind (act (ActRemoveAll folder)) (fun _ =>
      fs ← getDisk;
      match resolve folder with
      | Err e => panic e
      | Ok q => bind (putDisk (FS.RemoveAll q fs)) (fun _ => mret Returned)
      end)
  end)).

(** Part [i] is dealt with, http_test.go 744-762: [Do] reports it, or its
    worker runs; the messages are under way afterwards. A worker is
    interrupted only by an interrupt that the loop has sent and that no
    other worker has taken. *)
Definition dealWith (d : HTTPDownloader) (i : nat) (intr : Interrupt) (g : Flight)
  : M (option Flight) :=
if bool_decide (i ∈ dealt g ++ unfinished g) then mret None
else
  match Do d !! i with
  | None => mret None
  | Some (Reported msgs) =>
      mret (Some {| inbox := inbox g ++ msgs; dealt := i :: dealt g;
                    unfinished := unfinished g; interrupts := interrupts g |})
  | Some (Started part) =>
      match intr with
      | NoInterrupt =>
          msgs ← downloadPart d part intr;
          mret (Some {| inbox := inbox g ++ msgs; dealt := i :: dealt g;
                        unfinished := unfinished g; interrupts := interrupts g |})
      | _ =>
          if 0 <? interrupts g then
            msgs ← downloadPart d part intr;
            mret (Some {| inbox := inbox g ++ msgs; dealt := i :: dealt g;
                          unfinished := unfinished g;
                          interrupts := interrupts g - 1 |})
          else mret None
      end
  end.

(** The worker of part [i] is under way, http_test.go 790-859: it has
    done to the world what a worker does up to where it stands, and what
    it would send is not sent. Its part is never dealt with, so the
    message of [doneChan] does not come. *)
Definition underWay (d : HTTPDownloader) (i : nat) (upto : Interrupt) (g : Flight)
  : M (option Flight) :=
if bool_decide (i ∈ dealt g ++ unfinished g) then mret None
else
  match Do d !! i with
  | Some (Started part) =>
      bind (downloadPart d part upto) (fun _ =>
      mret (Some {| inbox := inbox g; dealt := dealt g;
                    unfinished := i :: unfinished g; interrupts := interrupts g |}))
  | _ => mret None
  end.

(** One turn of the loop of [Execute], README.md 190-224: the run is
    over, or the loop goes on with its variables. [wg.Wait] lets the
    message of [doneChan] through when every part was dealt with. *)
Definition turn (target : string) (conn : Z) (d : HTTPDownloader) (ev : Event)
  (l : Loop) (g : Flight) : M (Run + Loop * Flight) :=
match ev with
| EvSignal =>
    bind (act (ActInterrupt conn)) (fun _ =>
    mret (inr ({| files := files l; seen := seen l; isInterrupted := true |},
               {| inbox := inbox g; dealt := dealt g; unfinished := unfinished g;
                  interrupts := interrupts g + conn |})))
| EvFile file =>
    match takeMsg (ToFile file) (inbox g) with
    | Some rest =>
        mret (inr ({| files := files l ++ [file]; seen := seen l;
                      isInterrupted := isInterrupted l |},
                   {| inbox := rest; dealt := dealt g; unfinished := unfinished g;
                      interrupts := interrupts g |}))
    | None => mret (inl Blocked)
    end
| EvError e =>
    match takeMsg (ToError e) (inbox g) with
    | Some _ => panic e
    | None => mret (inl Blocked)
    end
| EvState part =>
    match takeMsg (ToState part) (inbox g) with
    | Some rest =>
        mret (inr ({| files := files l; seen := seen l ++ [part];
                      isInterrupted := isInterrupted l |},
                   {| inbox := rest; dealt := dealt g; unfinished := unfinished g;
                      interrupts := interrupts g |}))
    | None => mret (inl Blocked)
    end
| EvDone =>
    if (length (dealt g) =? length (parts d))%nat
    then r ← onDone target d l; mret (inl r)
    else mret (inl Blocked)
| EvPart i intr =>
    g' ← dealWith d i intr g;
    match g' with
    | Some g' => mret (inr (l, g'))
    | None => mret (inl Blocked)
    end
| EvCopy i upto =>
    g' ← underWay d i upto g;
    match g' with
    | Some g' => mret (inr (l, g'))
    | None => mret (inl Blocked)
    end
end.

(** The loop of [Execute] over what happens. *)
Fixpoint coordinate (target : string) (conn : Z) (d : HTTPDownloader)
  (events : list Event) (l : Loop) (g : Flight) : M Run :=
match events with
| [] => mret Waiting
| ev :: rest =>
    r ← turn target conn d ev l g;
    match r with
    | inl run => mret run
    | inr (l', g') => coordinate target conn d rest l' g'
    end
end.

(** The downloader of a resumed task, README.md 180-186. *)
Definition resumedDownloader (st : State.t) : M HTTPDownloader :=
file ← lift (TaskFromURL (State.URL st));
mret {| proxy := ""; rate := 0; url := State.URL st; file := file;
        par := Z.of_nat (length (State.Parts st)); len := 0; ips := [];
        skipTLS := false; parts := State.Parts st; resumable := true;
        sharedLimiter := None |}.

(** [Execute], README.md 157-225; [events] is what happens while it
    runs. The channels are made first, and [make] panics on a negative
    size; [Do] and its workers run beside the loop. *)
Definition Execute (target : string) (state : option State.t) (conn : Z) (skiptls : bool)
  (proxyServer bwLimit : string) (events : list Event) : M Run :=
if conn <? 0 then panic ErrMakeChan
else
  downloader ←
    match state with
    | None => NewHTTPDownloader target conn skiptls proxyServer bwLimit
    | Some st => resumedDownloader st
    end;
  coordinate target conn downloader events
    {| files := []; seen := []; isInterrupted := false |}
    {| inbox := []; dealt := []; unfinished := []; interrupts := 0 |}.

(** The branch of [main] for [-resume], README.md 99-105. *)
Definition mainResume (resumeTask : string) (conn : Z) (skiptls : bool)
  (proxyServer bwLimit : string) (events : list Event) : M Run :=
'(state, err) ← Resume resumeTask;
match err with
| Some e => panic e
| None =>
    match state with
    | Some st => Execute (State.URL st) (Some st) conn skiptls proxyServer bwLimit events
    | None => panic ErrNil
    end
end.

(** The branch of [main] for a URL on the command line, README.md
    135-146: what is left of an earlier task of the URL is removed, then
    the download starts afresh. *)
Definition mainDownload (downloadURL : string) (conn : Z) (skiptls : bool)
  (proxyServer bwLimit : string) (events : list Event) : M Run :=
folder ← lift (FolderOf downloadURL);
exist ← ExistDir folder;
bind (if exist : bool then
        folder ← lift (FolderOf downloadURL);
        fs ← getDisk;
        match resolve folder with
        | Err e => panic e
        | Ok q => putDisk (FS.RemoveAll q fs)
        end
      else mret tt)
     (fun _ => Execute downloadURL None conn skiptls proxyServer bwLimit events).

End Program.

(** ** A concrete environment *)

Module Scenario.
Import Strings Filepath.

(** Modelled from the spec: [JoinFile] of joiner.go, which is not among
    the sources. The part paths are sorted as strings, the destination is
    created or truncated, and each part is streamed into it in turn; a part
    that cannot be opened fails the join and leaves what was written. *)
Fixpoint joinInto (wd : option string) (srcs : list string) (dst : string) (fs : FS.t)
  : option error * FS.t :=
match srcs with
| [] => (None, fs)
| src :: rest =>
    match Abs wd src with
    | None => (Some ErrGetwd, fs)
    | Some q =>
        match FS.ReadFile q fs with
        | Err e => (Some e, fs)
        | Ok data =>
            match FS.AppendFile dst data fs with
            | Err e => (Some e, fs)
            | Ok fs' => joinInto wd rest dst fs'
            end
        end
    end
end.

Definition JoinFileSpec (wd : option string) (srcs : list string) (dst : string) (fs : FS.t)
  : option error * FS.t :=
match Abs wd dst with
| None => (Some ErrGetwd, fs)
| Some q =>
    match FS.WriteFile q EmptyString fs with
    | Err e => (Some e, fs)
    | Ok fs' => joinInto wd (merge_sort String.le srcs) q fs'
    end
end.

(** A user [u] with home /home/u who works in /work, and a server [srv]. *)
Definition env (srv : Http.Request -> result Http.Response) : Env :=
{| url_Parse := Url.Parse;
   user_HomeDir := Some "/home/u";
   os_Getenv_HOME := "/home/u";
   os_Getwd := Some "/work";
   dataFolder := ".hget/";
   dirSize := 4096;
   net_LookupIP := fun _ => Some [(true, "127.0.0.1"); (false, "::1")];
   server := srv;
   units_ParseStrictBytes := fun _ => None;
   JoinFile := JoinFileSpec (Some "/work") |}.

Definition noServer : Http.Request -> result Http.Response := fun _ => Err ErrTransport.

(** A disk that holds the home and the working directory. *)
Definition disk0 : FS.t :=
<["/home" := FS.Dir]> (<["/home/u" := FS.Dir]> (<["/work" := FS.Dir]> ∅)).

Definition world0 : World := {| disk := disk0; sent := []; acts := [] |}.

End Scenario.

(** ** Notions used in the statements *)

(** The value the worker writes into the Range header of a part. *)
Definition closedRange (part : Part.t) : string :=
  "bytes=" +:+ Strconv.FormatInt (Part.RangeFrom part)
  +:+ "-" +:+ Strconv.FormatInt (Part.RangeTo part).

Definition openRange (part : Part.t) : string :=
  "bytes=" +:+ Strconv.FormatInt (Part.RangeFrom part) +:+ "-".

(** The header values stored under [key], in order. *)
Definition values (h : Http.Header) (key : string) : list string :=
  map snd (List.filter (fun kv => String.eqb (fst kv) key) h).


Module RequestScenario.
Import Scenario.

Definition downloader (n total : Z) : HTTPDownloader :=
{| proxy := ""; rate := 0; url := "http://example.com/file"; file := "file";
   par := n; len := total; ips := []; skipTLS := false; parts := [];
   resumable := true; sharedLimiter := None |}.

Definition part (i from to : Z) : Part.t :=
{| Part.Index := i; Part.URL := "http://example.com/file";
   Part.Path := "file.part00000" +:+ Strconv.FormatInt i;
   Part.RangeFrom := from; Part.RangeTo := to |}.

Definition request (range : list (string * string)) : Http.Request :=
{| Http.Method := "GET"; Http.Target := "http://example.com/file";
   Http.ReqHeader := range ++ [("Accept", "*/*"); ("User-Agent", "curl/8.7.1")] |}.

End RequestScenario.

Module WorkerScenario.
Import Scenario.

Definition target : string := "http://example.com/file".

(** A server that answers every request with the same ten bytes. *)
Definition tenBytes : Http.Request -> result Http.Response :=
fun _ => Ok {| Http.StatusCode := 200; Http.RespHeader := []; Http.Body := "0123456789" |}.

Definition E : Env := env tenBytes.

Definition path : string := "/home/u/.hget/file/file.part000000".

Definition part : Part.t :=
{| Part.Index := 0; Part.URL := target; Part.Path := path;
   Part.RangeFrom := 0; Part.RangeTo := 10 |}.

Definition downloader : HTTPDownloader :=
{| proxy := ""; rate := 0; url := target; file := "file";
   par := 1; len := 10; ips := []; skipTLS := false; parts := [part];
   resumable := true; sharedLimiter := None |}.

(** The disk once the task folder is there. *)
Definition world1 : World :=
{| disk := <["/home/u/.hget" := FS.Dir]> (<["/home/u/.hget/file" := FS.Dir]> disk0);
   sent := []; acts := [] |}.

End WorkerScenario.

(** What [Resume] makes of one part, given the disk: the start moves by
    the size of the part file, up to [RangeTo], when the file is there. *)
Definition adjusted (E : Env) (fs : FS.t) (p : Part.t) : Part.t :=
match os_Stat E (Part.Path p) fs with
| Ok s => setRangeFrom (Int64.min (Int64.add (Part.RangeFrom p) s) (Part.RangeTo p)) p
| Err _ => p
end.

Module ResumeScenario.
Import Scenario.

Definition E : Env := env noServer.
Definition target : string := "http://example.com/file".
Definition total : Z := 100.

(** The plan for 100 bytes in two parts, and the world that holds the task
    folder. *)
Definition planned : outcome (list Part.t) * World := partCalculate E 2 total target world0.

Definition plan : list Part.t :=
match fst planned with
| Done ps => ps
| _ => []
end.

Definition manifest : State.t := {| State.URL := target; State.Parts := plan |}.

Definition write (p data : string) (w : World) : World :=
match FS.AppendFile p data (disk w) with
| Ok fs => withDisk fs w
| Err _ => w
end.

(** The first part file holds 20 of its 50 bytes, the file of the last
    part all 50 of its bytes (offsets 50 to 99); then the manifest is
    saved. *)
Definition world : World :=
snd (Save E manifest
       (write "/home/u/.hget/file/file.part000001" (Strconv.zeros 50)
          (write "/home/u/.hget/file/file.part000000" (Strconv.zeros 20)
             (snd planned)))).

Definition resumed : State.t :=
{| State.URL := target;
   State.Parts :=
     [ {| Part.Index := 0; Part.URL := target;
          Part.Path := "/home/u/.hget/file/file.part000000";
          Part.RangeFrom := 20; Part.RangeTo := 49 |};
       {| Part.Index := 1; Part.URL := target;
          Part.Path := "/home/u/.hget/file/file.part000001";
          Part.RangeFrom := 100; Part.RangeTo := 100 |} ] |}.

End ResumeScenario.

(** The part with index [j] of the plan for [len] bytes in [par] parts. *)
Definition plannedPart (par len : Z) (target folder file : string) (j : Z) : Part.t :=
{| Part.Index := j;
   Part.URL := target;
   Part.Path := Filepath.JoinPath [folder; file +:+ ".part" +:+ Strconv.FormatIntPad 6 j];
   Part.RangeFrom := (len / par) * j;
   Part.RangeTo := if j <? par - 1 then (len / par) * (j + 1) - 1 else len |}.

(** The byte offsets a part of a resource of [len] bytes stands for: from
    [RangeFrom] through [RangeTo], and through the end of the resource
    when [RangeTo] is the total length. *)
Definition covers (len : Z) (p : Part.t) (b : Z) : Prop :=
Part.RangeFrom p <= b /\ (if Part.RangeTo p =? len then b < len else b <= Part.RangeTo p).

Module PlanScenario.
Import Scenario.

Definition E : Env := env noServer.
Definition target : string := "http://tiny.file/data".

Definition plan : list Part.t :=
map (plannedPart 3 10 target "/home/u/.hget/data" "data") [0; 1; 2].

Definition world1 : World :=
{| disk := <["/home/u/.hget/data" := FS.Dir]> (<["/home/u/.hget" := FS.Dir]> disk0);
   sent := []; acts := [] |}.

End PlanScenario.

(** The parts the coordinator has received on the state channel when its
    [select] takes the first [EvDone] (or meets an error). *)
Fixpoint received (events : list Event) : list Part.t :=
match events with
| [] => []
| EvState p :: rest => p :: received rest
| EvDone :: _ => []
| EvError _ :: _ => []
| _ :: rest => received rest
end.

(** An action of the joining branch: the joiner, or the removal of the
    task folder that follows it. *)
Definition joins (a : Action) : bool :=
match a with
| ActJoin _ _ => true
| ActRemoveAll _ => true
| _ => false
end.

(** A signal is taken before the run is over, that is, before the first
    message of [doneChan] or the first error in [events]. *)
Fixpoint signalled (events : list Event) : bool :=
match events with
| [] => false
| EvSignal :: _ => true
| EvDone :: _ => false
| EvError _ :: _ => false
| _ :: rest => signalled rest
end.

(** The world when the events before the end of the run are past: the
    interrupts have been sent and the workers named have run, to their
    end or as far as they got. *)
Fixpoint passed (E : Env) (conn : Z) (d : HTTPDownloader) (events : list Event)
  (w : World) : World :=
match events with
| [] => w
| EvSignal :: rest =>
    passed E conn d rest
      {| disk := disk w; sent := sent w; acts := acts w ++ [ActInterrupt conn] |}
| EvPart i intr :: rest | EvCopy i intr :: rest =>
    match Do d !! i with
    | Some (Started part) => passed E conn d rest (snd (downloadPart E d part intr w))
    | _ => passed E conn d rest w
    end
| EvDone :: _ => w
| EvError _ :: _ => w
| _ :: rest => passed E conn d rest w
end.

Module InterruptScenario.
Import Scenario.

Definition E : Env := env noServer.
Definition target : string := "http://example.com/file".

Definition part0 : Part.t :=
{| Part.Index := 0; Part.URL := target; Part.Path := "/home/u/.hget/file/file.part000000";
   Part.RangeFrom := 0; Part.RangeTo := 100 |}.

Definition downloader : HTTPDownloader :=
{| proxy := ""; rate := 0; url := target; file := "file";
   par := 1; len := 100; ips := []; skipTLS := false; parts := [part0];
   resumable := true; sharedLimiter := None |}.

Definition manifest : State.t := {| State.URL := target; State.Parts := [part0] |}.

(** The part file holds 30 bytes when the run starts. *)
Definition world1 : World :=
{| disk := <["/home/u/.hget/file/file.part000000" := FS.File (Strconv.zeros 30)]>
             (<["/home/u/.hget" := FS.Dir]> (<["/home/u/.hget/file" := FS.Dir]> disk0));
   sent := []; acts := [] |}.

(** A signal arrives, the worker is caught before its response and
    reports its part, all workers are done. *)
Definition events : list Event :=
[EvSignal; EvPart 0 BeforeResponse; EvState part0; EvDone].

End InterruptScenario.

(** A download of ten bytes in two parts from a server that shows the
    length on HEAD and serves ranges. *)
Module DownloadScenario.
Import Scenario.

Definition target : string := "http://example.com/file".

Definition ranged : Http.Request -> result Http.Response :=
fun req =>
  if String.eqb (Http.Method req) "HEAD"
  then Ok {| Http.StatusCode := 200;
             Http.RespHeader := [("Accept-Ranges", "bytes"); ("Content-Length", "10")];
             Http.Body := "" |}
  else if String.eqb (Http.Get (Http.ReqHeader req) "Range") "bytes=0-4"
  then Ok {| Http.StatusCode := 206;
             Http.RespHeader := [("Content-Range", "bytes 0-4/10")];
             Http.Body := "01234" |}
  else if String.eqb (Http.Get (Http.ReqHeader req) "Range") "bytes=5-"
  then Ok {| Http.StatusCode := 206;
             Http.RespHeader := [("Content-Range", "bytes 5-9/10")];
             Http.Body := "56789" |}
  else Ok {| Http.StatusCode := 200; Http.RespHeader := []; Http.Body := "0123456789" |}.

Definition E : Env := env ranged.

Definition part0 : Part.t :=
{| Part.Index := 0; Part.URL := target; Part.Path := "/home/u/.hget/file/file.part000000";
   Part.RangeFrom := 0; Part.RangeTo := 4 |}.

Definition part1 : Part.t :=
{| Part.Index := 1; Part.URL := target; Part.Path := "/home/u/.hget/file/file.part000001";
   Part.RangeFrom := 5; Part.RangeTo := 10 |}.

(** Both workers run to the end and everything they send is taken
    before the message of [doneChan]. *)
Definition complete : list Event :=
[EvPart 1 NoInterrupt; EvPart 0 NoInterrupt; EvState part1; EvState part0;
 EvFile (Part.Path part0); EvFile (Part.Path part1); EvDone].

(** The first worker runs to the end; then a signal arrives and the
    second worker is caught after two bytes. *)
Definition stopped : list Event :=
[EvPart 0 NoInterrupt; EvState part0; EvFile (Part.Path part0); EvSignal;
 EvPart 1 (DuringCopy 2); EvFile (Part.Path part1); EvState part1; EvDone].

(** The server fails on the second part, while the worker of the first
    part has two bytes of the body in its file. *)
Definition failing : Http.Request -> result Http.Response :=
fun req =>
  if String.eqb (Http.Get (Http.ReqHeader req) "Range") "bytes=5-"
  then Err ErrTransport
  else ranged req.

Definition broken : list Event :=
[EvCopy 0 (DuringCopy 2); EvPart 1 NoInterrupt; EvError ErrTransport; EvDone].

End DownloadScenario.

(** The request of the range probe. *)
Definition probeRequest (target : string) : Http.Request :=
{| Http.Method := "GET"; Http.Target := target;
   Http.ReqHeader := [("Range", "bytes=0-0"); ("Accept", "*/*"); ("User-Agent", "curl/8.7.1")] |}.

(** A string of decimal digits. *)
Fixpoint allDigits (s : string) : bool :=
match s with
| EmptyString => true
| String c t => Strconv.isDigit c && allDigits t
end.

Module ProbeScenario.
Import Scenario.

Definition target : string := "http://example.com/file.bin".

(** The server of [TestNewHTTPDownloaderRangeFallback]: HEAD without
    [Accept-Ranges] and without a length, 206 with the total in
    [Content-Range] for a ranged GET. *)
Definition rangedOnly : Http.Request -> result Http.Response :=
fun req =>
  if String.eqb (Http.Method req) "HEAD"
  then Ok {| Http.StatusCode := 200; Http.RespHeader := []; Http.Body := "" |}
  else if Strings.HasPrefix (Http.Get (Http.ReqHeader req) "Range") "bytes="
  then Ok {| Http.StatusCode := 206;
             Http.RespHeader := [("Content-Range", "bytes 0-0/4096")];
             Http.Body := "x" |}
  else Ok {| Http.StatusCode := 200; Http.RespHeader := []; Http.Body := "" |}.

Definition E : Env := env rangedOnly.

End ProbeScenario.

(** There is a separator in [s]. *)
Fixpoint hasSlash (s : string) : bool :=
match s with
| EmptyString => false
| String c t => Ascii.eqb "/" c || hasSlash t
end.

(** There are two dots in a row in [s]. *)
Fixpoint dotdot (s : string) : bool :=
match s with
| EmptyString => false
| String c t =>
    (Ascii.eqb "." c && match t with String d _ => Ascii.eqb "." d | EmptyString => false end)
    || dotdot t
end.

(** *** The manifest as a document *)

(** What may follow a value inside an object or an array. *)
Definition delimiter (c : ascii) : Prop := c = ","%char \/ c = "}"%char \/ c = "]"%char.

(** A key that is written as it is. *)
Definition plain (k : string) : Prop :=
  Json.quoteAux (String.length k) k = k /\ Utf8.ValidString k = true.

(** The document that [Marshal] writes, as a tree. *)
Definition partValue (p : Part.t) : Json.value :=
  Json.JObj [("Index"%string, Json.JNum (Strconv.FormatInt (Part.Index p)));
             ("URL"%string, Json.JStr (Part.URL p));
             ("Path"%string, Json.JStr (Part.Path p));
             ("RangeFrom"%string, Json.JNum (Strconv.FormatInt (Part.RangeFrom p)));
             ("RangeTo"%string, Json.JNum (Strconv.FormatInt (Part.RangeTo p)))].

Definition stateValue (s : State.t) : Json.value :=
  Json.JObj [("URL"%string, Json.JStr (State.URL s));
             ("Parts"%string, Json.JArr (map partValue (State.Parts s)))].

(** What a manifest has to hold for its document to be read back as it
    is: text that is valid UTF-8 and numbers of 64 bits. *)
Definition validPart (p : Part.t) : Prop :=
  Int64.in_range (Part.Index p) /\ Utf8.ValidString (Part.URL p) = true
  /\ Utf8.ValidString (Part.Path p) = true
  /\ Int64.in_range (Part.RangeFrom p) /\ Int64.in_range (Part.RangeTo p).

Definition validState (s : State.t) : Prop :=
  Utf8.ValidString (State.URL s) = true /\ Forall validPart (State.Parts s).

(** *** Clean paths *)

(** The elements that [Clean] keeps: not empty, not a dot or two, and
    without a separator inside. *)
Definition normal (e : string) : Prop :=
  e <> ""%string /\ e <> "."%string /\ e <> ".."%string /\ Strings.SplitSlash e = [e].

(** The elements written by [Clean], last one first: kept elements, and
    before them, in a path that is not rooted, the [..] elements that
    nothing cancels. *)
Definition canon (rooted : bool) (out : list string) : Prop :=
  exists ns k,
    out = ns ++ repeat ".."%string k /\ Forall normal ns /\ (rooted = true -> k = 0%nat).

(** The path that [Clean] writes for the elements it kept. *)
Definition cleaned (rooted : bool) (out : list string) : string :=
  let s := (if rooted then "/" else "") +:+ Strings.Join (rev out) "/" in
  if String.eqb s "" then "."%string else s.

(** A manifest that is saved and read back. *)
Module SaveScenario.
Import Scenario.

Definition E : Env := env noServer.

(** A URL whose path ends in a byte that is not UTF-8. *)
Definition target : string := "http://foo.bar/" +:+ String (Utf8.zbyte 255) EmptyString.

Definition manifest : State.t := {| State.URL := target; State.Parts := [] |}.

Definition saved : World := snd (Save E manifest world0).

(** What is read back: U+FFFD in the place of the byte. *)
Definition reread : State.t :=
{| State.URL := "http://foo.bar/" +:+ Utf8.EncodeRune Utf8.RuneError; State.Parts := [] |}.

(** A manifest of valid text: the path of the URL ends in a letter of two
    bytes (U+00E9), and the one part has its file in the working
    directory. *)
Definition name : string := String (Utf8.zbyte 195) (String (Utf8.zbyte 169) EmptyString).

Definition goodTarget : string := "http://foo.bar/caf" +:+ name.

Definition goodManifest : State.t :=
{| State.URL := goodTarget;
   State.Parts :=
     [ {| Part.Index := 0; Part.URL := goodTarget; Part.Path := "/work/caf.part000000";
          Part.RangeFrom := 7; Part.RangeTo := -1 |} ] |}.

Definition before : World :=
ResumeScenario.write "/work/caf.part000000" "1234567" world0.

Definition goodSaved : World := snd (Save E goodManifest before).

End SaveScenario.

(** ** Definitions for the further properties *)

(** *** What a worker leaves behind *)

(** The part as a worker reports it: the part it was given, under the URL
    of the downloader. *)
Definition reported (d : HTTPDownloader) (part : Part.t) : Part.t :=
{| Part.Index := Part.Index part; Part.URL := url d; Part.Path := Part.Path part;
   Part.RangeFrom := Part.RangeFrom part; Part.RangeTo := Part.RangeTo part |}.

(** The bytes of the file at [q], none when there is no file. *)
Definition contentAt (fs : FS.t) (q : string) : string :=
match fs !! q with
| Some (FS.File data) => data
| _ => EmptyString
end.

(** The bytes of the body that reach the file before the interrupt. *)
Definition copied (intr : Interrupt) (body : string) : string :=
match intr with
| DuringCopy n => Strings.take n body
| _ => body
end.

(** The part file holds its first four bytes; the server answers every
    request with the six that are missing. *)
Module AppendScenario.
Import Scenario.

Definition sixBytes : Http.Request -> result Http.Response :=
fun _ => Ok {| Http.StatusCode := 206; Http.RespHeader := []; Http.Body := "456789" |}.

Definition E : Env := env sixBytes.

Definition part : Part.t :=
{| Part.Index := 0; Part.URL := WorkerScenario.target; Part.Path := WorkerScenario.path;
   Part.RangeFrom := 4; Part.RangeTo := 10 |}.

Definition world : World :=
{| disk := <[WorkerScenario.path := FS.File "0123"]> (disk WorkerScenario.world1);
   sent := []; acts := [] |}.

End AppendScenario.

(** A task of three parts of ten bytes each (the last one runs to the
    total, 30). The file of part 0 is complete, the file of part 1 lacks
    its last byte, the file of part 2 holds four bytes. *)
Module RestartScenario.
Import Scenario.

Definition E : Env := env noServer.
Definition target : string := "http://example.com/file".

Definition pathOf (j : Z) : string :=
"/home/u/.hget/file/file.part" +:+ Strconv.FormatIntPad 6 j.

Definition plan : list Part.t :=
[ {| Part.Index := 0; Part.URL := target; Part.Path := pathOf 0;
     Part.RangeFrom := 0; Part.RangeTo := 9 |};
  {| Part.Index := 1; Part.URL := target; Part.Path := pathOf 1;
     Part.RangeFrom := 10; Part.RangeTo := 19 |};
  {| Part.Index := 2; Part.URL := target; Part.Path := pathOf 2;
     Part.RangeFrom := 20; Part.RangeTo := 30 |} ].

Definition manifest : State.t := {| State.URL := target; State.Parts := plan |}.

Definition files : FS.t :=
<[pathOf 2 := FS.File "abcd"]>
  (<[pathOf 1 := FS.File "123456789"]>
     (<[pathOf 0 := FS.File "0123456789"]>
        (<["/home/u/.hget" := FS.Dir]> (<["/home/u/.hget/file" := FS.Dir]> disk0)))).

Definition world : World :=
snd (Save E manifest {| disk := files; sent := []; acts := [] |}).

End RestartScenario.

(** The paths the [select] has taken from the file channel when the run
    is over. *)
Fixpoint delivered (events : list Event) : list string :=
match events with
| [] => []
| EvFile f :: rest => f :: delivered rest
| EvDone :: _ => []
| EvError _ :: _ => []
| _ :: rest => delivered rest
end.

(** An event that ends the loop of the coordinator. *)
Definition ends (ev : Event) : bool :=
match ev with
| EvDone | EvError _ => true
| _ => false
end.

(** The downloader that [Execute] works with. *)
Definition built (E : Env) (target : string) (state : option State.t) (conn : Z)
  (skiptls : bool) (proxyServer bwLimit : string) : M HTTPDownloader :=
match state with
| None => NewHTTPDownloader E target conn skiptls proxyServer bwLimit
| Some st => resumedDownloader E st
end.

(** The path [f] was sent by a worker that one of the events ran: the
    worker of a part of the downloader with that path. *)
Definition fromWorker (d : HTTPDownloader) (events : list Event) (f : string) : Prop :=
exists i intr part,
  In (EvPart i intr) events /\ Do d !! i = Some (Started part) /\ Part.Path part = f.

(** No worker of the downloader writes at [q]. *)
Definition offParts (E : Env) (d : HTTPDownloader) (q : string) : Prop :=
forall p, p ∈ parts d -> resolve E (Part.Path p) <> Ok q.

(** A disk with the saved tasks of two URLs under the data folder. *)
Module ClearScenario.
Import Scenario.

Definition E : Env := env noServer.

Definition disk1 : FS.t :=
<["/home/u/.hget/b/state.json" := FS.File "{}"]>
  (<["/home/u/.hget/b" := FS.Dir]>
     (<["/home/u/.hget/a/a.part000000" := FS.File "0123"]>
        (<["/home/u/.hget/a/state.json" := FS.File "{}"]>
           (<["/home/u/.hget/a" := FS.Dir]>
              (<["/home/u/.hget" := FS.Dir]> disk0))))).

Definition world : World := {| disk := disk1; sent := []; acts := [] |}.

End ClearScenario.

(** The name of the part file with index [j] of the task [file]. *)
Definition partName (file : string) (j : Z) : string :=
file +:+ ".part" +:+ Strconv.FormatIntPad 6 j.

(** A download of 100 bytes in two parts that is interrupted: the worker
    of the first part has written 20 bytes, the worker of the last part
    is caught before its response and has no file ([caught]), or has
    written 50 bytes ([written]). *)
Module StopScenario.
Import Scenario.

Definition E : Env := ResumeScenario.E.



End StopScenario.





(** ** Decimal numbers *)

Section NumberFacts.
Import Strconv.

Lemma digit_isDigit (d : Z) : 0 <= d < 10 -> isDigit (digit d) = true /\ digitVal (digit d) = d.
Proof.
  intros H.
  assert (d = 0 \/ d = 1 \/ d = 2 \/ d = 3 \/ d = 4 \/ d = 5 \/ d = 6 \/ d = 7 \/ d = 8 \/ d = 9)
    as Hd by lia.
  repeat (destruct Hd as [->|Hd]; [split; reflexivity|]). subst. split; reflexivity.
Qed.

(** Reading the digits written for [z] in front of [acc] is reading [acc]
    with [z] in hand. *)
Lemma parseDigits_digitsAux (fuel : nat) :
  forall (z : Z) (acc : string),
    0 <= z < 2 ^ Z.of_nat fuel ->
    parseDigits (digitsAux fuel z acc) 0 = parseDigits acc z.
Proof.
  induction fuel as [|fuel IH]; intros z acc Hz.
  - simpl in *. replace z with 0 by lia. reflexivity.
  - cbn [digitsAux].
    assert (Hmod : 0 <= z mod 10 < 10) by (apply Z.mod_pos_bound; lia).
    destruct (digit_isDigit _ Hmod) as [Hd Hv].
    destruct (Z.ltb_spec z 10).
    + cbn [parseDigits]. rewrite Hd, Hv. rewrite Z.mod_small by lia. f_equal.
    + rewrite IH.
      * cbn [parseDigits]. rewrite Hd, Hv. f_equal.
        pose proof (Z.div_mod z 10 ltac:(lia)). lia.
      * split; [apply Z.div_pos; lia|].
        apply Z.div_lt_upper_bound; [lia|].
        rewrite Nat2Z.inj_succ, Z.pow_succ_r in Hz by lia. lia.
Qed.

Lemma digits_fuel (z : Z) : 0 <= z -> 0 <= z < 2 ^ Z.of_nat (S (Z.to_nat (Z.log2 z))).
Proof.
  intros Hz. split; [exact Hz|].
  rewrite Nat2Z.inj_succ, Z2Nat.id by apply Z.log2_nonneg.
  destruct (Z.eq_dec z 0) as [->|Hne]; [reflexivity|].
  apply Z.log2_spec. lia.
Qed.

Lemma parseDigits_digits (z : Z) : 0 <= z -> parseDigits (digits z) 0 = Some z.
Proof.
  intros Hz. unfold digits. rewrite parseDigits_digitsAux by (apply digits_fuel; lia).
  reflexivity.
Qed.

(** The digits written for a number start with a digit. *)
Lemma digitsAux_head (fuel : nat) :
  forall (z : Z) (acc : string),
    0 <= z ->
    (fuel = O -> exists c t, acc = String c t /\ isDigit c = true) ->
    exists c t, digitsAux fuel z acc = String c t /\ isDigit c = true.
Proof.
  induction fuel as [|fuel IH]; intros z acc Hz Hacc.
  - simpl. auto.
  - cbn [digitsAux].
    assert (Hmod : 0 <= z mod 10 < 10) by (apply Z.mod_pos_bound; lia).
    destruct (digit_isDigit _ Hmod) as [Hd _].
    destruct (z <? 10); [eauto|].
    apply IH; [apply Z.div_pos; lia|]. eauto.
Qed.

Lemma digits_head (z : Z) : 0 <= z -> exists c t, digits z = String c t /\ isDigit c = true.
Proof. intros Hz. apply digitsAux_head; [exact Hz|discriminate]. Qed.

(** [ParseInt] reads back what [FormatInt] writes. *)
Lemma ParseInt_FormatInt (z : Z) : Int64.in_range z -> ParseInt (FormatInt z) = Some z.
Proof.
  unfold Int64.in_range. intros Hr. unfold FormatInt, ParseInt.
  destruct (Z.ltb_spec z 0).
  - destruct (digits_head (- z) ltac:(lia)) as (c & t & Hd & Hc).
    rewrite Hd, <- Hd. rewrite parseDigits_digits by lia. simpl.
    rewrite Z.opp_involutive.
    destruct (Z.leb_spec Int64.min_int z); [|lia].
    destruct (Z.leb_spec z Int64.max_int); [|lia]. reflexivity.
  - destruct (digits_head z ltac:(lia)) as (c & t & Hd & Hc).
    rewrite Hd.
    assert (Hsign : match c with
                    | "+"%char => false | "-"%char => false | _ => true end = true).
    { revert Hc. clear. destruct c as [[] [] [] [] [] [] [] []]; simpl; try reflexivity;
        intros; discriminate. }
    assert (Hbody : (let '(neg, body) :=
                       match String c t with
                       | String "+" t0 => (false, t0)
                       | String "-" t0 => (true, t0)
                       | _ => (false, String c t)
                       end in (neg, body)) = (false, String c t)).
    { revert Hsign. clear. destruct c as [[] [] [] [] [] [] [] []]; simpl; try reflexivity;
        intros; discriminate. }
    revert Hbody.
    destruct (match String c t with
              | String "+" t0 => (false, t0)
              | String "-" t0 => (true, t0)
              | _ => (false, String c t)
              end) as [neg body].
    intros Hb; inversion Hb; subst neg body.
    rewrite <- Hd. rewrite parseDigits_digits by lia. simpl.
    destruct (Z.leb_spec Int64.min_int z); [|lia].
    destruct (Z.leb_spec z Int64.max_int); [|lia]. reflexivity.
Qed.

End NumberFacts.

(** * Properties *)

(** ** The library models on the examples of the Go documentation and of the tests *)

Module FilepathTests.
Import Strings Filepath.

Example clean_examples :
  map Clean ["a/c"; "a//c"; "a/c/."; "a/c/b/.."; "/../a/c"; "/../a/b/../././/c";
             ""; "/"; "../.."; "a/../.."; "/a..b"; "abc/def/../../.."]
  = ["a/c"; "a/c"; "a/c"; "a/c"; "/a/c"; "/a/c";
     "."; "/"; "../.."; ".."; "/a..b"; ".."].
Proof. reflexivity. Qed.

Example base_examples :
  map Base [""; "/"; "///"; "a/b"; "a/b/"; "file.zip"; "/x/.."; "."]
  = ["."; "/"; "/"; "b"; "b"; "file.zip"; ".."; "."].
Proof. reflexivity. Qed.

Example join_examples :
  map JoinPath [["/home/u"; ".hget/"; "file"]; ["/home/u"; ".hget/"; "."];
                [""; "a"]; ["a"; ""]; ["/home/u"; ".hget/"; ".."]]
  = ["/home/u/.hget/file"; "/home/u/.hget"; "a"; "a"; "/home/u"].
Proof. reflexivity. Qed.

Example rel_examples :
  map (fun '(b, t) => Rel b t)
      [("/a", "/a/b/c"); ("/a", "/b/c"); ("/a/b/c", "/a/b"); ("/a", "/a");
       ("/", "/a"); (".", "a/b"); ("/a", "b"); ("../a", "b"); ("a/b", "a/c/d")]
  = [Some "b/c"; Some "../b/c"; Some ".."; Some "."; Some "a"; Some "a/b";
     None; None; Some "../c/d"].
Proof. reflexivity. Qed.

Example trimright_examples :
  map (fun s => TrimRight s "/\") ["/path/"; "/a\/\"; "//"; "a/b"]
  = ["/path"; "/a"; ""; "a/b"].
Proof. reflexivity. Qed.

End FilepathTests.

Module StrconvTests.
Import Strconv.

Example format_examples :
  map FormatInt [0; 7; 10; 99; 100; 262144; -5; 9223372036854775807]
  = ["0"; "7"; "10"; "99"; "100"; "262144"; "-5"; "9223372036854775807"].
Proof. reflexivity. Qed.

Example pad_examples :
  map (FormatIntPad 6) [0; 3; 12; 999999; 1234567]
  = ["000000"; "000003"; "000012"; "999999"; "1234567"].
Proof. reflexivity. Qed.

Example parse_examples :
  map ParseInt ["0"; "1024"; "+7"; "-7"; ""; "-"; "12a"; " 1"; "9223372036854775808";
                "-9223372036854775808"; "0012"]
  = [Some 0; Some 1024; Some 7; Some (-7); None; None; None; None; None;
     Some (-9223372036854775808); Some 12].
Proof. reflexivity. Qed.

End StrconvTests.

Module UrlTests.
Import Url.

Example parse_paths :
  map (fun u => Path <$> Parse u)
      ["http://example.com/path/to/file.zip"; "https://download.com/file.tar.gz?token=123";
       "http://domain.com/path/"; "https://test.org/path/to/file.txt#fragment";
       "http://foo.bar/.."; "http://foo.bar/../../../foobar"; "http://foo.bar";
       "http://foo.bar/"; ".."; "nonexistent-task"; "http://h/a%2fb"; "http://h/a%zz";
       "://no-scheme"; "http://h/a..b"; "mailto:x"]
  = [Some "/path/to/file.zip"; Some "/file.tar.gz"; Some "/path/"; Some "/path/to/file.txt";
     Some "/.."; Some "/../../../foobar"; Some ""; Some "/"; Some ".."; Some "nonexistent-task";
     Some "/a/b"; None; None; Some "/a..b"; Some ""].
Proof. reflexivity. Qed.

Example parse_hosts :
  map (fun u => Host <$> Parse u)
      ["http://example.com/x"; "http://user:pw@example.com:8080/x"; "http://[::1]:8080/p";
       "http://[fe80::1%25en0]/"; "http://a b/"; "http://ex%41mple.com/";
       "http://example.com:80a/"; "http://us er@h/"; "http://h_1.example~/";
       "http://[::1/"; "http://%e4%bd%a0/"; "//h/p"; "///p"; "http:///p"]
  = [Some "example.com"; Some "example.com:8080"; Some "[::1]:8080";
     Some "[fe80::1%en0]"; None; None; None; None; Some "h_1.example~"; None;
     Some (String (ascii_of_nat 228) (String (ascii_of_nat 189) (String (ascii_of_nat 160) "")));
     Some "h"; Some ""; Some ""].
Proof. vm_compute. reflexivity. Qed.

Example hostnames :
  map (fun u => Hostname <$> Parse u)
      ["http://user:pw@example.com:8080/x"; "http://[::1]:8080/p"; "http://[fe80::1%25en0]/"]
  = [Some "example.com"; Some "::1"; Some "fe80::1%en0"].
Proof. vm_compute. reflexivity. Qed.

End UrlTests.

(** [os.Stat] and [os.MkdirAll] with the working directory /work, which
    holds the file [f] of three bytes and the directory [d]. *)
Module OsTests.
Import Scenario.

Definition E : Env := env noServer.

Definition fs : FS.t := <["/work/f" := FS.File "abc"]> (<["/work/d" := FS.Dir]> disk0).

Example stat_examples :
  map (fun p => os_Stat E p fs)
      [""; "f"; "f/"; "d/"; "d/../f"; "missing/../f"; "/work/./f"; "."; ".."; "/";
       "f/.."; "/work//d"; "/home/u/../../work/f"; "g"; "../work/d/."]
  = [Err (ErrNotExist ""); Ok 3; Err (ErrNotDir "/work/f"); Ok 4096; Ok 3;
     Err (ErrNotExist "/work/missing"); Ok 3; Ok 4096; Ok 4096; Ok 4096;
     Err (ErrNotDir "/work/f"); Ok 4096; Ok 3; Err (ErrNotExist "/work/g"); Ok 4096].
Proof. vm_compute. reflexivity. Qed.

(** What [os.MkdirAll] adds to the disk. *)
Definition made (p : string) : result (list string) :=
match FS.MkdirAll (os_Getwd E) p fs with
| Ok fs' => Ok (merge_sort String.le (map fst (map_to_list (filter (fun kv => fs !! fst kv = None) fs'))))
| Err e => Err e
end.

Example mkdirall_examples :
  map made [""; "a/../b"; "f/x"; "f"; "d"; "x/y/"; "/home/u/.hget/t"; "."; "../q/./r"]
  = [Err (ErrNotExist ""); Ok ["/work/a"; "/work/b"]; Err (ErrNotDir "/work/f");
     Err (ErrNotDir "/work/f"); Ok []; Ok ["/work/x"; "/work/x/y"];
     Ok ["/home/u/.hget"; "/home/u/.hget/t"]; Ok []; Ok ["/q"; "/q/r"]].
Proof. vm_compute. reflexivity. Qed.

Example readdir_examples :
  map (fun p => FS.ReadDir p (<["/work/d/in" := FS.File ""]> fs)) ["/work"; "/work/d"; "/work/f"; "/"]
  = [Ok [("d", true); ("f", false)]; Ok [("in", false)]; Err (ErrNotDir "/work/f");
     Ok [("home", true); ("work", true)]].
Proof. vm_compute. reflexivity. Qed.

(** [Resume] leaves a part alone when [os.Stat] of its path fails. *)
Example adjusted_examples :
  map (fun p => Part.RangeFrom
                  (adjusted E fs {| Part.Index := 0; Part.URL := ""; Part.Path := p;
                                    Part.RangeFrom := 1; Part.RangeTo := 10 |}))
      [""; "f/"; "missing/../f"; "f"; "/work/f"]
  = [1; 1; 1; 4; 4].
Proof. vm_compute. reflexivity. Qed.

End OsTests.

Module JsonTests.
Import Json.

Definition st1 : State.t :=
  {| State.URL := "http://example.com/test.zip";
     State.Parts :=
       [ {| Part.Index := 0; Part.URL := "http://example.com/test.zip";
            Part.Path := "/home/u/.hget/test.zip/test.zip.part000000";
            Part.RangeFrom := 0; Part.RangeTo := 100 |};
         {| Part.Index := 1; Part.URL := "http://example.com/a<b>&c";
            Part.Path := "temp_part1";
            Part.RangeFrom := 101; Part.RangeTo := 200 |} ] |}.

Example unmarshal_marshal : Unmarshal (Marshal st1) = (st1, None).
Proof. vm_compute. reflexivity. Qed.

End JsonTests.

(** ** The request of a part worker *)

Section RequestFacts.
Context (E : Env).

Lemma NewRequest_header method target req :
  NewRequest E method target = Ok req -> Http.ReqHeader req = [].
Proof.
  unfold NewRequest. destruct (url_Parse E target); intros H; inversion H. reflexivity.
Qed.

(** C5. A request built for a part carries exactly one Range header with
    the closed form [bytes=from-to] when the parallelism exceeds 1 and the
    part's [RangeTo] differs from the total length, exactly one with the
    open form [bytes=from-] when the parallelism exceeds 1 and [RangeTo] is
    the total length, and no Range header at all when the parallelism is 1. *)
Theorem buildRequestForPart_range (d : HTTPDownloader) (part : Part.t) (req : Http.Request) :
  buildRequestForPart E d part = Ok req ->
  (1 < par d -> Part.RangeTo part <> len d ->
     values (Http.ReqHeader req) "Range" = [closedRange part]
     /\ Http.Get (Http.ReqHeader req) "Range" = closedRange part)
  /\ (1 < par d -> Part.RangeTo part = len d ->
     values (Http.ReqHeader req) "Range" = [openRange part]
     /\ Http.Get (Http.ReqHeader req) "Range" = openRange part)
  /\ (par d = 1 ->
     values (Http.ReqHeader req) "Range" = []
     /\ Http.Get (Http.ReqHeader req) "Range" = EmptyString).
Proof.
  unfold buildRequestForPart.
  destruct (NewRequest E "GET" (url d)) as [r|e] eqn:Hreq; [|discriminate].
  apply NewRequest_header in Hreq.
  destruct r as [m t h]; simpl in Hreq; subst h.
  intros Hok. split; [|split].
  - intros Hpar Hto. apply Z.ltb_lt in Hpar. rewrite Hpar in Hok.
    apply Z.eqb_neq in Hto. rewrite Hto in Hok. inversion Hok. split; reflexivity.
  - intros Hpar Hto. apply Z.ltb_lt in Hpar. rewrite Hpar in Hok.
    apply Z.eqb_eq in Hto. rewrite Hto in Hok. inversion Hok. split; reflexivity.
  - intros Hpar. rewrite Hpar in Hok. inversion Hok. split; reflexivity.
Qed.

End RequestFacts.



(** The three requests of the test [TestBuildRequestForPart]. *)
Lemma buildRequestForPart_range_witness :
  Http.Get (Http.ReqHeader (RequestScenario.request [("Range", "bytes=50-99")])) "Range"
    = "bytes=50-99"
  /\ Http.Get (Http.ReqHeader (RequestScenario.request [("Range", "bytes=100-")])) "Range"
    = "bytes=100-"
  /\ Http.Get (Http.ReqHeader (RequestScenario.request [])) "Range" = EmptyString.
Proof.
  pose (E := Scenario.env Scenario.noServer).
  split; [|split].
  - apply (buildRequestForPart_range E (RequestScenario.downloader 3 200)
             (RequestScenario.part 1 50 99)
             (RequestScenario.request [("Range", "bytes=50-99")])).
    + reflexivity.
    + simpl; lia.
    + simpl; lia.
  - apply (buildRequestForPart_range E (RequestScenario.downloader 3 200)
             (RequestScenario.part 2 100 200)
             (RequestScenario.request [("Range", "bytes=100-")])).
    + reflexivity.
    + simpl; lia.
    + reflexivity.
  - apply (buildRequestForPart_range E (RequestScenario.downloader 1 100)
             (RequestScenario.part 0 0 100)
             (RequestScenario.request [])).
    + reflexivity.
    + reflexivity.
Defined.

(** ** The part worker *)

Section WorkerFacts.
Context (E : Env).

(** Whatever the worker reports on the state channel starts where the part
    started: the counter [current] that is added to [RangeFrom] is never
    advanced. *)
Lemma downloadPart_reports_start (d : HTTPDownloader) (part : Part.t) (intr : Interrupt)
  (w w' : World) (msgs : list Msg) (p : Part.t) :
  downloadPart E d part intr w = (Done msgs, w') ->
  In (ToState p) msgs ->
  Part.RangeFrom p = Part.RangeFrom part
  \/ Part.RangeFrom p = Int64.add (Part.RangeFrom part) 0.
Proof.
  unfold downloadPart.
  destruct (buildRequestForPart E d part) as [req|e].
  2:{ intros H; inversion H; subst. intros [Hin|[]]. discriminate. }
  unfold mbind, M_bind, bind, client_Do, mret, M_ret, ret.
  set (resp := match intr with BeforeResponse => Err ErrCanceled | _ => server E req end).
  destruct resp as [r|e].
  - destruct (os_update E (Part.Path part) _ _) as [[[err| ]|?|?] w1] eqn:Hup;
      intros H; inversion H; subst; clear H.
    + intros [Hin|[]]. discriminate.
    + intros [Hin|[Hin|[]]]; [|discriminate]. inversion Hin. right. reflexivity.
  - destruct e, intr; intros H; inversion H; subst; clear H;
      (intros [Hin|[]]; first [discriminate | inversion Hin; left; reflexivity]).
Qed.

End WorkerFacts.

(** C2. A worker whose transfer completes normally after writing ten bytes
    to its part file reports the part with [RangeFrom] still 0, not 10; the
    file path is sent on the file channel after it. *)
Theorem downloadPart_offset_not_advanced :
  exists w',
    downloadPart WorkerScenario.E WorkerScenario.downloader WorkerScenario.part
                 NoInterrupt WorkerScenario.world1
    = (Done [ToState WorkerScenario.part; ToFile WorkerScenario.path], w')
    /\ disk w' !! WorkerScenario.path = Some (FS.File "0123456789")
    /\ Part.RangeFrom WorkerScenario.part = 0
    /\ Part.RangeFrom WorkerScenario.part <> 0 + Z.of_nat (String.length "0123456789").
Proof.
  eexists. split; [vm_compute; reflexivity|].
  split; [vm_compute; reflexivity|].
  split; [reflexivity|]. vm_compute. discriminate.
Qed.

(** ** The resume loader *)

Section ResumeFacts.
Context (E : Env).

Lemma resumeLoop_spec (fs : FS.t) (n i : nat) (parts : list Part.t) :
  (i + n)%nat = length parts ->
  resumeLoop E fs n i parts = take i parts ++ (adjusted E fs <$> drop i parts).
Proof.
  revert i parts. induction n as [|n IH]; intros i parts Hlen; simpl.
  - rewrite drop_ge by lia. rewrite take_ge by lia. by rewrite app_nil_r.
  - destruct (parts !! i) as [part|] eqn:Hi.
    2:{ apply lookup_ge_None in Hi. lia. }
    rewrite (drop_S _ _ _ Hi). rewrite fmap_cons.
    destruct (os_Stat E (Part.Path part) fs) as [s|e] eqn:Hstat.
    + assert (Hadj : adjusted E fs part
                     = setRangeFrom
                         (Int64.min (Int64.add (Part.RangeFrom part) s) (Part.RangeTo part))
                         part)
        by (unfold adjusted; by rewrite Hstat).
      rewrite Hadj.
      rewrite IH by (rewrite length_alter; lia).
      rewrite take_alter_lt by lia.
      rewrite (take_S_r _ _ _ Hi).
      rewrite alter_app_r_alt by (rewrite length_take; lia).
      rewrite length_take.
      replace (i - i `min` length parts)%nat with 0%nat by lia.
      rewrite drop_alter_lt by lia. simpl.
      by rewrite <- app_assoc.
    + assert (Hadj : adjusted E fs part = part)
        by (unfold adjusted; by rewrite Hstat).
      rewrite Hadj.
      rewrite IH by lia.
      rewrite (take_S_r _ _ _ Hi). by rewrite <- app_assoc.
Qed.

Lemma Read_world (task : string) (w w' : World) o :
  Read E task w = (o, w') -> w' = w.
Proof.
  unfold Read, mbind, M_bind, bind, lift, getDisk, mret, M_ret, ret.
  destruct (fatal (user_HomeDir E) ErrUser); [|intros H; by inversion H..].
  destruct (TaskFromURL E task); [|intros H; by inversion H..].
  destruct (resolve E _); [|intros H; by inversion H].
  destruct (FS.ReadFile _ _); [|intros H; by inversion H].
  destruct (Json.Unmarshal _). intros H; by inversion H.
Qed.

(** [Resume] returns the manifest that [Read] loaded with every part
    adjusted, and leaves the world as it was. *)
Lemma Resume_spec (task : string) (w w' : World) (st : State.t) :
  Read E task w = (Done (Some st, None), w') ->
  Resume E task w
  = (Done (Some {| State.URL := State.URL st;
                   State.Parts := adjusted E (disk w) <$> State.Parts st |}, None), w).
Proof.
  intros HR. pose proof (Read_world _ _ _ _ HR) as ->.
  unfold Resume, mbind, M_bind, bind. rewrite HR.
  unfold getDisk, mret, M_ret, ret.
  rewrite resumeLoop_spec by lia. reflexivity.
Qed.

(** C1, amended. For every manifest that [Read] loads, [Resume] returns it
    with each part whose file is there (of size [s]) moved to
    [min(RangeFrom + s, RangeTo)], the sum taken in 64 bits; this holds
    for the last part as for the others, its [RangeTo] being the total
    length. A part whose file is absent keeps its [RangeFrom]. *)
Theorem Resume_range_from (task : string) (w w' : World) (st : State.t) :
  Read E task w = (Done (Some st, None), w') ->
  exists st',
    Resume E task w = (Done (Some st', None), w)
    /\ length (State.Parts st') = length (State.Parts st)
    /\ forall (i : nat) (p : Part.t),
         State.Parts st !! i = Some p ->
         exists p',
           State.Parts st' !! i = Some p'
           /\ (forall s,
                 os_Stat E (Part.Path p) (disk w) = Ok s ->
                 Part.RangeFrom p'
                 = Int64.min (Int64.add (Part.RangeFrom p) s) (Part.RangeTo p)
                 /\ (Int64.in_range (Part.RangeFrom p + s) ->
                     Part.RangeFrom p' = Z.min (Part.RangeFrom p + s) (Part.RangeTo p)))
           /\ (forall e,
                 os_Stat E (Part.Path p) (disk w) = Err e ->
                 Part.RangeFrom p' = Part.RangeFrom p).
Proof.
  intros HR. eexists. split; [apply (Resume_spec _ _ _ _ HR)|]. simpl.
  split; [apply length_fmap|].
  intros i p Hi. exists (adjusted E (disk w) p).
  split; [by rewrite list_lookup_fmap, Hi|].
  unfold adjusted. split.
  - intros s Hs. rewrite Hs. simpl. split; [reflexivity|].
    intros Hr. unfold Int64.add, Int64.wrap, Int64.min.
    unfold Int64.in_range, Int64.min_int, Int64.max_int in Hr.
    replace ((Part.RangeFrom p + s + 2 ^ 63) `mod` 2 ^ 64 - 2 ^ 63)
      with (Part.RangeFrom p + s)
      by (rewrite Z.mod_small; lia).
    destruct (Z.ltb_spec (Part.RangeFrom p + s) (Part.RangeTo p)); lia.
  - intros e He. rewrite He. reflexivity.
Qed.

(** C10. [Resume] changes nothing but [RangeFrom]: the URL of the state,
    the number and order of the parts and the [Index], [URL], [Path] and
    [RangeTo] of each part are those that [Read] loaded, and the world is
    left as it was. *)
Theorem Resume_frame (task : string) (w w' : World) (st : State.t) :
  Read E task w = (Done (Some st, None), w') ->
  exists st',
    Resume E task w = (Done (Some st', None), w)
    /\ State.URL st' = State.URL st
    /\ length (State.Parts st') = length (State.Parts st)
    /\ map Part.Index (State.Parts st') = map Part.Index (State.Parts st)
    /\ map Part.URL (State.Parts st') = map Part.URL (State.Parts st)
    /\ map Part.Path (State.Parts st') = map Part.Path (State.Parts st)
    /\ map Part.RangeTo (State.Parts st') = map Part.RangeTo (State.Parts st).
Proof.
  intros HR. eexists. split; [apply (Resume_spec _ _ _ _ HR)|]. simpl.
  split; [reflexivity|]. split; [apply length_fmap|].
  assert (Hadj : forall p,
            Part.Index (adjusted E (disk w) p) = Part.Index p
            /\ Part.URL (adjusted E (disk w) p) = Part.URL p
            /\ Part.Path (adjusted E (disk w) p) = Part.Path p
            /\ Part.RangeTo (adjusted E (disk w) p) = Part.RangeTo p).
  { intros p. unfold adjusted. destruct (os_Stat E _ _); simpl; auto. }
  repeat split; rewrite map_map; apply map_ext; intros p; apply Hadj.
Qed.

End ResumeFacts.

(** The manifest of the scenario is loaded as it was planned. *)
Lemma ResumeScenario_Read :
  Read ResumeScenario.E ResumeScenario.target ResumeScenario.world
  = (Done (Some ResumeScenario.manifest, None), ResumeScenario.world).
Proof. vm_compute. reflexivity. Qed.

(** C1 as stated fails on the last part: with a total of 100 bytes and the
    last part (offsets 50 up) complete on disk with its 50 bytes, [Resume]
    moves its start to 100, its [RangeTo], where the claim gives
    [min(50 + 50, 100 - 1) = 99]. *)
Lemma Resume_last_part_counterexample :
  Read ResumeScenario.E ResumeScenario.target ResumeScenario.world
  = (Done (Some ResumeScenario.manifest, None), ResumeScenario.world)
  /\ map Part.RangeFrom (State.Parts ResumeScenario.manifest) = [0; 50]
  /\ map Part.RangeTo (State.Parts ResumeScenario.manifest) = [49; ResumeScenario.total]
  /\ map (fun p => os_Stat ResumeScenario.E (Part.Path p) (disk ResumeScenario.world))
         (State.Parts ResumeScenario.manifest) = [Ok 20; Ok 50]
  /\ Resume ResumeScenario.E ResumeScenario.target ResumeScenario.world
     = (Done (Some ResumeScenario.resumed, None), ResumeScenario.world)
  /\ map Part.RangeFrom (State.Parts ResumeScenario.resumed) = [20; 100]
  /\ 100 <> Z.min (50 + 50) (ResumeScenario.total - 1).
Proof.
  split; [apply ResumeScenario_Read|].
  repeat split; try (vm_compute; reflexivity).
  vm_compute. discriminate.
Qed.

Lemma Resume_range_from_witness :
  exists st',
    Resume ResumeScenario.E ResumeScenario.target ResumeScenario.world
    = (Done (Some st', None), ResumeScenario.world)
    /\ length (State.Parts st') = 2%nat.
Proof.
  destruct (Resume_range_from ResumeScenario.E ResumeScenario.target
              ResumeScenario.world ResumeScenario.world ResumeScenario.manifest
              ResumeScenario_Read) as (st' & HR & Hlen & _).
  exists st'. split; [exact HR|]. rewrite Hlen. reflexivity.
Defined.

Lemma Resume_frame_witness :
  exists st',
    Resume ResumeScenario.E ResumeScenario.target ResumeScenario.world
    = (Done (Some st', None), ResumeScenario.world)
    /\ map Part.RangeTo (State.Parts st') = [49; 100].
Proof.
  destruct (Resume_frame ResumeScenario.E ResumeScenario.target
              ResumeScenario.world ResumeScenario.world ResumeScenario.manifest
              ResumeScenario_Read) as (st' & HR & _ & _ & _ & _ & _ & Hto).
  exists st'. split; [exact HR|]. rewrite Hto. reflexivity.
Defined.

(** ** The range planner *)

Lemma wrap_small (z : Z) : Int64.in_range z -> Int64.wrap z = z.
Proof.
  unfold Int64.in_range, Int64.min_int, Int64.max_int, Int64.wrap. intros H.
  rewrite Z.mod_small; lia.
Qed.

(** *** Directories that are made stay, and are found *)

Lemma isDirAt_keeps (fs fs' : FS.t) (p : string) :
  (forall k n, fs !! k = Some n -> fs' !! k = Some n) ->
  FS.isDirAt fs p = true -> FS.isDirAt fs' p = true.
Proof.
  intros Hk. unfold FS.isDirAt. destruct (String.eqb p "/"); [reflexivity|]. simpl.
  destruct (fs !! p) as [[d|]|] eqn:Hp; try discriminate.
  by rewrite (Hk _ _ Hp).
Qed.

(** [mkdirs] removes and changes nothing, and what it adds are
    directories. *)
Lemma mkdirs_keeps (elems : list string) :
  forall fs cur fs',
    FS.mkdirs fs cur elems = Ok fs' ->
    (forall k n, fs !! k = Some n -> fs' !! k = Some n)
    /\ (forall k n, fs' !! k = Some n -> fs !! k = Some n \/ n = FS.Dir).
Proof.
  induction elems as [|e elems IH]; intros fs cur fs'; cbn [FS.mkdirs].
  - destruct (FS.isDirAt fs cur); [|discriminate]. intros [= <-]. auto.
  - destruct (String.eqb e "" || String.eqb e ".").
    { destruct (FS.isDirAt fs cur); [apply IH|discriminate]. }
    destruct (String.eqb e "..").
    { destruct (FS.isDirAt fs cur); [apply IH|discriminate]. }
    destruct (fs !! FS.child cur e) as [[d|]|] eqn:Hc; [discriminate|apply IH|].
    intros H. destruct (IH _ _ _ H) as [Hk Hn]. split.
    + intros k n Hkn. apply Hk. rewrite lookup_insert_ne; [exact Hkn|congruence].
    + intros k n Hkn. destruct (Hn k n Hkn) as [Hin|Hd]; [|by right].
      destruct (decide (FS.child cur e = k)) as [<-|Hne].
      * rewrite lookup_insert_eq in Hin. right. congruence.
      * rewrite lookup_insert_ne in Hin by exact Hne. by left.
Qed.

(** Where [mkdirs] has passed, [walk] passes, and it ends at a
    directory. *)
Lemma mkdirs_walk (elems : list string) :
  forall fs cur fs',
    FS.mkdirs fs cur elems = Ok fs' ->
    exists q, FS.walk fs' cur elems = Ok q /\ FS.isDirAt fs' q = true.
Proof.
  induction elems as [|e elems IH]; intros fs cur fs'; cbn [FS.mkdirs FS.walk].
  - destruct (FS.isDirAt fs cur) eqn:Hd; [|discriminate]. intros [= <-]. eauto.
  - destruct (String.eqb e "" || String.eqb e ".").
    { destruct (FS.isDirAt fs cur) eqn:Hd; [|discriminate]. intros H.
      destruct (mkdirs_keeps _ _ _ _ H) as [Hk _].
      rewrite (isDirAt_keeps _ _ _ Hk Hd). by apply (IH fs). }
    destruct (String.eqb e "..").
    { destruct (FS.isDirAt fs cur) eqn:Hd; [|discriminate]. intros H.
      destruct (mkdirs_keeps _ _ _ _ H) as [Hk _].
      rewrite (isDirAt_keeps _ _ _ Hk Hd). by apply (IH fs). }
    destruct (fs !! FS.child cur e) as [[d|]|]; [discriminate|apply IH..].
Qed.

Section PlanFacts.
Context (E : Env).

(** After [os.MkdirAll] has returned without an error, [os.Stat] finds
    the path. *)
Lemma MkdirAll_Stat (p : string) (fs fs' : FS.t) :
  FS.MkdirAll (os_Getwd E) p fs = Ok fs' -> exists sz, os_Stat E p fs' = Ok sz.
Proof.
  unfold FS.MkdirAll, os_Stat, FS.lookupPath.
  destruct (String.eqb p ""); [discriminate|].
  assert (Hend : forall cur,
            FS.mkdirs fs cur (Strings.SplitSlash p) = Ok fs' ->
            exists sz,
              match FS.walk fs' cur (Strings.SplitSlash p) with
              | Ok q =>
                  match fs' !! q with
                  | Some (FS.File d) => Ok (Z.of_nat (String.length d))
                  | Some FS.Dir => Ok (dirSize E)
                  | None => if String.eqb q "/" then Ok (dirSize E) else Err (ErrNotExist q)
                  end
              | Err e => Err e
              end = Ok sz).
  { intros cur H. destruct (mkdirs_walk _ _ _ _ H) as (q & -> & Hq).
    unfold FS.isDirAt in Hq. destruct (fs' !! q) as [[d|]|]; [eauto..|].
    rewrite orb_false_r in Hq. rewrite Hq. eauto. }
  destruct (Strings.HasPrefix p "/"); [apply Hend|].
  destruct (os_Getwd E) as [d|]; [apply Hend|discriminate].
Qed.

(** Once [MkdirIfNotExist] has succeeded, the folder is there: a second
    call finds it and leaves the world alone. *)
Lemma MkdirIfNotExist_again (folder : string) (w w1 : World) :
  MkdirIfNotExist E folder w = (Done None, w1) ->
  MkdirIfNotExist E folder w1 = (Done None, w1).
Proof.
  unfold MkdirIfNotExist, mbind, M_bind, bind, getDisk.
  destruct (os_Stat E folder (disk w)) as [sz|e] eqn:Hstat.
  - intros H; inversion H; subst. by rewrite Hstat.
  - unfold os_MkdirAll.
    destruct (FS.MkdirAll (os_Getwd E) folder (disk w)) as [fs|e'] eqn:Hmk; [|discriminate].
    intros H; inversion H; subst. cbn [disk withDisk].
    destruct (MkdirAll_Stat _ _ _ Hmk) as [sz ->]. reflexivity.
Qed.

Lemma FolderOf_TaskFromURL (target folder : string) :
  FolderOf E target = Done folder -> exists file, TaskFromURL E target = Done file.
Proof.
  unfold FolderOf, mbind, outcome_bind, obind.
  destruct (fatal (user_HomeDir E) ErrUser); [|discriminate..].
  destruct (fatal (url_Parse E target) _); [|discriminate..].
  destruct (Strings.Contains _ _); [discriminate|].
  destruct (TaskFromURL E target); [eauto|discriminate..].
Qed.

Lemma partLoop_spec (par len : Z) (target folder file : string) (w1 : World) :
  1 <= par <= Int64.max_int -> 0 <= len <= Int64.max_int ->
  FolderOf E target = Done folder ->
  TaskFromURL E target = Done file ->
  MkdirIfNotExist E folder w1 = (Done None, w1) ->
  forall (n : nat) (j : Z) (ret : list Part.t),
    0 <= j -> j + Z.of_nat n = par -> Z.of_nat (length ret) = par ->
    partLoop E n j par len target ret w1
    = (Done (take (Z.to_nat j) ret
             ++ (plannedPart par len target folder file <$> seqZ j (Z.of_nat n))
             ++ drop (Z.to_nat j + n) ret), w1).
Proof.
  intros Hpar Hlen HF HT HM n. unfold Int64.max_int in *.
  induction n as [|n IH]; intros j ret Hj Hjn Hret.
  - simpl. rewrite Nat.add_0_r, take_drop. reflexivity.
  - cbn [partLoop]. unfold mbind, M_bind, bind, lift. rewrite HT, HF, HM.
    assert (Hq : 0 <= len / par <= len).
    { split; [apply Z.div_pos; lia|]. apply Z.div_le_upper_bound; nia. }
    assert (Hqj : forall k, 0 <= k <= par -> 0 <= len / par * k <= len).
    { intros k Hk. split; [nia|].
      pose proof (Z.mul_div_le len par ltac:(lia)). nia. }
    assert (Hdiv : Int64.div len par = len / par).
    { unfold Int64.div. rewrite Z.quot_div_nonneg by lia.
      apply wrap_small. unfold Int64.in_range, Int64.min_int, Int64.max_int. lia. }
    assert (Hadd : Int64.add j 1 = j + 1).
    { apply wrap_small. unfold Int64.in_range, Int64.min_int, Int64.max_int. lia. }
    assert (Hsub : Int64.sub par 1 = par - 1).
    { apply wrap_small. unfold Int64.in_range, Int64.min_int, Int64.max_int. lia. }
    assert (Hfrom : Int64.mul (len / par) j = len / par * j).
    { apply wrap_small. unfold Int64.in_range, Int64.min_int, Int64.max_int.
      pose proof (Hqj j ltac:(lia)). lia. }
    assert (Hto : Int64.sub (Int64.mul (len / par) (j + 1)) 1 = len / par * (j + 1) - 1).
    { unfold Int64.sub, Int64.mul.
      pose proof (Hqj (j + 1) ltac:(lia)).
      rewrite (wrap_small (len / par * (j + 1)))
        by (unfold Int64.in_range, Int64.min_int, Int64.max_int; lia).
      apply wrap_small. unfold Int64.in_range, Int64.min_int, Int64.max_int. lia. }
    rewrite Hdiv, Hadd, Hsub, Hfrom, Hto.
    rewrite IH by (rewrite ?length_insert; lia).
    f_equal. f_equal.
    replace (Z.of_nat (S n)) with (Z.succ (Z.of_nat n)) by lia.
    rewrite (seqZ_cons j) by lia. rewrite Z.pred_succ, fmap_cons.
    assert (Hlt : (Z.to_nat j < length ret)%nat) by lia.
    destruct (lookup_lt_is_Some_2 ret (Z.to_nat j) Hlt) as [x Hx].
    replace (Z.to_nat (j + 1)) with (S (Z.to_nat j)) by lia.
    rewrite (take_S_r _ _ (plannedPart par len target folder file j)).
    2:{ apply list_lookup_insert_eq. lia. }
    rewrite take_insert_ge by lia.
    rewrite drop_insert_lt by lia.
    rewrite <- app_assoc. simpl.
    replace (Z.succ j) with (j + 1) by lia.
    replace (S (Z.to_nat j + n)) with (Z.to_nat j + S n)%nat by lia.
    reflexivity.
Qed.

(** What [partCalculate] returns when the task folder can be made. *)
Lemma partCalculate_spec (par len : Z) (target folder : string) (w w1 : World) :
  1 <= par <= Int64.max_int -> 0 <= len <= Int64.max_int ->
  FolderOf E target = Done folder ->
  MkdirIfNotExist E folder w = (Done None, w1) ->
  exists file,
    TaskFromURL E target = Done file
    /\ partCalculate E par len target w
       = (Done (plannedPart par len target folder file <$> seqZ 0 par), w1).
Proof.
  intros Hpar Hlen HF HM.
  destruct (FolderOf_TaskFromURL _ _ HF) as [file HT]. exists file. split; [exact HT|].
  unfold partCalculate. destruct (Z.ltb_spec par 0) as [|_]; [lia|].
  destruct (Z.to_nat par) as [|n] eqn:Hn; [lia|].
  pose proof (MkdirIfNotExist_again _ _ _ HM) as HM1.
  assert (Hstep : forall ret,
            partLoop E (S n) 0 par len target ret w
            = partLoop E n 1 par len target
                (<[0%nat := plannedPart par len target folder file 0]> ret) w1).
  { intros ret. cbn [partLoop]. unfold mbind, M_bind, bind, lift. rewrite HT, HF, HM.
    unfold Int64.max_int in *.
    assert (Hdiv : Int64.div len par = len / par).
    { unfold Int64.div. rewrite Z.quot_div_nonneg by lia.
      apply wrap_small. unfold Int64.in_range, Int64.min_int, Int64.max_int.
      split; [pose proof (Z.div_pos len par); lia|].
      assert (len / par <= len) by (apply Z.div_le_upper_bound; nia). lia. }
    rewrite Hdiv.
    assert (Hq : 0 <= len / par <= len).
    { split; [apply Z.div_pos; lia|]. apply Z.div_le_upper_bound; nia. }
    assert (H1 : Int64.add 0 1 = 1) by reflexivity.
    assert (Hsub : Int64.sub par 1 = par - 1).
    { apply wrap_small. unfold Int64.in_range, Int64.min_int, Int64.max_int. lia. }
    assert (Hfrom : Int64.mul (len / par) 0 = len / par * 0).
    { rewrite Z.mul_0_r. unfold Int64.mul. rewrite Z.mul_0_r. reflexivity. }
    assert (Hto : Int64.sub (Int64.mul (len / par) 1) 1 = len / par * (0 + 1) - 1).
    { unfold Int64.sub, Int64.mul. rewrite Z.mul_1_r.
      rewrite (wrap_small (len / par))
        by (unfold Int64.in_range, Int64.min_int, Int64.max_int; lia).
      replace (len / par * (0 + 1) - 1) with (len / par - 1) by lia.
      apply wrap_small. unfold Int64.in_range, Int64.min_int, Int64.max_int. lia. }
    rewrite H1, Hsub, Hfrom, Hto. reflexivity. }
  rewrite Hstep.
  rewrite (partLoop_spec par len target folder file w1 Hpar Hlen HF HT HM1)
    by (rewrite ?length_insert, ?length_replicate; lia).
  f_equal. f_equal.
  rewrite (seqZ_cons 0 par) by lia. rewrite fmap_cons.
  replace (Z.pred par) with (Z.of_nat n) by lia.
  rewrite drop_ge by (rewrite length_insert, length_replicate; lia).
  rewrite app_nil_r. reflexivity.
Qed.

Lemma planned_lookup (par len : Z) (target folder file : string) (j : Z) :
  0 <= j < par ->
  (plannedPart par len target folder file <$> seqZ 0 par) !! Z.to_nat j
  = Some (plannedPart par len target folder file j).
Proof.
  intros Hj. rewrite list_lookup_fmap, lookup_seqZ_lt by lia.
  simpl. f_equal. f_equal. lia.
Qed.

Lemma covers_planned (par len : Z) (target folder file : string) (j b : Z) :
  1 <= par -> 0 <= len -> 0 <= j < par ->
  covers len (plannedPart par len target folder file j) b
  <-> len / par * j <= b
      /\ (if j <? par - 1 then b < len / par * (j + 1) else b < len).
Proof.
  intros Hpar Hlen Hj. unfold covers, plannedPart; simpl.
  assert (Hq : 0 <= len / par) by (apply Z.div_pos; lia).
  pose proof (Z.mul_div_le len par ltac:(lia)) as Hm.
  destruct (Z.ltb_spec j (par - 1)).
  - assert (len / par * (j + 1) <= len) by nia.
    destruct (Z.eqb_spec (len / par * (j + 1) - 1) len); [lia|]. lia.
  - rewrite Z.eqb_refl. reflexivity.
Qed.

(** C3. For a parallelism [par >= 1] and a length [len >= 0] (both within
    64 bits), and when the task folder can be made, [partCalculate] returns
    exactly [par] parts: part [j < par - 1] runs from [(len/par)*j] to
    [(len/par)*(j+1) - 1], the last part from [(len/par)*(par-1)] to [len].
    Every offset of [[0, len)] lies in exactly one part, each part but the
    last has [len/par] bytes, and the last part has the remaining
    [len - (len/par)*(par-1)]. *)
Theorem partCalculate_plan (par len : Z) (target folder : string) (w w1 : World) :
  1 <= par <= Int64.max_int -> 0 <= len <= Int64.max_int ->
  FolderOf E target = Done folder ->
  MkdirIfNotExist E folder w = (Done None, w1) ->
  exists parts,
    partCalculate E par len target w = (Done parts, w1)
    /\ Z.of_nat (length parts) = par
    /\ (forall j, 0 <= j < par - 1 ->
          exists p, parts !! Z.to_nat j = Some p
                    /\ Part.Index p = j
                    /\ Part.RangeFrom p = len / par * j
                    /\ Part.RangeTo p = len / par * (j + 1) - 1
                    /\ Part.RangeTo p - Part.RangeFrom p + 1 = len / par)
    /\ (exists p, parts !! Z.to_nat (par - 1) = Some p
                  /\ Part.Index p = par - 1
                  /\ Part.RangeFrom p = len / par * (par - 1)
                  /\ Part.RangeTo p = len
                  /\ len - Part.RangeFrom p = len - len / par * (par - 1))
    /\ (forall b, 0 <= b < len ->
          exists j,
            (0 <= j < par /\ exists p, parts !! Z.to_nat j = Some p /\ covers len p b)
            /\ forall j',
                 (0 <= j' < par /\ exists p, parts !! Z.to_nat j' = Some p /\ covers len p b) ->
                 j' = j).
Proof.
  intros Hpar Hlen HF HM.
  destruct (partCalculate_spec par len target folder w w1 Hpar Hlen HF HM)
    as (file & _ & Hcalc).
  eexists. split; [exact Hcalc|].
  assert (Hq : 0 <= len / par) by (apply Z.div_pos; lia).
  pose proof (Z.mul_div_le len par ltac:(lia)) as Hm.
  split; [rewrite length_fmap, length_seqZ; lia|].
  split.
  { intros j Hj. eexists. split; [apply planned_lookup; lia|].
    simpl. destruct (Z.ltb_spec j (par - 1)); [|lia]. repeat split; lia. }
  split.
  { eexists. split; [apply planned_lookup; lia|].
    simpl. rewrite Z.ltb_irrefl. repeat split; lia. }
  intros b Hb.
  assert (Hcov : forall j, 0 <= j < par ->
            (exists p, (plannedPart par len target folder file <$> seqZ 0 par) !! Z.to_nat j
                       = Some p /\ covers len p b)
            <-> len / par * j <= b
                /\ (if j <? par - 1 then b < len / par * (j + 1) else b < len)).
  { intros j Hj. rewrite planned_lookup by lia. split.
    - intros (p & Hp & Hc). inversion Hp; subst.
      apply covers_planned in Hc; [exact Hc|lia..].
    - intros Hc. eexists. split; [reflexivity|]. apply covers_planned; [lia..|exact Hc]. }
  destruct (Z.lt_ge_cases b (len / par * (par - 1))) as [Hlow|Hhigh].
  - assert (Hqpos : 0 < len / par) by nia.
    exists (b / (len / par)).
    pose proof (Z.mul_div_le b (len / par) Hqpos) as Hb1.
    pose proof (Z.mul_succ_div_gt b (len / par) Hqpos) as Hb2.
    assert (Hjlt : b / (len / par) < par - 1).
    { apply Z.div_lt_upper_bound; lia. }
    assert (Hj0 : 0 <= b / (len / par)) by (apply Z.div_pos; lia).
    split.
    + split; [lia|]. apply Hcov; [lia|].
      destruct (Z.ltb_spec (b / (len / par)) (par - 1)); [|lia]. lia.
    + intros j' [Hj' Hc]. apply Hcov in Hc; [|lia].
      destruct Hc as [Hc1 Hc2].
      destruct (Z.ltb_spec j' (par - 1)); nia.
  - exists (par - 1). split.
    + split; [lia|]. apply Hcov; [lia|]. rewrite Z.ltb_irrefl. lia.
    + intros j' [Hj' Hc]. apply Hcov in Hc; [|lia].
      destruct Hc as [Hc1 Hc2].
      destruct (Z.ltb_spec j' (par - 1)); [|lia]. nia.
Qed.

End PlanFacts.

Lemma partCalculate_plan_witness :
  exists parts,
    partCalculate PlanScenario.E 3 10 PlanScenario.target Scenario.world0
    = (Done parts, PlanScenario.world1)
    /\ Z.of_nat (length parts) = 3.
Proof.
  destruct (partCalculate_plan PlanScenario.E 3 10 PlanScenario.target
              "/home/u/.hget/data" Scenario.world0 PlanScenario.world1)
    as (parts & Hcalc & Hlen & _).
  - vm_compute. split; discriminate.
  - vm_compute. split; discriminate.
  - vm_compute. reflexivity.
  - vm_compute. reflexivity.
  - exists parts. split; assumption.
Defined.

(** ** The download coordinator *)

Section CoordinatorFacts.
Context (E : Env).

(** Code that leaves the record of the coordinator alone. *)
Definition silent {A} (m : M A) : Prop :=
  forall w o w', m w = (o, w') -> acts w' = acts w.

Lemma silent_bind {A B} (m : M A) (k : A -> M B) :
  silent m -> (forall a, silent (k a)) -> silent (mbind k m).
Proof.
  intros Hm Hk w o w'. unfold mbind, M_bind, bind.
  destruct (m w) as [[a|e|c] w1] eqn:Hmw.
  - intros Hka. rewrite (Hk _ _ _ _ Hka). eapply Hm, Hmw.
  - intros H; inversion H; subst. eapply Hm, Hmw.
  - intros H; inversion H; subst. eapply Hm, Hmw.
Qed.

Lemma silent_ret {A} (a : A) : silent (mret a).
Proof. intros w o w' H. by inversion H. Qed.

Lemma silent_lift {A} (o : outcome A) : silent (lift o).
Proof. intros w o' w' H. by inversion H. Qed.

Lemma silent_getDisk : silent getDisk.
Proof. intros w o w' H. by inversion H. Qed.

Lemma silent_os_update (p : string) f : silent (os_update E p f).
Proof.
  intros w o w'. unfold os_update.
  destruct (resolve E p); [|intros H; by inversion H].
  destruct (f _ _); intros H; by inversion H.
Qed.

Lemma silent_os_Rename (a b : string) : silent (os_Rename E a b).
Proof.
  intros w o w'. unfold os_Rename.
  destruct (resolve E a), (resolve E b); try (intros H; by inversion H).
  destruct (FS.Rename _ _ _); intros H; by inversion H.
Qed.

Lemma silent_os_MkdirAll (p : string) : silent (os_MkdirAll E p).
Proof.
  intros w o w'. unfold os_MkdirAll.
  destruct (FS.MkdirAll _ _ _); intros H; by inversion H.
Qed.

Lemma silent_MkdirIfNotExist (folder : string) : silent (MkdirIfNotExist E folder).
Proof.
  unfold MkdirIfNotExist. apply silent_bind; [apply silent_getDisk|].
  intros fs. destruct (os_Stat E folder fs); [apply silent_ret|apply silent_os_MkdirAll].
Qed.

Lemma silent_moveParts (folder : string) (ps : list Part.t) : silent (moveParts E folder ps).
Proof.
  induction ps as [|p ps IH]; simpl; [apply silent_ret|].
  apply silent_bind; [apply silent_os_Rename|].
  intros [e|]; [apply silent_ret|apply IH].
Qed.

Lemma silent_Save (s : State.t) : silent (Save E s).
Proof.
  unfold Save. apply silent_bind; [apply silent_lift|]. intros folder.
  apply silent_bind; [apply silent_MkdirIfNotExist|]. intros [e|]; [apply silent_ret|].
  apply silent_bind; [apply silent_moveParts|]. intros [e|]; [apply silent_ret|].
  apply silent_os_update.
Qed.

(** A worker returns its messages, whatever happens to it, and leaves the
    record of the coordinator alone. *)
Lemma downloadPart_Done (d : HTTPDownloader) (part : Part.t) (intr : Interrupt) (w : World) :
  exists msgs w', downloadPart E d part intr w = (Done msgs, w') /\ acts w' = acts w.
Proof.
  unfold downloadPart. destruct (buildRequestForPart E d part) as [req|e]; [|by eexists _, _].
  unfold mbind, M_bind, bind, client_Do, mret, M_ret, ret.
  destruct (match intr with BeforeResponse => Err ErrCanceled | _ => server E req end)
    as [r|e].
  - unfold os_update. cbn [disk].
    destruct (resolve E (Part.Path part)) as [q|e']; [|by eexists _, _].
    destruct (FS.AppendFile q _ _); by eexists _, _.
  - destruct e, intr; by eexists _, _.
Qed.

(** What the branch on [doneChan] does in a run that was interrupted. *)
Lemma onDone_interrupted (target : string) (d : HTTPDownloader) (l : Loop)
  (w w' : World) (o : outcome Run) :
  isInterrupted l = true ->
  onDone E target d l w = (o, w') ->
  if resumable d then
    let s := {| State.URL := target; State.Parts := seen l |} in
    acts w' = acts w ++ [ActSave s]
    /\ exists r,
         Save E s {| disk := disk w; sent := sent w; acts := acts w ++ [ActSave s] |} = (r, w')
         /\ (o = Done Returned -> exists err, r = Done err)
  else o = Done Returned
       /\ w' = {| disk := disk w; sent := sent w; acts := acts w ++ [ActWarn] |}.
Proof.
  intros Hi. unfold onDone. rewrite Hi.
  destruct (resumable d).
  - unfold bind, act, mret, M_ret, ret. cbv zeta.
    set (s := {| State.URL := target; State.Parts := seen l |}).
    set (w0 := {| disk := disk w; sent := sent w; acts := acts w ++ [ActSave s] |}).
    destruct (Save E s w0) as [[err|e|c] w1] eqn:HS; intros H; inversion H; subst.
    + split; [apply (silent_Save s _ _ _ HS)|]. eexists. split; [reflexivity|]. eauto.
    + split; [apply (silent_Save s _ _ _ HS)|]. eexists. split; [reflexivity|]. discriminate.
    + split; [apply (silent_Save s _ _ _ HS)|]. eexists. split; [reflexivity|]. discriminate.
  - unfold bind, act, mret, M_ret, ret. intros H; inversion H; subst. auto.
Qed.

(** The branch on [doneChan] only adds to the record. *)
Lemma onDone_record (target : string) (d : HTTPDownloader) (l : Loop)
  (w w' : World) (o : outcome Run) :
  onDone E target d l w = (o, w') -> exists extra, acts w' = acts w ++ extra.
Proof.
  destruct (isInterrupted l) eqn:Hi.
  - intros H. pose proof (onDone_interrupted _ _ _ _ _ _ Hi H) as Hd.
    destruct (resumable d).
    + destruct Hd as [Hacts _]. eauto.
    + destruct Hd as [_ ->]. cbn [acts]. eauto.
  - unfold onDone. rewrite Hi.
    unfold mbind, M_bind, bind, lift, act, getDisk, putDisk, panic, mret, M_ret, ret, withDisk.
    destruct (TaskFromURL E target) as [dst|e|c]; simpl.
    2,3: intros H; inversion H; subst; exists []; by rewrite app_nil_r.
    destruct (JoinFile E (files l) dst (disk w)) as [[e|] fs']; simpl.
    { intros H; inversion H; subst. eexists [_]. reflexivity. }
    destruct (FolderOf E target) as [folder|e|c]; simpl.
    2,3: intros H; inversion H; subst; eexists [_]; reflexivity.
    destruct (resolve E folder); simpl;
      intros H; inversion H; subst; eexists [_; _]; simpl; by rewrite <- app_assoc.
Qed.

(** A part is dealt with: the loop is told nothing yet and the record is
    left alone; when a worker has run, the world is the one it left. *)
Lemma dealWith_spec (d : HTTPDownloader) (i : nat) (intr : Interrupt) (g : Flight)
  (w w' : World) (o : outcome (option Flight)) :
  dealWith E d i intr g w = (o, w') ->
  exists r,
    o = Done r
    /\ (r = None -> w' = w)
    /\ (r <> None ->
        w' = match Do d !! i with
             | Some (Started part) => snd (downloadPart E d part intr w)
             | _ => w
             end).
Proof.
  unfold dealWith. destruct (bool_decide (i ∈ dealt g ++ unfinished g)).
  { intros H; inversion H; subst. exists None. by repeat split. }
  destruct (Do d !! i) as [[msgs|part]|].
  - intros H; inversion H; subst. eexists. split; [reflexivity|]. by split.
  - destruct (downloadPart_Done d part intr w) as (msgs & w1 & Hd & _).
    unfold mbind, M_bind, bind, mret, M_ret, ret. rewrite Hd. cbn [snd].
    destruct intr; [|destruct (0 <? interrupts g)..]; rewrite ?Hd;
      intros H; inversion H; subst; eexists; (split; [reflexivity|]); by split.
  - intros H; inversion H; subst. exists None. by repeat split.
Qed.

(** A worker under way: the same, with nothing sent to the loop. *)
Lemma underWay_spec (d : HTTPDownloader) (i : nat) (upto : Interrupt) (g : Flight)
  (w w' : World) (o : outcome (option Flight)) :
  underWay E d i upto g w = (o, w') ->
  exists r,
    o = Done r
    /\ (r = None -> w' = w)
    /\ (r <> None ->
        w' = match Do d !! i with
             | Some (Started part) => snd (downloadPart E d part upto w)
             | _ => w
             end).
Proof.
  unfold underWay. destruct (bool_decide (i ∈ dealt g ++ unfinished g)).
  { intros H; inversion H; subst. exists None. by repeat split. }
  destruct (Do d !! i) as [[msgs|part]|].
  - intros H; inversion H; subst. exists None. by repeat split.
  - destruct (downloadPart_Done d part upto w) as (msgs & w1 & Hd & _).
    unfold bind, mret, M_ret, ret. rewrite Hd. cbn [snd].
    intros H; inversion H; subst; eexists; (split; [reflexivity|]); by split.
  - intros H; inversion H; subst. exists None. by repeat split.
Qed.

(** A run of the loop, whatever happens: the record only grows; once a
    signal is taken nothing is joined or removed; and a run that returns
    after a signal has, as its last deed, saved the parts it received (or
    warned), in the world that the workers left. *)
Lemma coordinate_run (target : string) (conn : Z) (d : HTTPDownloader)
  (events : list Event) :
  forall (l : Loop) (g : Flight) (w w' : World) (o : outcome Run),
    coordinate E target conn d events l g w = (o, w') ->
    exists extra,
      acts w' = acts w ++ extra
      /\ (isInterrupted l || signalled events = true ->
          Forall (fun a => joins a = false) extra
          /\ (o = Done Returned ->
              let s := {| State.URL := target; State.Parts := seen l ++ received events |} in
              let w2 := passed E conn d events w in
              if resumable d then
                last extra = Some (ActSave s)
                /\ exists err,
                     Save E s {| disk := disk w2; sent := sent w2;
                                 acts := acts w2 ++ [ActSave s] |} = (Done err, w')
              else last extra = Some ActWarn
                   /\ w' = {| disk := disk w2; sent := sent w2;
                              acts := acts w2 ++ [ActWarn] |})).
Proof.
  induction events as [|ev rest IH]; intros l g w w' o; cbn [coordinate].
  - intros H; inversion H; subst. exists []. rewrite app_nil_r.
    split; [reflexivity|]. intros _. split; [constructor|discriminate].
  - unfold mbind at 1, M_bind, bind.
    destruct ev as [|f|e|p| |i intr|i intr]; cbn [turn].
    + (* a signal *)
      unfold bind, act, mret, M_ret, ret. intros H. apply IH in H.
      cbn [acts disk sent isInterrupted seen orb] in H.
      destruct H as (extra & Hacts & Hrun).
      exists (ActInterrupt conn :: extra).
      split; [by rewrite Hacts, <- app_assoc|]. intros _.
      destruct (Hrun eq_refl) as [Hno Hret]. split; [by constructor|].
      intros Ho. specialize (Hret Ho). cbv zeta in *. cbn [received passed].
      destruct (resumable d).
      * destruct Hret as [Hlast Hsave]. split; [|exact Hsave].
        destruct extra; [discriminate|exact Hlast].
      * destruct Hret as [Hlast Hw]. split; [|exact Hw].
        destruct extra; [discriminate|exact Hlast].
    + (* a finished part file *)
      destruct (takeMsg (ToFile f) (inbox g)) as [box|].
      * unfold mret, M_ret, ret. intros H. apply IH in H.
        cbn [isInterrupted seen] in H. exact H.
      * intros H; inversion H; subst. exists []. rewrite app_nil_r.
        split; [reflexivity|]. intros _. split; [constructor|discriminate].
    + (* an error of a worker *)
      destruct (takeMsg (ToError e) (inbox g)) as [box|];
        intros H; inversion H; subst; exists []; rewrite app_nil_r;
        (split; [reflexivity|]); intros _; (split; [constructor|discriminate]).
    + (* the state of a part *)
      destruct (takeMsg (ToState p) (inbox g)) as [box|].
      * unfold mret, M_ret, ret. intros H. apply IH in H.
        cbn [isInterrupted seen] in H.
        destruct H as (extra & Hacts & Hrun). exists extra. split; [exact Hacts|].
        cbn [signalled received passed]. rewrite <- app_assoc in Hrun. exact Hrun.
      * intros H; inversion H; subst. exists []. rewrite app_nil_r.
        split; [reflexivity|]. intros _. split; [constructor|discriminate].
    + (* all workers are done *)
      destruct (length (dealt g) =? length (parts d))%nat.
      2:{ intros H; inversion H; subst. exists []. rewrite app_nil_r.
          split; [reflexivity|]. intros _. split; [constructor|discriminate]. }
      unfold mbind, M_bind, bind.
      destruct (onDone E target d l w) as [[r|e|c] w1] eqn:Hd;
        unfold mret, M_ret, ret; intros H; inversion H; subst;
        destruct (onDone_record _ _ _ _ _ _ Hd) as [extra Hacts];
        exists extra; (split; [exact Hacts|]);
        cbn [signalled]; rewrite orb_false_r; intros Hi;
        pose proof (onDone_interrupted _ _ _ _ _ _ Hi Hd) as Hint;
        cbn [received passed]; rewrite app_nil_r; destruct (resumable d).
      * destruct Hint as (Hacts' & r' & Hsave & Hr).
        assert (extra = [ActSave {| State.URL := target; State.Parts := seen l |}])
          as -> by (rewrite Hacts in Hacts'; by apply app_inv_head in Hacts').
        split; [by repeat constructor|]. intros Ho.
        assert (r = Returned) as -> by congruence.
        destruct (Hr eq_refl) as [err ->]. split; [reflexivity|]. eauto.
      * destruct Hint as [Ho ->]. cbn [acts] in Hacts.
        assert (extra = [ActWarn]) as -> by by apply app_inv_head in Hacts.
        split; [by repeat constructor|]. auto.
      * destruct Hint as (Hacts' & r' & Hsave & Hr).
        assert (extra = [ActSave {| State.URL := target; State.Parts := seen l |}])
          as -> by (rewrite Hacts in Hacts'; by apply app_inv_head in Hacts').
        split; [by repeat constructor|]. discriminate.
      * destruct Hint as [Ho _]. discriminate.
      * destruct Hint as (Hacts' & r' & Hsave & Hr).
        assert (extra = [ActSave {| State.URL := target; State.Parts := seen l |}])
          as -> by (rewrite Hacts in Hacts'; by apply app_inv_head in Hacts').
        split; [by repeat constructor|]. discriminate.
      * destruct Hint as [Ho _]. discriminate.
    + (* a part is dealt with *)
      unfold mbind, M_bind, bind.
      destruct (dealWith E d i intr g w) as [o1 w1] eqn:Hdeal.
      destruct (dealWith_spec _ _ _ _ _ _ _ Hdeal) as (r & -> & Hnone & Hsome).
      destruct r as [g'|].
      * unfold mret, M_ret, ret. intros H. apply IH in H.
        destruct H as (extra & Hacts & Hrun).
        assert (Hw1 : w1 = match Do d !! i with
                           | Some (Started part) => snd (downloadPart E d part intr w)
                           | _ => w
                           end) by (apply Hsome; discriminate).
        assert (Hsil : acts w1 = acts w).
        { rewrite Hw1. destruct (Do d !! i) as [[msgs|part]|]; try reflexivity.
          destruct (downloadPart_Done d part intr w) as (msgs & w2 & -> & Ha). exact Ha. }
        exists extra. rewrite <- Hsil. split; [exact Hacts|].
        cbn [signalled received passed].
        destruct (Do d !! i) as [[msgs|part]|]; rewrite Hw1 in Hrun; exact Hrun.
      * unfold mret, M_ret, ret. intros H; inversion H; subst.
        rewrite (Hnone eq_refl). exists []. rewrite app_nil_r.
        split; [reflexivity|]. intros _. split; [constructor|discriminate].
    + (* a worker is under way *)
      unfold mbind, M_bind, bind.
      destruct (underWay E d i intr g w) as [o1 w1] eqn:Hdeal.
      destruct (underWay_spec _ _ _ _ _ _ _ Hdeal) as (r & -> & Hnone & Hsome).
      destruct r as [g'|].
      * unfold mret, M_ret, ret. intros H. apply IH in H.
        destruct H as (extra & Hacts & Hrun).
        assert (Hw1 : w1 = match Do d !! i with
                           | Some (Started part) => snd (downloadPart E d part intr w)
                           | _ => w
                           end) by (apply Hsome; discriminate).
        assert (Hsil : acts w1 = acts w).
        { rewrite Hw1. destruct (Do d !! i) as [[msgs|part]|]; try reflexivity.
          destruct (downloadPart_Done d part intr w) as (msgs & w2 & -> & Ha). exact Ha. }
        exists extra. rewrite <- Hsil. split; [exact Hacts|].
        cbn [signalled received passed].
        destruct (Do d !! i) as [[msgs|part]|]; rewrite Hw1 in Hrun; exact Hrun.
      * unfold mret, M_ret, ret. intros H; inversion H; subst.
        rewrite (Hnone eq_refl). exists []. rewrite app_nil_r.
        split; [reflexivity|]. intros _. split; [constructor|discriminate].
Qed.

Lemma silent_client_Do (req : Http.Request) : silent (client_Do E req).
Proof. intros w o w' H. by inversion H. Qed.

Lemma silent_panic {A} (e : error) : silent (@panic A e).
Proof. intros w o w' H. by inversion H. Qed.

Lemma silent_headProbe (target : string) : silent (headProbe E target).
Proof.
  unfold headProbe. destruct (NewRequest E "HEAD" target); [|apply silent_panic].
  apply silent_bind; [apply silent_client_Do|]. intros [resp|e]; [|apply silent_ret].
  destruct (positiveLength _); apply silent_ret.
Qed.

Lemma silent_rangeProbe (target : string) (p : probe) : silent (rangeProbe E target p).
Proof.
  unfold rangeProbe. destruct (_ || _); [|apply silent_ret].
  destruct (NewRequest E "GET" target); [|apply silent_ret].
  apply silent_bind; [apply silent_client_Do|]. intros [resp|e]; [|apply silent_ret].
  destruct (_ =? _); [destruct (contentRangeTotal _)|destruct (positiveLength _)];
    apply silent_ret.
Qed.

Lemma silent_partLoop (n : nat) (j par len : Z) (target : string) (ret : list Part.t) :
  silent (partLoop E n j par len target ret).
Proof.
  revert j ret. induction n as [|n IH]; intros j ret; cbn [partLoop]; [apply silent_ret|].
  apply silent_bind; [apply silent_lift|]. intros file.
  apply silent_bind; [apply silent_lift|]. intros folder.
  apply silent_bind; [apply silent_MkdirIfNotExist|]. intros [e|]; [apply silent_lift|].
  apply IH.
Qed.

Lemma silent_partCalculate (par len : Z) (target : string) :
  silent (partCalculate E par len target).
Proof.
  unfold partCalculate. destruct (par <? 0); [apply silent_panic|apply silent_partLoop].
Qed.

Lemma silent_NewHTTPDownloader (target : string) (par : Z) (skip : bool)
  (proxyServer bwLimit : string) :
  silent (NewHTTPDownloader E target par skip proxyServer bwLimit).
Proof.
  unfold NewHTTPDownloader.
  apply silent_bind; [apply silent_lift|]. intros parsed.
  apply silent_bind; [apply silent_lift|]. intros ips.
  apply silent_bind; [apply silent_headProbe|]. intros p.
  apply silent_bind; [apply silent_rangeProbe|]. intros p'.
  destruct (settle par p') as [[par' len'] res].
  apply silent_bind; [apply silent_lift|]. intros file.
  apply silent_bind; [apply silent_partCalculate|]. intros parts.
  apply silent_ret.
Qed.

Lemma silent_resumedDownloader (st : State.t) : silent (resumedDownloader E st).
Proof.
  unfold resumedDownloader. apply silent_bind; [apply silent_lift|]. intros f.
  apply silent_ret.
Qed.

(** C9. In every run of [Execute], whatever happens beside its loop:
    when a signal is taken before the run is over, the joiner is not
    called and the task folder is not removed; and when such a run
    returns, the last thing the coordinator did was to save the manifest
    made of the parts received on the state channel (when the task is
    resumable), in the world that the workers left, or to warn (when it
    is not). *)
Theorem Execute_no_join_after_interrupt (target : string) (state : option State.t)
  (conn : Z) (skiptls : bool) (proxyServer bwLimit : string) (events : list Event)
  (w w' : World) (o : outcome Run) :
  signalled events = true ->
  Execute E target state conn skiptls proxyServer bwLimit events w = (o, w') ->
  exists extra,
    acts w' = acts w ++ extra
    /\ (forall a,
          In a extra ->
          (forall fs dst, a <> ActJoin fs dst) /\ (forall folder, a <> ActRemoveAll folder))
    /\ (o = Done Returned ->
        exists d w1,
          match state with
          | None => NewHTTPDownloader E target conn skiptls proxyServer bwLimit
          | Some st => resumedDownloader E st
          end w = (Done d, w1)
          /\ let s := {| State.URL := target; State.Parts := received events |} in
             let w2 := passed E conn d events w1 in
             if resumable d then
               last extra = Some (ActSave s)
               /\ exists err,
                    Save E s {| disk := disk w2; sent := sent w2;
                                acts := acts w2 ++ [ActSave s] |} = (Done err, w')
             else last extra = Some ActWarn
                  /\ w' = {| disk := disk w2; sent := sent w2;
                             acts := acts w2 ++ [ActWarn] |}).
Proof.
  intros Hsig. unfold Execute.
  destruct (conn <? 0).
  { intros H; inversion H; subst. exists []. rewrite app_nil_r.
    split; [reflexivity|]. split; [intros a []|discriminate]. }
  unfold mbind, M_bind, bind.
  set (build := match state with
                | None => NewHTTPDownloader E target conn skiptls proxyServer bwLimit
                | Some st => resumedDownloader E st
                end).
  assert (Hsil : silent build).
  { subst build. destruct state; [apply silent_resumedDownloader|apply silent_NewHTTPDownloader]. }
  destruct (build w) as [[d|e|c] w1] eqn:Hb.
  - intros H. destruct (coordinate_run _ _ _ _ _ _ _ _ _ H) as (extra & Hacts & Hrun).
    cbn [isInterrupted seen orb app] in Hrun. destruct (Hrun Hsig) as [Hno Hret].
    exists extra. rewrite <- (Hsil _ _ _ Hb). split; [exact Hacts|]. split.
    + intros a Hin. rewrite Forall_forall in Hno. specialize (Hno a).
      assert (Hj : joins a = false) by (apply Hno; by apply list_elem_of_In).
      split; intros; intros ->; discriminate.
    + intros Ho. exists d, w1. split; [reflexivity|]. exact (Hret Ho).
  - intros H; inversion H; subst. exists []. rewrite app_nil_r.
    split; [apply (Hsil _ _ _ Hb)|]. split; [intros a []|discriminate].
  - intros H; inversion H; subst. exists []. rewrite app_nil_r.
    split; [apply (Hsil _ _ _ Hb)|]. split; [intros a []|discriminate].
Qed.

End CoordinatorFacts.

(** The run of the scenario: ten bytes in two parts, the first worker
    done, the second caught after two bytes. Nothing is joined, and the
    manifest is saved with both part files in place. *)
Lemma Execute_no_join_after_interrupt_witness :
  let run :=
    Execute DownloadScenario.E DownloadScenario.target None 2 false EmptyString EmptyString
      DownloadScenario.stopped Scenario.world0 in
  fst run = Done Returned
  /\ (forall a, In a (acts (snd run)) -> forall fs dst, a <> ActJoin fs dst)
  /\ last (acts (snd run))
     = Some (ActSave {| State.URL := DownloadScenario.target;
                        State.Parts := [DownloadScenario.part0; DownloadScenario.part1] |})
  /\ disk (snd run) !! "/home/u/.hget/file/file.part000000" = Some (FS.File "01234")
  /\ disk (snd run) !! "/home/u/.hget/file/file.part000001" = Some (FS.File "56")
  /\ Read DownloadScenario.E DownloadScenario.target (snd run)
     = (Done (Some {| State.URL := DownloadScenario.target;
                      State.Parts := [DownloadScenario.part0; DownloadScenario.part1] |},
              None), snd run).
Proof.
  intros run.
  assert (H : (fst run, last (acts (snd run)),
               disk (snd run) !! "/home/u/.hget/file/file.part000000",
               disk (snd run) !! "/home/u/.hget/file/file.part000001",
               fst (Read DownloadScenario.E DownloadScenario.target (snd run)))
              = (Done Returned,
                 Some (ActSave {| State.URL := DownloadScenario.target;
                                  State.Parts := [DownloadScenario.part0;
                                                  DownloadScenario.part1] |}),
                 Some (FS.File "01234"), Some (FS.File "56"),
                 Done (Some {| State.URL := DownloadScenario.target;
                               State.Parts := [DownloadScenario.part0;
                                               DownloadScenario.part1] |}, None)))
    by (vm_compute; reflexivity).
  assert (Hno : forall a, In a (acts (snd run)) -> forall fs dst, a <> ActJoin fs dst).
  { destruct (Execute_no_join_after_interrupt DownloadScenario.E
                DownloadScenario.target None 2 false EmptyString EmptyString
                DownloadScenario.stopped Scenario.world0 (snd run) (fst run))
      as (extra & Hacts & Hno & _).
    - reflexivity.
    - apply surjective_pairing.
    - intros a Hin. rewrite Hacts in Hin. apply (Hno a Hin). }
  clearbody run.
  pose proof (f_equal (fun t => fst (fst (fst (fst t)))) H) as H1.
  pose proof (f_equal (fun t => snd (fst (fst (fst t)))) H) as H2.
  pose proof (f_equal (fun t => snd (fst (fst t))) H) as H3.
  pose proof (f_equal (fun t => snd (fst t)) H) as H4.
  pose proof (f_equal snd H) as H5.
  cbn [fst snd] in H1, H2, H3, H4, H5.
  split; [exact H1|]. split; [exact Hno|].
  split; [exact H2|]. split; [exact H3|]. split; [exact H4|].
  rewrite <- H5. rewrite (surjective_pairing (Read _ _ _)) at 1. f_equal.
  apply (Read_world DownloadScenario.E DownloadScenario.target (snd run) _
           (fst (Read DownloadScenario.E DownloadScenario.target (snd run)))).
  apply surjective_pairing.
Defined.

(** ** The capability prober *)

Section TotalFacts.
Import Strings Strconv.

Lemma isDigit_not_slash (c : ascii) : isDigit c = true -> Ascii.eqb "/" c = false.
Proof. destruct c as [[] [] [] [] [] [] [] []]; vm_compute; intros; congruence. Qed.

Lemma allDigits_digitsAux (fuel : nat) :
  forall z acc, 0 <= z -> allDigits acc = true -> allDigits (digitsAux fuel z acc) = true.
Proof.
  induction fuel as [|fuel IH]; intros z acc Hz Hacc; cbn [digitsAux]; [exact Hacc|].
  assert (Hmod : 0 <= z mod 10 < 10) by (apply Z.mod_pos_bound; lia).
  destruct (digit_isDigit _ Hmod) as [Hd _].
  assert (allDigits (String (digit (z mod 10)) acc) = true) by (simpl; by rewrite Hd, Hacc).
  destruct (z <? 10); [assumption|]. apply IH; [apply Z.div_pos; lia|assumption].
Qed.

Lemma allDigits_digits (z : Z) : 0 <= z -> allDigits (digits z) = true.
Proof. intros Hz. by apply allDigits_digitsAux. Qed.

Lemma LastIndex_digits (s : string) : allDigits s = true -> LastIndex s "/" = None.
Proof.
  induction s as [|c s IH]; [reflexivity|].
  cbn [allDigits LastIndex HasPrefix].
  intros H. apply andb_true_iff in H as [Hc Hs]. rewrite (IH Hs).
  by rewrite (isDigit_not_slash _ Hc).
Qed.

Lemma LastIndex_suffix (prefix s : string) :
  allDigits s = true ->
  LastIndex (prefix +:+ "/" +:+ s) "/" = Some (String.length prefix).
Proof.
  intros Hs. induction prefix as [|c p IH].
  - change (EmptyString +:+ "/" +:+ s) with (String "/" s).
    cbn [LastIndex]. rewrite (LastIndex_digits _ Hs). reflexivity.
  - change (String c p +:+ "/" +:+ s) with (String c (p +:+ "/" +:+ s)).
    cbn [LastIndex]. rewrite IH. reflexivity.
Qed.

Lemma drop_suffix (prefix s : string) :
  drop (S (String.length prefix)) (prefix +:+ "/" +:+ s) = s.
Proof. induction prefix as [|c p IH]; [reflexivity|exact IH]. Qed.

Lemma length_suffix (prefix s : string) :
  String.length (prefix +:+ "/" +:+ s) = S (String.length prefix + String.length s).
Proof. induction prefix as [|c p IH]; simpl; [reflexivity|]. by rewrite IH. Qed.

(** The total of a [Content-Range] value is the decimal number after its
    last slash. *)
Lemma contentRangeTotal_suffix (prefix : string) (total : Z) :
  0 < total <= Int64.max_int ->
  contentRangeTotal (prefix +:+ "/" +:+ FormatInt total) = Some total.
Proof.
  intros Ht. unfold contentRangeTotal, FormatInt.
  destruct (Z.ltb_spec total 0); [lia|].
  rewrite LastIndex_suffix by (apply allDigits_digits; lia).
  rewrite length_suffix, drop_suffix.
  destruct (digits_head total ltac:(lia)) as (c & t & Hd & _).
  assert (Hlt : (S (String.length prefix)
                 <? S (String.length prefix + String.length (digits total)))%nat = true).
  { apply Nat.ltb_lt. rewrite Hd. simpl. lia. }
  rewrite Hlt.
  pose proof (ParseInt_FormatInt total) as HP. unfold FormatInt in HP.
  destruct (Z.ltb_spec total 0); [lia|].
  rewrite HP by (unfold Int64.in_range, Int64.min_int, Int64.max_int in *; lia).
  destruct (Z.ltb_spec 0 total); [reflexivity|lia].
Qed.

End TotalFacts.

Section ProbeFacts.
Context (E : Env).

Lemma bind_Done {A B} (m : M A) (k : A -> M B) (w w' : World) (b : B) :
  mbind k m w = (Done b, w') ->
  exists a w1, m w = (Done a, w1) /\ k a w1 = (Done b, w').
Proof.
  unfold mbind, M_bind, bind. destruct (m w) as [[a|e|c] w1]; [eauto|discriminate..].
Qed.

(** What the range probe does, case by case. *)
Lemma rangeProbe_spec (target : string) (p1 p2 : probe) (w1 w2 : World) :
  rangeProbe E target p1 w1 = (Done p2, w2) ->
  NewRequest E "GET" target <> Err (ErrParseURL target) ->
  (rangeSupported p1 = false \/ lenValue p1 = 0 ->
     sent w2 = sent w1 ++ [probeRequest target]
     /\ forall resp,
          server E (probeRequest target) = Ok resp ->
          Http.StatusCode resp = Http.StatusPartialContent ->
          rangeSupported p2 = true
          /\ (forall total,
                contentRangeTotal (Http.Get (Http.RespHeader resp) "Content-Range")
                = Some total -> lenValue p2 = total)
          /\ (contentRangeTotal (Http.Get (Http.RespHeader resp) "Content-Range") = None ->
              lenValue p2 = lenValue p1))
  /\ (rangeSupported p1 = true -> lenValue p1 <> 0 -> p2 = p1 /\ sent w2 = sent w1).
Proof.
  unfold rangeProbe, NewRequest. intros H Hreq.
  destruct (url_Parse E target) as [u|]; [clear Hreq|congruence].
  split.
  - intros Hor.
    assert (Hc : negb (rangeSupported p1) || (lenValue p1 =? 0) = true).
    { destruct Hor as [->| ->]; [reflexivity|]. by rewrite orb_true_r. }
    rewrite Hc in H. unfold mbind, M_bind, bind, client_Do, mret, M_ret, ret in H.
    cbn [setHeader Http.Set_ Http.Del Http.ReqHeader Http.Method Http.Target
          List.filter app fst negb String.eqb Ascii.eqb] in H.
    change (setHeader _ _ _) with (probeRequest target) in H.
    destruct (server E (probeRequest target)) as [pr|e] eqn:Hsrv.
    + destruct (Http.StatusCode pr =? Http.StatusPartialContent) eqn:Hst.
      * destruct (contentRangeTotal _) as [total|] eqn:Hcr;
          inversion H; subst; (split; [reflexivity|]);
          intros resp Hresp _; inversion Hresp; subst resp;
          (split; [reflexivity|]); rewrite Hcr; split; intros; simpl; congruence.
      * destruct (positiveLength _);
          inversion H; subst; (split; [reflexivity|]);
          intros resp Hresp Hs; inversion Hresp; subst resp;
          apply Z.eqb_neq in Hst; contradiction.
    + inversion H; subst. split; [reflexivity|]. intros resp Hresp. discriminate.
  - intros Hrs Hlen. rewrite Hrs in H. apply Z.eqb_neq in Hlen. rewrite Hlen in H.
    inversion H. auto.
Qed.

(** C4. When [NewHTTPDownloader] returns a downloader: if the HEAD probe
    has not confirmed range support or has found no length, a GET with
    [Range: bytes=0-0] is put on the wire; a 206 answer to it confirms range
    support whatever HEAD said, and the length becomes the total that
    [Content-Range] gives after its last slash; afterwards the parallelism
    is 1 when range support is not confirmed, and when the length is still
    unknown the parallelism is 1, the length is the sentinel 1 and the task
    is not resumable. *)
Theorem NewHTTPDownloader_probe (target : string) (par0 : Z) (skip : bool)
  (proxyServer bwLimit : string) (w w' : World) (d : HTTPDownloader) :
  NewHTTPDownloader E target par0 skip proxyServer bwLimit w = (Done d, w') ->
  exists p1 w1 p2 w2,
    headProbe E target w = (Done p1, w1)
    /\ rangeProbe E target p1 w1 = (Done p2, w2)
    /\ (rangeSupported p1 = false \/ lenValue p1 = 0 ->
          sent w2 = sent w1 ++ [probeRequest target]
          /\ forall resp,
               server E (probeRequest target) = Ok resp ->
               Http.StatusCode resp = Http.StatusPartialContent ->
               rangeSupported p2 = true
               /\ (forall total,
                     contentRangeTotal (Http.Get (Http.RespHeader resp) "Content-Range")
                     = Some total -> lenValue p2 = total)
               /\ (forall prefix total,
                     0 < total <= Int64.max_int ->
                     Http.Get (Http.RespHeader resp) "Content-Range"
                     = prefix +:+ "/" +:+ Strconv.FormatInt total ->
                     lenValue p2 = total))
    /\ (rangeSupported p1 = true -> lenValue p1 <> 0 -> p2 = p1 /\ sent w2 = sent w1)
    /\ (rangeSupported p2 = false -> par d = 1)
    /\ (lenValue p2 = 0 -> par d = 1 /\ len d = 1 /\ resumable d = false)
    /\ (lenValue p2 <> 0 ->
          len d = lenValue p2 /\ resumable d = true
          /\ (rangeSupported p2 = true -> par d = par0)).
Proof.
  unfold NewHTTPDownloader. intros H.
  apply bind_Done in H as (parsed & w0 & Hparse & H).
  apply bind_Done in H as (ips & w0' & Hips & H).
  apply bind_Done in H as (p1 & w1 & Hhead & H).
  apply bind_Done in H as (p2 & w2 & Hrange & H).
  assert (w0 = w /\ url_Parse E target = Some parsed) as [-> Hurl].
  { unfold lift, fatal in Hparse. destruct (url_Parse E target); inversion Hparse; auto. }
  assert (w0' = w) as ->.
  { unfold lift in Hips. by inversion Hips. }
  exists p1, w1, p2, w2. split; [exact Hhead|]. split; [exact Hrange|].
  assert (Hreq : NewRequest E "GET" target <> Err (ErrParseURL target)).
  { unfold NewRequest. rewrite Hurl. discriminate. }
  destruct (rangeProbe_spec _ _ _ _ _ Hrange Hreq) as [Hget Hskip].
  split.
  { intros Hor. destruct (Hget Hor) as [Hsent Hresp]. split; [exact Hsent|].
    intros resp Hsrv Hst. destruct (Hresp resp Hsrv Hst) as (Hrs & Htot & _).
    split; [exact Hrs|]. split; [exact Htot|].
    intros prefix total Ht Hcr. apply Htot. rewrite Hcr.
    by apply contentRangeTotal_suffix. }
  split; [exact Hskip|].
  unfold settle in H.
  destruct (lenValue p2 =? 0) eqn:Hlen.
  - apply bind_Done in H as (file & w3 & _ & H).
    apply bind_Done in H as (parts & w4 & _ & H).
    inversion H; subst; cbn [par len resumable].
    apply Z.eqb_eq in Hlen. repeat split; auto; try lia.
  - apply bind_Done in H as (file & w3 & _ & H).
    apply bind_Done in H as (parts & w4 & _ & H).
    inversion H; subst; cbn [par len resumable].
    apply Z.eqb_neq in Hlen.
    split; [intros ->; reflexivity|]. split; [lia|].
    intros _. repeat split; auto. intros ->. reflexivity.
Qed.

End ProbeFacts.

Lemma NewHTTPDownloader_probe_witness :
  exists d w',
    NewHTTPDownloader ProbeScenario.E ProbeScenario.target 4 false EmptyString EmptyString
      Scenario.world0 = (Done d, w')
    /\ In (probeRequest ProbeScenario.target) (sent w')
    /\ par d = 4 /\ len d = 4096 /\ resumable d = true.
Proof.
  eexists _, _. split; [vm_compute; reflexivity|].
  match goal with
  | |- In _ (sent ?w') /\ par ?d = _ /\ _ =>
      destruct (NewHTTPDownloader_probe ProbeScenario.E ProbeScenario.target 4 false
                  EmptyString EmptyString Scenario.world0 w' d)
        as (p1 & w1 & p2 & w2 & Hhead & Hrange & Hget & _ & _ & _ & Hlen)
  end.
  - vm_compute. reflexivity.
  - vm_compute in Hhead. inversion Hhead; subst p1 w1. clear Hhead.
    destruct (Hget (or_introl eq_refl)) as [Hsent Hresp].
    vm_compute in Hrange. inversion Hrange; subst p2 w2.
    split; [vm_compute; auto|].
    destruct Hlen as (Hl & Hr & Hp); [vm_compute; discriminate|].
    split; [apply Hp; reflexivity|]. split; [exact Hl|exact Hr].
Defined.

(** ** Task names and task folders *)

Section PathFacts.
Import Strings Filepath.

Lemma Contains_slash (s : string) : Contains s "/" = hasSlash s.
Proof.
  induction s as [|c s IH]; [reflexivity|].
  cbn [Contains HasPrefix hasSlash]. rewrite IH, andb_true_r. reflexivity.
Qed.

Lemma Contains_dotdot (s : string) : Contains s ".." = dotdot s.
Proof.
  induction s as [|c s IH]; [reflexivity|].
  cbn [Contains HasPrefix dotdot]. rewrite IH. f_equal. f_equal.
  destruct s as [|d s]; [reflexivity|]. cbn [HasPrefix]. by rewrite andb_true_r.
Qed.

(** A prefix and a suffix of a string without two dots in a row have none. *)
Lemma dotdot_app_l (a b : string) : dotdot (a +:+ b) = false -> dotdot a = false.
Proof.
  induction a as [|c a IH]; [reflexivity|].
  change (String c a +:+ b) with (String c (a +:+ b)). cbn [dotdot].
  intros H. apply orb_false_iff in H as [H1 H2]. rewrite (IH H2), orb_false_r.
  destruct a as [|d a]; [by rewrite andb_false_r|exact H1].
Qed.

Lemma dotdot_app_r (a b : string) : dotdot (a +:+ b) = false -> dotdot b = false.
Proof.
  induction a as [|c a IH]; [auto|].
  change (String c a +:+ b) with (String c (a +:+ b)). cbn [dotdot].
  intros H. apply orb_false_iff in H as [_ H2]. auto.
Qed.

(** Two strings without two dots in a row, put together around a
    separator. *)
Lemma dotdot_join (a b : string) :
  dotdot a = false -> dotdot b = false -> dotdot (a +:+ "/" +:+ b) = false.
Proof.
  intros Ha Hb. induction a as [|c a IH].
  - change (EmptyString +:+ "/" +:+ b) with (String "/" b). cbn [dotdot].
    rewrite Hb. reflexivity.
  - change (String c a +:+ "/" +:+ b) with (String c (a +:+ "/" +:+ b)).
    cbn [dotdot] in Ha |- *. apply orb_false_iff in Ha as [H1 H2].
    rewrite (IH H2), orb_false_r.
    destruct a as [|d a]; [by rewrite andb_false_r|exact H1].
Qed.

(** [TrimRight] keeps a prefix. *)
Lemma TrimRight_prefix (s cutset : string) : exists r, s = TrimRight s cutset +:+ r.
Proof.
  induction s as [|c s [r IH]]; [by exists EmptyString|].
  cbn [TrimRight]. destruct (TrimRight s cutset) as [|d t] eqn:Ht.
  - destruct (byte_in c cutset).
    + by exists (String c s).
    + exists s. reflexivity.
  - exists r. change (String c (String d t) +:+ r) with (String c (String d t +:+ r)).
    by rewrite <- IH.
Qed.

(** What [TrimRight] returns does not end with a byte of the cutset. *)
Lemma TrimRight_end (s cutset : string) (c : ascii) :
  byte_in c cutset = true -> Url.endsWith c (TrimRight s cutset) = false.
Proof.
  intros Hc. induction s as [|d s IH]; [reflexivity|].
  cbn [TrimRight]. destruct (TrimRight s cutset) as [|e t] eqn:Ht.
  - destruct (byte_in d cutset) eqn:Hd; [reflexivity|].
    cbn. destruct (Ascii.eqb_spec c d) as [->|]; [congruence|reflexivity].
  - exact IH.
Qed.

Lemma TrimRight_id (s : string) : Url.endsWith "/" s = false -> TrimRight s "/" = s.
Proof.
  induction s as [|c s IH]; [reflexivity|].
  cbn [TrimRight]. destruct s as [|d s].
  - cbn [Url.endsWith]. intros H. unfold byte_in.
    cbn [list_ascii_of_string existsb]. rewrite Ascii.eqb_sym, H. reflexivity.
  - intros H. rewrite IH by exact H. reflexivity.
Qed.

(** [lastElem] returns a suffix, free of separators, and an empty one only
    for a string that is empty or ends with a separator. *)
Lemma lastElem_suffix (s : string) : exists r, s = r +:+ lastElem s.
Proof.
  induction s as [|c s [r IH]]; [by exists EmptyString|].
  cbn [lastElem]. destruct (Contains s "/").
  - exists (String c r). change (String c r +:+ lastElem s) with (String c (r +:+ lastElem s)).
    by rewrite <- IH.
  - destruct (Ascii.eqb c "/").
    + exists (String c EmptyString). reflexivity.
    + by exists EmptyString.
Qed.

Lemma lastElem_no_slash (s : string) : hasSlash (lastElem s) = false.
Proof.
  induction s as [|c s IH]; [reflexivity|].
  cbn [lastElem]. destruct (Contains s "/") eqn:Hs; [exact IH|].
  rewrite Contains_slash in Hs.
  destruct (Ascii.eqb c "/") eqn:Hc; [exact Hs|].
  cbn [hasSlash]. rewrite Hs, Ascii.eqb_sym, Hc. reflexivity.
Qed.

Lemma lastElem_empty (s : string) :
  lastElem s = EmptyString -> s = EmptyString \/ Url.endsWith "/" s = true.
Proof.
  induction s as [|c s IH]; [auto|].
  cbn [lastElem]. destruct (Contains s "/") eqn:Hs.
  - intros H. right. destruct (IH H) as [->|He]; [discriminate|].
    destruct s; [discriminate|exact He].
  - destruct (Ascii.eqb c "/") eqn:Hc; [|discriminate].
    intros ->. right. cbn [Url.endsWith]. by rewrite Ascii.eqb_sym.
Qed.

(** [Base] of a trimmed path has no separator in it. *)
Lemma Base_trimmed_no_slash (x : string) : hasSlash (Base (TrimRight x "/\")) = false.
Proof.
  unfold Base. set (s := TrimRight x "/\").
  destruct (String.eqb_spec s EmptyString) as [|Hne]; [reflexivity|].
  assert (Hend : Url.endsWith "/" s = false) by (apply TrimRight_end; reflexivity).
  rewrite (TrimRight_id _ Hend).
  destruct (String.eqb_spec (lastElem s) EmptyString) as [He|_].
  - destruct (lastElem_empty _ He); congruence.
  - apply lastElem_no_slash.
Qed.

Lemma Base_dotdot (s : string) : dotdot s = false -> dotdot (Base s) = false.
Proof.
  intros Hs. unfold Base.
  destruct (String.eqb s EmptyString); [reflexivity|].
  destruct (String.eqb _ EmptyString); [reflexivity|].
  destruct (TrimRight_prefix s "/") as [r Hr].
  destruct (lastElem_suffix (TrimRight s "/")) as [q Hq].
  rewrite Hr in Hs. apply dotdot_app_l in Hs. rewrite Hq in Hs.
  by apply dotdot_app_r in Hs.
Qed.

(** The elements of a path without two dots in a row have none. *)
Lemma SplitSlash_head (s : string) :
  exists h r rest, SplitSlash s = h :: r /\ s = h +:+ rest.
Proof.
  induction s as [|c s (h & r & rest & Hs & Hrest)].
  - exists EmptyString, [], EmptyString. auto.
  - cbn [SplitSlash]. destruct (Ascii.eqb c "/").
    + exists EmptyString, (SplitSlash s), (String c s). auto.
    + rewrite Hs. exists (String c h), r, rest. split; [reflexivity|].
      change (String c h +:+ rest) with (String c (h +:+ rest)). by rewrite <- Hrest.
Qed.

Lemma SplitSlash_dotdot (s : string) :
  dotdot s = false -> Forall (fun e => dotdot e = false) (SplitSlash s).
Proof.
  induction s as [|c s IH]; intros Hs.
  - constructor; [reflexivity|constructor].
  - assert (Ht : dotdot s = false).
    { cbn [dotdot] in Hs. by apply orb_false_iff in Hs as [_ ?]. }
    specialize (IH Ht). cbn [SplitSlash]. destruct (Ascii.eqb c "/").
    + constructor; [reflexivity|exact IH].
    + destruct (SplitSlash_head s) as (h & r & rest & Hsp & Hrest).
      rewrite Hsp in IH |- *. apply Forall_cons in IH as [_ Hr].
      constructor; [|exact Hr].
      apply (dotdot_app_l _ rest).
      change (String c h +:+ rest) with (String c (h +:+ rest)). by rewrite <- Hrest.
Qed.

Lemma Join_dotdot (l : list string) :
  Forall (fun e => dotdot e = false) l -> dotdot (Join l "/") = false.
Proof.
  induction l as [|a l IH]; intros H; [reflexivity|].
  inversion H; subst. cbn [Join]. destruct l as [|b l]; [assumption|].
  apply dotdot_join; [assumption|]. apply IH. assumption.
Qed.

Lemma cleanStep_dotdot (rooted : bool) (out : list string) (e : string) :
  Forall (fun e => dotdot e = false) out -> dotdot e = false ->
  Forall (fun e => dotdot e = false) (cleanStep rooted out e).
Proof.
  intros Hout He. unfold cleanStep.
  destruct (String.eqb e EmptyString); [assumption|].
  destruct (String.eqb e "."); [assumption|].
  destruct (String.eqb_spec e "..") as [->|_]; [discriminate|].
  by constructor.
Qed.

Lemma fold_cleanStep_dotdot (rooted : bool) (elems out : list string) :
  Forall (fun e => dotdot e = false) elems ->
  Forall (fun e => dotdot e = false) out ->
  Forall (fun e => dotdot e = false) (fold_left (cleanStep rooted) elems out).
Proof.
  revert out. induction elems as [|e elems IH]; intros out He Hout; [assumption|].
  inversion He; subst. cbn [fold_left]. apply IH; [assumption|].
  by apply cleanStep_dotdot.
Qed.

(** [Clean] brings no two dots in a row into a path that has none. *)
Lemma Clean_dotdot (p : string) : dotdot p = false -> dotdot (Clean p) = false.
Proof.
  intros Hp. unfold Clean.
  destruct (String.eqb p EmptyString); [reflexivity|].
  set (out := rev (fold_left _ _ _)).
  assert (Hout : dotdot (Join out "/") = false).
  { apply Join_dotdot. subst out. apply Forall_rev.
    apply fold_cleanStep_dotdot; [by apply SplitSlash_dotdot|constructor]. }
  destruct (String.eqb _ EmptyString); [reflexivity|].
  destruct (HasPrefix p "/"); [|exact Hout].
  change ("/" +:+ Join out "/") with (String "/" (Join out "/")).
  cbn [dotdot]. rewrite Hout. reflexivity.
Qed.

End PathFacts.

Section TaskFacts.
Context (E : Env).
Import Strings Filepath.

(** C6, amended. Whatever [TaskFromURL] returns has no path separator in
    it; and when the path of the URL has no two dots in a row, the name
    has none either. Dots inside a name are kept as they are: the name of
    a file called [a..b] is [a..b]. *)
Theorem TaskFromURL_name (urlStr name : string) :
  TaskFromURL E urlStr = Done name ->
  Contains name "/" = false
  /\ forall u, url_Parse E urlStr = Some u ->
               Contains (Url.Path u) ".." = false -> Contains name ".." = false.
Proof.
  unfold TaskFromURL, mbind, outcome_bind, obind, fatal.
  destruct (url_Parse E urlStr) as [parsed|]; [|discriminate].
  intros H; inversion H; subst name; clear H. split.
  - rewrite Contains_slash. apply Base_trimmed_no_slash.
  - intros u Hu; inversion Hu; subst u. rewrite !Contains_dotdot. intros Hp.
    apply Base_dotdot.
    destruct (TrimRight_prefix (Clean (Url.Path parsed)) "/\") as [r Hr].
    apply (dotdot_app_l _ r). rewrite <- Hr. by apply Clean_dotdot.
Qed.

(** A URL whose path has two dots in a row is refused by [FolderOf] with
    the traversal error, whatever else the path holds. *)
Lemma FolderOf_rejects_dotdot (urlStr home : string) (u : Url.t) :
  user_HomeDir E = Some home ->
  url_Parse E urlStr = Some u ->
  Contains (Url.Path u) ".." = true ->
  FolderOf E urlStr = Panic ErrTraversal.
Proof.
  intros Hh Hu Hp. unfold FolderOf, mbind, outcome_bind, obind, fatal.
  by rewrite Hh, Hu, Hp.
Qed.

(** No disk is touched on the way: [Save] and [partCalculate] stop at the
    refusal and leave the world as it was. *)
Lemma Save_rejects_dotdot (s : State.t) (home : string) (u : Url.t) (w : World) :
  user_HomeDir E = Some home ->
  url_Parse E (State.URL s) = Some u ->
  Contains (Url.Path u) ".." = true ->
  Save E s w = (Panic ErrTraversal, w).
Proof.
  intros Hh Hu Hp. unfold Save, mbind, M_bind, bind, lift.
  by rewrite (FolderOf_rejects_dotdot _ _ _ Hh Hu Hp).
Qed.

Lemma partCalculate_rejects_dotdot (par len : Z) (target home : string) (u : Url.t)
  (w : World) :
  0 < par ->
  user_HomeDir E = Some home ->
  url_Parse E target = Some u ->
  Contains (Url.Path u) ".." = true ->
  partCalculate E par len target w = (Panic ErrTraversal, w).
Proof.
  intros Hpar Hh Hu Hp. unfold partCalculate.
  destruct (Z.ltb_spec par 0); [lia|].
  destruct (Z.to_nat par) as [|n] eqn:Hn; [lia|].
  cbn [partLoop]. unfold mbind, M_bind, bind, lift.
  rewrite (FolderOf_rejects_dotdot _ _ _ Hh Hu Hp).
  unfold TaskFromURL, mbind, outcome_bind, obind, fatal. by rewrite Hu.
Qed.

End TaskFacts.

(** C6 as stated fails on a name with dots inside it: the task name of a
    URL whose last path element is [a..b] is [a..b], which holds two dots
    in a row. *)
Lemma TaskFromURL_dotdot_counterexample :
  TaskFromURL (Scenario.env Scenario.noServer) "http://example.com/a..b" = Done "a..b"
  /\ Strings.Contains "a..b" ".." = true.
Proof. repeat split; vm_compute; reflexivity. Qed.

Lemma TaskFromURL_name_witness :
  TaskFromURL (Scenario.env Scenario.noServer) "https://download.com/file.tar.gz?token=123"
  = Done "file.tar.gz"
  /\ Strings.Contains "file.tar.gz" "/" = false
  /\ Strings.Contains "file.tar.gz" ".." = false.
Proof.
  split; [reflexivity|].
  destruct (TaskFromURL_name (Scenario.env Scenario.noServer)
              "https://download.com/file.tar.gz?token=123" "file.tar.gz")
    as [Hs Hd]; [reflexivity|].
  split; [exact Hs|].
  apply (Hd {| Url.Scheme := "https"; Url.Host := "download.com";
               Url.Path := "/file.tar.gz" |}); reflexivity.
Defined.

(** C7. [FolderOf] returns the data root itself, not a folder below it, for
    a URL with an empty path or the path [/]: the task name is then [.],
    the joined path is the root, the relative path from the root is [.],
    and the check for two dots lets it pass. The older copy in util.go
    does the same and, having no check of the raw path, also accepts a path
    that climbs. *)
Theorem FolderOf_returns_data_root :
  let E := Scenario.env Scenario.noServer in
  let root := Filepath.JoinPath ["/home/u"; dataFolder E] in
  root = "/home/u/.hget"
  /\ TaskFromURL E "http://foo.bar/" = Done "."
  /\ FolderOf E "http://foo.bar/" = Done root
  /\ FolderOf E "http://foo.bar" = Done root
  /\ Filepath.Rel root root = Some "."
  /\ FolderOf_util E "http://foo.bar/" = Done root
  /\ FolderOf_util E "http://foo.bar/../../../foobar" = Done "/home/u/.hget/foobar".
Proof. repeat split; vm_compute; reflexivity. Qed.

(** ** Save-then-read *)

(** ** UTF-8 and string literals *)

Section Utf8Facts.
Import Utf8.

Lemma byteZ_range (c : ascii) : 0 <= byteZ c < 256.
Proof.
  unfold byteZ. pose proof (N_ascii_bounded c). lia.
Qed.

Lemma zbyte_byteZ (c : ascii) : zbyte (byteZ c) = c.
Proof. unfold zbyte, byteZ. rewrite N2Z.id. apply ascii_N_embedding. Qed.

Lemma byteZ_zbyte (z : Z) : 0 <= z < 256 -> byteZ (zbyte z) = z.
Proof.
  intros H. unfold zbyte, byteZ. rewrite N_ascii_embedding by lia. lia.
Qed.

(** Comparisons of integers that linear arithmetic settles. *)
Ltac zbool :=
  repeat match goal with
    | |- context [?a <? ?b] =>
        first [rewrite (proj2 (Z.ltb_lt a b)) by lia | rewrite (proj2 (Z.ltb_ge a b)) by lia]
    | |- context [?a <=? ?b] =>
        first [rewrite (proj2 (Z.leb_le a b)) by lia | rewrite (proj2 (Z.leb_gt a b)) by lia]
    | |- context [?a =? ?b] =>
        first [rewrite (proj2 (Z.eqb_eq a b)) by lia | rewrite (proj2 (Z.eqb_neq a b)) by lia]
    end.

Ltac divmod := Z.div_mod_to_equations; lia.

Lemma between_spec (lo hi : Z) (c : ascii) :
  between lo hi c = true <-> lo <= byteZ c <= hi.
Proof. unfold between. rewrite andb_true_iff, Z.leb_le, Z.leb_le. tauto. Qed.

(** A well-formed sequence is the encoding of the rune it decodes to, and
    is decoded the same whatever follows it. *)
Lemma DecodeRune_encode (s : string) (r : Z) (n : nat) :
  DecodeRune s = (r, n) -> s <> EmptyString ->
  (r =? RuneError) && Nat.eqb n 1 = false ->
  exists rest,
    s = EncodeRune r +:+ rest
    /\ String.length (EncodeRune r) = n
    /\ forall X, DecodeRune (EncodeRune r +:+ X) = (r, n).
Proof.
  intros H Hne Hv. destruct s as [|b0 t]; [congruence|]. clear Hne.
  cbn [DecodeRune] in H. cbv zeta in H.
  pose proof (byteZ_range b0) as Hx.
  pose proof (zbyte_byteZ b0) as Hb0.
  remember (byteZ b0) as x eqn:Ex.
  destruct (Z.ltb_spec x 128).
  { injection H as <- <-. exists t. unfold EncodeRune. zbool. cbn [andb].
    unfold str1. rewrite Hb0. split; [reflexivity|]. split; [reflexivity|].
    intros X. change (String b0 EmptyString +:+ X) with (String b0 X).
    cbn [DecodeRune]. cbv zeta. rewrite <- Ex. zbool. reflexivity. }
  destruct (Z.leb_spec 194 x); cbn [andb] in H.
  2:{ destruct (Z.leb_spec 224 x); cbn [andb] in H; [lia|].
      destruct (Z.leb_spec 240 x); cbn [andb] in H; [lia|].
      inversion H; subst. discriminate. }
  destruct (Z.leb_spec x 223); cbn [andb] in H.
  { destruct t as [|b1 t1]; [inversion H; subst; discriminate|].
    destruct (between 128 191 b1) eqn:Hc1; [|inversion H; subst; discriminate].
    apply between_spec in Hc1. pose proof (zbyte_byteZ b1) as Hb1.
    remember (byteZ b1) as y eqn:Ey.
    injection H as <- <-. exists t1. unfold EncodeRune. zbool. cbn [andb orb].
    replace (((x - 192) * 64 + (y - 128)) / 64) with (x - 192) by divmod.
    replace (((x - 192) * 64 + (y - 128)) mod 64) with (y - 128) by divmod.
    replace (192 + (x - 192)) with x by lia. replace (128 + (y - 128)) with y by lia.
    unfold str2, str1. rewrite Hb0, Hb1.
    split; [reflexivity|]. split; [reflexivity|].
    intros X. change (String b0 (String b1 EmptyString) +:+ X) with (String b0 (String b1 X)).
    cbn [DecodeRune]. cbv zeta. unfold between. rewrite <- Ex, <- Ey. zbool. reflexivity. }
  destruct (Z.leb_spec 224 x); cbn [andb] in H; [|lia].
  destruct (Z.leb_spec x 239); cbn [andb] in H.
  { destruct t as [|b1 [|b2 t2]]; try (inversion H; subst; discriminate).
    destruct (between _ _ b1 && between 128 191 b2) eqn:Hc12;
      [|inversion H; subst; discriminate].
    apply andb_true_iff in Hc12 as [Hc1 Hc2].
    apply between_spec in Hc1, Hc2.
    pose proof (zbyte_byteZ b1) as Hb1. pose proof (zbyte_byteZ b2) as Hb2.
    remember (byteZ b1) as y eqn:Ey. remember (byteZ b2) as z eqn:Ez.
    assert (Hy : (if x =? 224 then 160 else 128) <= y <= (if x =? 237 then 159 else 191))
      by exact Hc1.
    clear Hc1.
    injection H as <- <-. exists t2.
    assert (Hy' : 128 <= y <= 191).
    { revert Hy. destruct (Z.eqb_spec x 224); destruct (Z.eqb_spec x 237); intros Hy; lia. }
    assert (Hlo : 2048 <= (x - 224) * 4096 + (y - 128) * 64 + (z - 128) < 65536).
    { revert Hy. destruct (Z.eqb_spec x 224); destruct (Z.eqb_spec x 237); intros Hy; lia. }
    assert (Hsur : (55296 <=? (x - 224) * 4096 + (y - 128) * 64 + (z - 128))
                   && ((x - 224) * 4096 + (y - 128) * 64 + (z - 128) <=? 57343) = false).
    { revert Hy. destruct (Z.eqb_spec x 224); destruct (Z.eqb_spec x 237); intros Hy;
        destruct (Z.leb_spec 55296 ((x - 224) * 4096 + (y - 128) * 64 + (z - 128)));
        destruct (Z.leb_spec ((x - 224) * 4096 + (y - 128) * 64 + (z - 128)) 57343);
        try reflexivity; lia. }
    unfold EncodeRune, MaxRune. rewrite Hsur. zbool. cbn [andb orb].
    replace (((x - 224) * 4096 + (y - 128) * 64 + (z - 128)) / 4096) with (x - 224) by divmod.
    replace ((((x - 224) * 4096 + (y - 128) * 64 + (z - 128)) / 64) mod 64) with (y - 128)
      by divmod.
    replace (((x - 224) * 4096 + (y - 128) * 64 + (z - 128)) mod 64) with (z - 128) by divmod.
    replace (224 + (x - 224)) with x by lia. replace (128 + (y - 128)) with y by lia.
    replace (128 + (z - 128)) with z by lia.
    unfold str3, str2, str1. rewrite Hb0, Hb1, Hb2.
    split; [reflexivity|]. split; [reflexivity|].
    intros X.
    change (String b0 (String b1 (String b2 EmptyString)) +:+ X)
      with (String b0 (String b1 (String b2 X))).
    cbn [DecodeRune]. cbv zeta. unfold between. rewrite <- Ex, <- ?Ey, <- ?Ez.
    revert Hy. destruct (Z.eqb_spec x 224); destruct (Z.eqb_spec x 237); intros Hy;
      try (exfalso; lia); zbool; reflexivity. }
  destruct (Z.leb_spec 240 x); cbn [andb] in H; [|lia].
  destruct (Z.leb_spec x 244); cbn [andb] in H; [|inversion H; subst; discriminate].
  destruct t as [|b1 [|b2 [|b3 t3]]]; try (inversion H; subst; discriminate).
  destruct (between _ _ b1 && between 128 191 b2 && between 128 191 b3) eqn:Hc123;
    [|inversion H; subst; discriminate].
  apply andb_true_iff in Hc123 as [Hc12 Hc3]. apply andb_true_iff in Hc12 as [Hc1 Hc2].
  apply between_spec in Hc1, Hc2, Hc3.
  pose proof (zbyte_byteZ b1) as Hb1. pose proof (zbyte_byteZ b2) as Hb2.
  pose proof (zbyte_byteZ b3) as Hb3.
  remember (byteZ b1) as y eqn:Ey. remember (byteZ b2) as z eqn:Ez.
  remember (byteZ b3) as v eqn:Ev.
  assert (Hy : (if x =? 240 then 144 else 128) <= y <= (if x =? 244 then 143 else 191))
    by exact Hc1.
  clear Hc1.
  injection H as <- <-. exists t3.
  assert (Hy' : 128 <= y <= 191).
  { revert Hy. destruct (Z.eqb_spec x 240); destruct (Z.eqb_spec x 244); intros Hy; lia. }
  assert (Hlo : 65536 <= (x - 240) * 262144 + (y - 128) * 4096 + (z - 128) * 64 + (v - 128)
                <= 1114111).
  { revert Hy. destruct (Z.eqb_spec x 240); destruct (Z.eqb_spec x 244); intros Hy; lia. }
  unfold EncodeRune, MaxRune. zbool. cbn [andb orb].
  replace (((x - 240) * 262144 + (y - 128) * 4096 + (z - 128) * 64 + (v - 128)) / 262144)
    with (x - 240) by divmod.
  replace ((((x - 240) * 262144 + (y - 128) * 4096 + (z - 128) * 64 + (v - 128)) / 4096) mod 64)
    with (y - 128) by divmod.
  replace ((((x - 240) * 262144 + (y - 128) * 4096 + (z - 128) * 64 + (v - 128)) / 64) mod 64)
    with (z - 128) by divmod.
  replace (((x - 240) * 262144 + (y - 128) * 4096 + (z - 128) * 64 + (v - 128)) mod 64)
    with (v - 128) by divmod.
  replace (240 + (x - 240)) with x by lia. replace (128 + (y - 128)) with y by lia.
  replace (128 + (z - 128)) with z by lia. replace (128 + (v - 128)) with v by lia.
  unfold str4, str3, str2, str1. rewrite Hb0, Hb1, Hb2, Hb3.
  split; [reflexivity|]. split; [reflexivity|].
  intros X.
  change (String b0 (String b1 (String b2 (String b3 EmptyString))) +:+ X)
    with (String b0 (String b1 (String b2 (String b3 X)))).
  cbn [DecodeRune]. cbv zeta. unfold between. rewrite <- Ex, <- ?Ey, <- ?Ez, <- ?Ev.
  revert Hy. destruct (Z.eqb_spec x 240); destruct (Z.eqb_spec x 244); intros Hy;
    try (exfalso; lia); zbool; reflexivity.
Qed.

End Utf8Facts.

Section LiteralFacts.
Import Strings Utf8 Json.

Lemma append_assoc (a b c : string) : (a +:+ b) +:+ c = a +:+ (b +:+ c).
Proof.
  induction a as [|x a IH]; [reflexivity|].
  change ((String x a +:+ b) +:+ c) with (String x ((a +:+ b) +:+ c)).
  by rewrite IH.
Qed.

Lemma append_cons (c : ascii) (a b : string) : String c a +:+ b = String c (a +:+ b).
Proof. reflexivity. Qed.

Lemma append_nil_l (b : string) : EmptyString +:+ b = b.
Proof. reflexivity. Qed.

Lemma append_nil_r (a : string) : a +:+ EmptyString = a.
Proof. induction a as [|c a IH]; [reflexivity|]. by rewrite append_cons, IH. Qed.

Lemma take_append (a b : string) : take (String.length a) (a +:+ b) = a.
Proof.
  induction a as [|x a IH]; [by destruct b|].
  change (String x a +:+ b) with (String x (a +:+ b)). cbn [String.length take].
  by rewrite IH.
Qed.

Lemma drop_append (a b : string) : drop (String.length a) (a +:+ b) = b.
Proof. induction a as [|x a IH]; [reflexivity|exact IH]. Qed.

Lemma EncodeRune_nonempty (r : Z) : EncodeRune r <> EmptyString.
Proof.
  unfold EncodeRune.
  destruct (_ && _); [discriminate|]. destruct (_ && _); [discriminate|].
  destruct (_ || _); [discriminate|]. destruct (_ <? _); discriminate.
Qed.

(** One ASCII byte of a string, written and read back. *)
Lemma unquote_ascii (b : ascii) (fuel : nat) (X : string) :
  byteZ b < 128 ->
  unquoteAux (S fuel) (escapeByte b +:+ X)
  = ('(r, rest) ← unquoteAux fuel X; Some (String b r, rest)).
Proof.
  intros H. destruct b as [[] [] [] [] [] [] [] []];
    try (vm_compute in H; discriminate); reflexivity.
Qed.

(** The two separators that are written as escapes, read back. *)
Lemma unquote_separator (c : Z) (fuel : nat) (X : string) :
  c = 8232 \/ c = 8233 ->
  unquoteAux (S fuel) (String bs "u202" +:+ String (hexDigit (c mod 16)) X)
  = ('(r, rest) ← unquoteAux fuel X; Some (EncodeRune c +:+ r, rest)).
Proof. intros [-> | ->]; reflexivity. Qed.

(** A sequence of two to four bytes, which is written as it is, read
    back. *)
Lemma unquote_raw (s : string) (c : Z) (size fuel : nat) (X : string) :
  DecodeRune s = (c, size) ->
  (forall Y, DecodeRune (EncodeRune c +:+ Y) = (c, size)) ->
  String.length (EncodeRune c) = size ->
  (exists b t, EncodeRune c = String b t /\ 128 <= byteZ b) ->
  unquoteAux (S fuel) (EncodeRune c +:+ X)
  = ('(r, rest) ← unquoteAux fuel X; Some (EncodeRune c +:+ r, rest)).
Proof.
  intros Hd Hdec Hlen (b & t & He & Hb).
  pose proof (Hdec X) as HX. pose proof (drop_append (EncodeRune c) X) as Hdrop.
  rewrite Hlen in Hdrop. revert HX Hdrop. rewrite He.
  change (String b t +:+ X) with (String b (t +:+ X)). intros HX Hdrop.
  cbn [unquoteAux].
  assert (Hdq : Ascii.eqb b dq = false).
  { apply Ascii.eqb_neq. intros ->. vm_compute in Hb. apply Hb. reflexivity. }
  assert (Hbs : Ascii.eqb b bs = false).
  { apply Ascii.eqb_neq. intros ->. vm_compute in Hb. apply Hb. reflexivity. }
  rewrite Hdq, Hbs.
  destruct (Z.ltb_spec (byteZ b) 32); [lia|].
  destruct (Z.ltb_spec (byteZ b) 128); [lia|].
  rewrite HX, Hdrop, He. reflexivity.
Qed.

Lemma length_append (a b : string) :
  String.length (a +:+ b) = (String.length a + String.length b)%nat.
Proof.
  induction a as [|c a IH]; [reflexivity|].
  change (String c a +:+ b) with (String c (a +:+ b)). simpl. by rewrite IH.
Qed.

Lemma escapeByte_nonempty (b : ascii) : (1 <= String.length (escapeByte b))%nat.
Proof.
  unfold escapeByte.
  destruct (htmlSafe b); [cbn [String.length]; lia|].
  cbv zeta.
  repeat match goal with
         | |- context [if ?c then _ else _] => destruct c; [cbn [String.length]; lia|]
         end.
  cbn [String.length]; lia.
Qed.

(** A valid string, written as a literal and read back. *)
Lemma unquote_quote (n : nat) :
  forall (s rest : string) (fuel : nat),
    (String.length s <= n)%nat -> validAux n s = true ->
    (String.length (quoteAux n s) < fuel)%nat ->
    unquoteAux fuel (quoteAux n s +:+ String dq rest) = Some (s, rest).
Proof.
  induction n as [|n IH]; intros s rest fuel Hlen Hv Hfuel.
  - destruct s; [|simpl in Hlen; lia]. destruct fuel; [simpl in Hfuel; lia|]. reflexivity.
  - destruct s as [|b t]; [destruct fuel; [simpl in Hfuel; lia|]; reflexivity|].
    destruct fuel as [|fuel]; [lia|].
    cbn [String.length] in Hlen.
    cbn [validAux quoteAux] in Hv, Hfuel |- *.
    destruct (DecodeRune (String b t)) as [c size] eqn:Hd.
    destruct ((c =? RuneError) && Nat.eqb size 1) eqn:Hbad; [discriminate|].
    destruct (DecodeRune_encode _ _ _ Hd ltac:(discriminate) Hbad) as (r' & Hs & Hsz & Hdec).
    assert (Hdrop : drop size (String b t) = r').
    { rewrite Hs at 1. rewrite <- Hsz. apply drop_append. }
    assert (Htake : take size (String b t) = EncodeRune c).
    { rewrite Hs at 1. rewrite <- Hsz. apply take_append. }
    assert (Hr1 : (String.length r' <= n)%nat).
    { assert (String.length (String b t) = (size + String.length r')%nat) as Hl.
      { rewrite Hs at 1. rewrite <- Hsz. apply length_append. }
      cbn [String.length] in Hl.
      assert (size <> O).
      { rewrite <- Hsz. pose proof (EncodeRune_nonempty c). destruct (EncodeRune c);
          [congruence|discriminate]. }
      lia. }
    rewrite Hdrop in Hv, Hfuel |- *.
    destruct (Z.ltb_spec (byteZ b) 128) as [Hlow|Hhigh].
    + (* one ASCII byte *)
      assert (size = 1%nat /\ r' = t) as [-> ->].
      { cbn [DecodeRune] in Hd. cbv zeta in Hd.
        destruct (Z.ltb_spec (byteZ b) 128); [|lia].
        injection Hd as <- <-. split; [reflexivity|]. symmetry. exact Hdrop. }
      rewrite length_append in Hfuel. pose proof (escapeByte_nonempty b).
      rewrite append_assoc, unquote_ascii by exact Hlow.
      rewrite (IH t rest fuel Hr1 Hv ltac:(lia)). reflexivity.
    + assert (Hhead : exists b' t', EncodeRune c = String b' t' /\ 128 <= byteZ b').
      { destruct (EncodeRune c) as [|b' t'] eqn:He; [by apply EncodeRune_nonempty in He|].
        exists b', t'. split; [reflexivity|].
        change (String b' t' +:+ r') with (String b' (t' +:+ r')) in Hs.
        injection Hs as <- _. exact Hhigh. }
      destruct ((c =? 8232) || (c =? 8233)) eqn:Hsep.
      * assert (c = 8232 \/ c = 8233) as Hc.
        { apply orb_true_iff in Hsep as [H|H]; apply Z.eqb_eq in H; auto. }
        rewrite append_assoc, (append_cons (hexDigit (c mod 16)) (quoteAux n r')).
        rewrite (unquote_separator c fuel _ Hc).
        change (String bs "u202" +:+ String (hexDigit (c mod 16)) (quoteAux n r'))
          with (String bs (String "u" (String "2" (String "0" (String "2"
                  (String (hexDigit (c mod 16)) (quoteAux n r')))))))
          in Hfuel.
        cbn [String.length] in Hfuel.
        rewrite (IH r' rest fuel Hr1 Hv ltac:(lia)). cbn. by rewrite <- Hs.
      * rewrite Htake, append_assoc.
        rewrite (unquote_raw _ c size fuel _ Hd Hdec Hsz Hhead).
        rewrite Htake, length_append in Hfuel.
        assert (1 <= String.length (EncodeRune c))%nat.
        { destruct Hhead as (b' & t' & -> & _). simpl. lia. }
        rewrite (IH r' rest fuel Hr1 Hv ltac:(lia)). cbn. by rewrite <- Hs.
Qed.

(** The literal of a valid string is read back as the string. *)
Lemma unquote_literal (s rest : string) (fuel : nat) :
  ValidString s = true ->
  (String.length (quoteAux (String.length s) s) < fuel)%nat ->
  unquoteAux fuel (quoteAux (String.length s) s +:+ String dq rest) = Some (s, rest).
Proof. intros Hv Hf. apply unquote_quote; [lia|exact Hv|exact Hf]. Qed.

End LiteralFacts.

Section ScanFacts.
Import Strings Strconv Utf8 Json.

(** The first digit written for a positive number is not a zero. *)
Lemma digitsAux_leading (fuel : nat) :
  forall (z : Z) (acc : string),
    0 < z < 2 ^ Z.of_nat fuel ->
    exists c t, digitsAux fuel z acc = String c t /\ isDigit c = true /\ c <> "0"%char.
Proof.
  induction fuel as [|fuel IH]; intros z acc Hz; [simpl in Hz; lia|].
  cbn [digitsAux]. destruct (Z.ltb_spec z 10).
  - exists (digit (z mod 10)), acc. split; [reflexivity|].
    rewrite Z.mod_small by lia.
    assert (z = 1 \/ z = 2 \/ z = 3 \/ z = 4 \/ z = 5 \/ z = 6 \/ z = 7 \/ z = 8 \/ z = 9)
      as Hd by lia.
    repeat (destruct Hd as [->|Hd]; [split; [reflexivity|discriminate]|]).
    subst. split; [reflexivity|discriminate].
  - apply IH. split; [apply Z.div_str_pos; lia|].
    apply Z.div_lt_upper_bound; [lia|].
    rewrite Nat2Z.inj_succ, Z.pow_succ_r in Hz by lia. lia.
Qed.

Lemma digits_leading (z : Z) :
  0 < z -> exists c t, digits z = String c t /\ isDigit c = true /\ c <> "0"%char.
Proof.
  intros Hz. apply digitsAux_leading. pose proof (digits_fuel z ltac:(lia)). lia.
Qed.

(** A run of digits is read up to the first byte that is no digit. *)
Lemma spanDigits_append (d : string) (c : ascii) (rest : string) :
  allDigits d = true -> isDigit c = false ->
  spanDigits (d +:+ String c rest) = (d, String c rest).
Proof.
  intros Hd Hc. induction d as [|x d IH].
  - rewrite append_nil_l. cbn [spanDigits]. by rewrite Hc.
  - cbn [allDigits] in Hd. apply andb_true_iff in Hd as [Hx Hd].
    rewrite append_cons. cbn [spanDigits]. rewrite Hx, (IH Hd). reflexivity.
Qed.

Lemma scan_digit_head (c : ascii) (t : string) :
  isDigit c = true ->
  match String c t with
  | String "-" t' => ("-", t')
  | _ => (EmptyString, String c t)
  end = (EmptyString, String c t).
Proof.
  destruct c as [[] [] [] [] [] [] [] []]; intros H;
    try (vm_compute in H; discriminate); reflexivity.
Qed.

Lemma scan_int_head (c : ascii) (t : string) :
  isDigit c = true -> c <> "0"%char ->
  match String c t with
  | String "0" t' => Some ("0", t')
  | _ => let '(d, r) := spanDigits (String c t) in
         if String.eqb d "" then None else Some (d, r)
  end
  = (let '(d, r) := spanDigits (String c t) in
     if String.eqb d "" then None else Some (d, r)).
Proof.
  destruct c as [[] [] [] [] [] [] [] []]; intros H Hne;
    try (vm_compute in H; discriminate); try reflexivity.
  congruence.
Qed.

Lemma scan_tail (c : ascii) (rest : string) (sg lit : string) :
  delimiter c ->
  ('(frac, s3) ←
     match String c rest with
     | String "." t =>
         let '(d, r) := spanDigits t in
         if String.eqb d "" then None else Some (String "." d, r)
     | _ => Some (EmptyString, String c rest)
     end;
   '(exp, s4) ←
     match s3 with
     | String e t =>
         if Ascii.eqb e "e" || Ascii.eqb e "E" then
           let '(sg, t1) :=
             match t with
             | String "+" u => ("+", u)
             | String "-" u => ("-", u)
             | _ => (EmptyString, t)
             end in
           let '(d, r) := spanDigits t1 in
           if String.eqb d "" then None else Some (String e (sg +:+ d), r)
         else Some (EmptyString, s3)
     | EmptyString => Some (EmptyString, s3)
     end;
   Some (sg +:+ lit +:+ frac +:+ exp, s4))
  = Some (sg +:+ lit, String c rest).
Proof.
  intros [-> | [-> | ->]]; cbn; by rewrite !append_nil_r.
Qed.

(** A decimal number followed by a delimiter is scanned as it was
    written. *)
Lemma scanNumber_FormatInt (z : Z) (c : ascii) (rest : string) :
  delimiter c ->
  scanNumber (FormatInt z +:+ String c rest) = Some (FormatInt z, String c rest).
Proof.
  intros Hc.
  assert (Hnd : isDigit c = false) by (destruct Hc as [-> | [-> | ->]]; reflexivity).
  assert (Hpos : forall n, 0 <= n ->
            ('(int, s2) ←
               match digits n +:+ String c rest with
               | String "0" t => Some ("0", t)
               | _ => let '(d, r) := spanDigits (digits n +:+ String c rest) in
                      if String.eqb d "" then None else Some (d, r)
               end;
             Some (int, s2)) = Some (digits n, String c rest)).
  { intros n Hn. destruct (Z.eq_dec n 0) as [->|Hne].
    - reflexivity.
    - destruct (digits_leading n ltac:(lia)) as (x & t & Hd & Hx & Hx0).
      pose proof (allDigits_digits n Hn) as Hall.
      pose proof (spanDigits_append (digits n) c rest Hall Hnd) as Hspan.
      revert Hspan. rewrite Hd, append_cons. intros Hspan.
      rewrite (scan_int_head x _ Hx Hx0), Hspan. reflexivity. }
  unfold scanNumber, FormatInt. destruct (Z.ltb_spec z 0).
  - rewrite append_cons.
    specialize (Hpos (- z) ltac:(lia)).
    destruct (match digits (- z) +:+ String c rest with
              | String "0" t => Some ("0", t)
              | _ => let '(d, r) := spanDigits (digits (- z) +:+ String c rest) in
                     if String.eqb d "" then None else Some (d, r)
              end) as [[int s2]|]; [|discriminate].
    injection Hpos as -> ->. cbn [mbind option_bind].
    exact (scan_tail c rest "-" _ Hc).
  - destruct (digits_head z ltac:(lia)) as (x & t & Hd & Hx).
    pose proof (Hpos z ltac:(lia)) as Hp. revert Hp.
    rewrite Hd, append_cons. rewrite (scan_digit_head x _ Hx). intros Hp.
    destruct (match String x (t +:+ String c rest) with
              | String "0" t0 => Some ("0", t0)
              | _ => let '(d, r) := spanDigits (String x (t +:+ String c rest)) in
                     if String.eqb d "" then None else Some (d, r)
              end) as [[int s2]|]; [|discriminate].
    injection Hp as -> ->. cbn [mbind option_bind].
    exact (scan_tail c rest "" _ Hc).
Qed.

End ScanFacts.

Section ParseFacts.
Import Strings Strconv Utf8 Json.

Lemma isDigit_head (c : ascii) (f : nat) (t : string) :
  isDigit c = true \/ c = "-"%char ->
  parseValue (S f) (String c t) = ('(lit, r) ← scanNumber (String c t); Some (JNum lit, r)).
Proof.
  intros H. destruct c as [[] [] [] [] [] [] [] []];
    try (destruct H as [H|H]; [vm_compute in H; discriminate H|discriminate H]);
    reflexivity.
Qed.

(** A number, then a delimiter. *)
Lemma parseValue_number (z : Z) (c : ascii) (rest : string) (f : nat) :
  delimiter c ->
  parseValue (S f) (FormatInt z +:+ String c rest)
  = Some (JNum (FormatInt z), String c rest).
Proof.
  intros Hc. pose proof (scanNumber_FormatInt z c rest Hc) as Hscan.
  assert (exists x t, FormatInt z = String x t /\ (isDigit x = true \/ x = "-"%char))
    as (x & t & Hx & Hhead).
  { unfold FormatInt. destruct (Z.ltb_spec z 0).
    - eexists _, _. split; [reflexivity|]. by right.
    - destruct (digits_head z ltac:(lia)) as (x & t & Hd & Hx).
      exists x, t. split; [exact Hd|]. by left. }
  revert Hscan. rewrite Hx, append_cons. intros Hscan.
  rewrite (isDigit_head x f _ Hhead), Hscan. reflexivity.
Qed.

(** A string literal. *)
Lemma parseValue_string (s rest : string) (f : nat) :
  ValidString s = true ->
  parseValue (S f) (quote s +:+ rest) = Some (JStr s, rest).
Proof.
  intros Hv. unfold quote. rewrite append_cons, append_assoc, append_cons, append_nil_l.
  change (parseValue (S f) (String dq (quoteAux (String.length s) s +:+ String dq rest)))
    with ('(str, r) ← unquoteAux
                        (String.length (quoteAux (String.length s) s +:+ String dq rest))
                        (quoteAux (String.length s) s +:+ String dq rest);
          Some (JStr str, r)).
  rewrite unquote_literal; [reflexivity|exact Hv|].
  rewrite length_append. cbn [String.length]. lia.
Qed.

(** A key that is written as it is, read back. *)
Lemma unquote_key (k R : string) :
  plain k ->
  unquoteAux (String.length (k +:+ String dq R)) (k +:+ String dq R) = Some (k, R).
Proof.
  intros [Hq Hv].
  pose proof (unquote_literal k R (String.length (k +:+ String dq R)) Hv) as Hk.
  rewrite Hq in Hk. apply Hk. rewrite length_append. cbn [String.length]. lia.
Qed.

End ParseFacts.

Section DocumentFacts.
Import Strings Strconv Utf8 Json.

Lemma parseMembers_more (k V X : string) (v : value) (ms : list (string * value))
    (r : string) (f : nat) :
  plain k ->
  parseValue f (V +:+ String "," X) = Some (v, String "," X) ->
  parseMembers f X = Some (ms, r) ->
  parseMembers (S f) (member k V +:+ String "," X) = Some ((k, v) :: ms, r).
Proof.
  intros Hk HV HX. unfold member.
  rewrite !append_assoc, !append_cons, append_nil_l.
  pose proof (unquote_key k (String ":" (V +:+ String "," X)) Hk) as Hkey.
  change (parseMembers (S f) (String dq (k +:+ String dq (String ":" (V +:+ String "," X)))))
    with ('(k', r0) ← unquoteAux
             (String.length (k +:+ String dq (String ":" (V +:+ String "," X))))
             (k +:+ String dq (String ":" (V +:+ String "," X)));
          match skipWS r0 with
          | String ":" r1 =>
              '(v', r2) ← parseValue f r1;
              match skipWS r2 with
              | String "," r3 => '(ms', r4) ← parseMembers f r3; Some ((k', v') :: ms', r4)
              | String "}" r3 => Some ([(k', v')], r3)
              | _ => None
              end
          | _ => None
          end).
  rewrite Hkey.
  change (('(v', r2) ← parseValue f (V +:+ String "," X);
           match skipWS r2 with
           | String "," r3 => '(ms', r4) ← parseMembers f r3; Some ((k, v') :: ms', r4)
           | String "}" r3 => Some ([(k, v')], r3)
           | _ => None
           end) = Some ((k, v) :: ms, r)).
  rewrite HV.
  change (('(ms', r4) ← parseMembers f X; Some ((k, v) :: ms', r4)) = Some ((k, v) :: ms, r)).
  rewrite HX. reflexivity.
Qed.

Lemma parseMembers_last (k V X : string) (v : value) (f : nat) :
  plain k ->
  parseValue f (V +:+ String "}" X) = Some (v, String "}" X) ->
  parseMembers (S f) (member k V +:+ String "}" X) = Some ([(k, v)], X).
Proof.
  intros Hk HV. unfold member.
  rewrite !append_assoc, !append_cons, append_nil_l.
  pose proof (unquote_key k (String ":" (V +:+ String "}" X)) Hk) as Hkey.
  change (parseMembers (S f) (String dq (k +:+ String dq (String ":" (V +:+ String "}" X)))))
    with ('(k', r0) ← unquoteAux
             (String.length (k +:+ String dq (String ":" (V +:+ String "}" X))))
             (k +:+ String dq (String ":" (V +:+ String "}" X)));
          match skipWS r0 with
          | String ":" r1 =>
              '(v', r2) ← parseValue f r1;
              match skipWS r2 with
              | String "," r3 => '(ms', r4) ← parseMembers f r3; Some ((k', v') :: ms', r4)
              | String "}" r3 => Some ([(k', v')], r3)
              | _ => None
              end
          | _ => None
          end).
  rewrite Hkey.
  change (('(v', r2) ← parseValue f (V +:+ String "}" X);
           match skipWS r2 with
           | String "," r3 => '(ms', r4) ← parseMembers f r3; Some ((k, v') :: ms', r4)
           | String "}" r3 => Some ([(k, v')], r3)
           | _ => None
           end) = Some ([(k, v)], X)).
  rewrite HV. reflexivity.
Qed.

Lemma plain_Index : plain "Index".
Proof. split; reflexivity. Qed.
Lemma plain_URL : plain "URL".
Proof. split; reflexivity. Qed.
Lemma plain_Path : plain "Path".
Proof. split; reflexivity. Qed.
Lemma plain_RangeFrom : plain "RangeFrom".
Proof. split; reflexivity. Qed.
Lemma plain_RangeTo : plain "RangeTo".
Proof. split; reflexivity. Qed.
Lemma plain_Parts : plain "Parts".
Proof. split; reflexivity. Qed.

Lemma marshalPart_append (p : Part.t) (X : string) :
  marshalPart p +:+ X
  = String "{"
      (member "Index" (FormatInt (Part.Index p)) +:+ String ","
      (member "URL" (quote (Part.URL p)) +:+ String ","
      (member "Path" (quote (Part.Path p)) +:+ String ","
      (member "RangeFrom" (FormatInt (Part.RangeFrom p)) +:+ String ","
      (member "RangeTo" (FormatInt (Part.RangeTo p)) +:+ String "}" X))))).
Proof. unfold marshalPart. rewrite !append_assoc. reflexivity. Qed.

Lemma parseValue_object (f : nat) (k V t : string) :
  parseValue (S f) (String "{" (member k V +:+ t))
  = '(ms, r) ← parseMembers f (member k V +:+ t); Some (JObj ms, r).
Proof. reflexivity. Qed.

(** One part. *)
Lemma parseValue_part (p : Part.t) (X : string) (f : nat) :
  validPart p -> (7 <= f)%nat ->
  parseValue f (marshalPart p +:+ X) = Some (partValue p, X).
Proof.
  intros (Hi & Hu & Hp & Hf & Ht) Hfuel.
  do 7 (destruct f as [|f]; [lia|]).
  rewrite marshalPart_append, parseValue_object.
  erewrite parseMembers_more; [reflexivity|apply plain_Index| |].
  { apply parseValue_number. by left. }
  erewrite parseMembers_more; [reflexivity|apply plain_URL| |].
  { by apply parseValue_string. }
  erewrite parseMembers_more; [reflexivity|apply plain_Path| |].
  { by apply parseValue_string. }
  erewrite parseMembers_more; [reflexivity|apply plain_RangeFrom| |].
  { apply parseValue_number. by left. }
  erewrite parseMembers_last; [reflexivity|apply plain_RangeTo|].
  apply parseValue_number. right. by left.
Qed.

Lemma parseElems_more (s r r' : string) (v : value) (vs : list value) (f : nat) :
  parseValue f s = Some (v, String "," r) ->
  parseElems f r = Some (vs, r') ->
  parseElems (S f) s = Some (v :: vs, r').
Proof.
  intros Hv Hr.
  change (parseElems (S f) s)
    with ('(v0, r0) ← parseValue f s;
          match skipWS r0 with
          | String "," r1 => '(vs0, r2) ← parseElems f r1; Some (v0 :: vs0, r2)
          | String "]" r1 => Some ([v0], r1)
          | _ => None
          end).
  rewrite Hv.
  change (('(vs0, r2) ← parseElems f r; Some (v :: vs0, r2)) = Some (v :: vs, r')).
  rewrite Hr. reflexivity.
Qed.

Lemma parseElems_last (s r : string) (v : value) (f : nat) :
  parseValue f s = Some (v, String "]" r) ->
  parseElems (S f) s = Some ([v], r).
Proof.
  intros Hv.
  change (parseElems (S f) s)
    with ('(v0, r0) ← parseValue f s;
          match skipWS r0 with
          | String "," r1 => '(vs0, r2) ← parseElems f r1; Some (v0 :: vs0, r2)
          | String "]" r1 => Some ([v0], r1)
          | _ => None
          end).
  rewrite Hv. reflexivity.
Qed.

(** The parts of a manifest, as the elements of an array. *)
Lemma parseElems_parts (ps : list Part.t) :
  forall (p : Part.t) (X : string) (f : nat),
    Forall validPart (p :: ps) -> (length ps + 8 <= f)%nat ->
    parseElems f (Join (map marshalPart (p :: ps)) "," +:+ String "]" X)
    = Some (map partValue (p :: ps), X).
Proof.
  induction ps as [|q ps IH]; intros p X f Hv Hf.
  - destruct f as [|f]; [simpl in Hf; lia|]. simpl in Hf.
    apply Forall_cons in Hv as [Hp _].
    apply parseElems_last. apply parseValue_part; [exact Hp|lia].
  - destruct f as [|f]; [simpl in Hf; lia|]. cbn [length] in Hf.
    apply Forall_cons in Hv as [Hp Hv].
    change (Join (map marshalPart (p :: q :: ps)) ",")
      with (marshalPart p +:+ "," +:+ Join (map marshalPart (q :: ps)) ",").
    rewrite !append_assoc, append_cons, append_nil_l.
    eapply parseElems_more.
    + apply parseValue_part; [exact Hp|lia].
    + apply IH; [exact Hv|lia].
Qed.

Lemma Join_parts_head (p : Part.t) (ps : list Part.t) (X : string) :
  exists t, Join (map marshalPart (p :: ps)) "," +:+ X = String "{" t.
Proof.
  destruct ps as [|q ps].
  - cbn [map Join]. rewrite marshalPart_append. eauto.
  - change (Join (map marshalPart (p :: q :: ps)) ",")
      with (marshalPart p +:+ "," +:+ Join (map marshalPart (q :: ps)) ",").
    rewrite append_assoc, marshalPart_append. eauto.
Qed.

(** The array of the parts. *)
Lemma parseValue_parts (ps : list Part.t) (X : string) (f : nat) :
  Forall validPart ps -> (length ps + 9 <= f)%nat ->
  parseValue f (String "[" (Join (map marshalPart ps) "," +:+ String "]" X))
  = Some (JArr (map partValue ps), X).
Proof.
  intros Hv Hf. destruct f as [|f]; [lia|].
  destruct ps as [|p ps]; [reflexivity|].
  pose proof (parseElems_parts ps p X f Hv ltac:(cbn [length] in Hf; lia)) as He.
  destruct (Join_parts_head p ps (String "]" X)) as [t Ht].
  rewrite Ht in He |- *.
  change (parseValue (S f) (String "[" (String "{" t)))
    with ('(vs, r) ← parseElems f (String "{" t); Some (JArr vs, r)).
  rewrite He. reflexivity.
Qed.

Lemma Marshal_append (s : State.t) (X : string) :
  Marshal s +:+ X
  = String "{"
      (member "URL" (quote (State.URL s)) +:+ String ","
      (member "Parts"
         (String "[" (Join (map marshalPart (State.Parts s)) "," +:+ String "]" EmptyString))
       +:+ String "}" X)).
Proof. unfold Marshal. rewrite !append_assoc. reflexivity. Qed.

(** The whole manifest. *)
Lemma parseValue_state (s : State.t) (X : string) (f : nat) :
  validState s -> (length (State.Parts s) + 12 <= f)%nat ->
  parseValue f (Marshal s +:+ X) = Some (stateValue s, X).
Proof.
  intros [Hu Hps] Hf. do 3 (destruct f as [|f]; [lia|]).
  rewrite Marshal_append, parseValue_object.
  erewrite parseMembers_more; [reflexivity|apply plain_URL| |].
  { by apply parseValue_string. }
  erewrite parseMembers_last; [reflexivity|apply plain_Parts|].
  rewrite append_cons, append_assoc, append_cons, append_nil_l.
  apply parseValue_parts; [exact Hps|lia].
Qed.

Lemma Join_cons (x y : string) (l : list string) (sep : string) :
  Join (x :: y :: l) sep = x +:+ sep +:+ Join (y :: l) sep.
Proof. reflexivity. Qed.

Lemma length_marshalPart (p : Part.t) : (1 <= String.length (marshalPart p))%nat.
Proof. unfold marshalPart. rewrite append_cons. cbn [String.length]. lia. Qed.

Lemma length_Join_parts (ps : list Part.t) :
  (length ps <= String.length (Join (map marshalPart ps) ","))%nat.
Proof.
  induction ps as [|p ps IH]; [simpl; lia|].
  pose proof (length_marshalPart p).
  destruct ps as [|q ps]; [cbn [map Join length]; lia|].
  cbn [map] in IH |- *. rewrite Join_cons, !length_append.
  cbn [length] in IH |- *. lia.
Qed.

Lemma length_Marshal (s : State.t) :
  (length (State.Parts s) + 12 <= S (String.length (Marshal s)))%nat.
Proof.
  rewrite <- (append_nil_r (Marshal s)), Marshal_append.
  unfold member. cbn [String.length]. rewrite !length_append. cbn [String.length].
  rewrite !length_append. cbn [String.length]. rewrite !length_append.
  pose proof (length_Join_parts (State.Parts s)). cbn [String.length]. lia.
Qed.

(** The document of a manifest is read as its tree. *)
Lemma parse_Marshal (s : State.t) : validState s -> parse (Marshal s) = Some (stateValue s).
Proof.
  intros Hv. unfold parse.
  pose proof (parseValue_state s "" _ Hv (length_Marshal s)) as H.
  rewrite append_nil_r in H. rewrite H. reflexivity.
Qed.

Lemma storePart_value (old p : Part.t) :
  validPart p -> storePart old (partValue p) = (p, true).
Proof.
  intros (Hi & _ & _ & Hf & Ht). destruct p as [i u pa rf rt].
  cbn [Part.Index Part.RangeFrom Part.RangeTo] in Hi, Hf, Ht.
  unfold partValue, storePart. cbn [fold_left Part.Index Part.URL Part.Path
    Part.RangeFrom Part.RangeTo].
  unfold storePartField at 5. unfold storeInt.
  rewrite (ParseInt_FormatInt _ Hi).
  unfold storePartField at 1. unfold storeInt.
  rewrite (ParseInt_FormatInt _ Ht).
  unfold storePartField at 1. unfold storeInt.
  rewrite (ParseInt_FormatInt _ Hf).
  reflexivity.
Qed.

Lemma storeParts_values (ps : list Part.t) :
  forall old, Forall validPart ps -> storeParts old (map partValue ps) = (ps, true).
Proof.
  induction ps as [|p ps IH]; intros old Hv; [reflexivity|].
  apply Forall_cons in Hv as [Hp Hv].
  cbn [map storeParts]. rewrite (storePart_value _ p Hp), (IH _ Hv). reflexivity.
Qed.

(** [Unmarshal] gives back the manifest that [Marshal] was given. *)
Lemma Unmarshal_Marshal (s : State.t) : validState s -> Unmarshal (Marshal s) = (s, None).
Proof.
  intros Hv. unfold Unmarshal. rewrite (parse_Marshal s Hv).
  destruct Hv as [_ Hps]. destruct s as [u ps]. cbn [State.URL State.Parts] in *.
  unfold stateValue. cbn [fold_left State.URL State.Parts].
  unfold storeStateField at 1.
  change (isField "Parts" "URL") with false. change (isField "Parts" "Parts") with true.
  cbv iota.
  change (storeStateField (zeroState, true) ("URL"%string, JStr u))
    with ({| State.URL := u; State.Parts := [] |}, true).
  cbn [State.URL State.Parts]. rewrite (storeParts_values ps [] Hps). reflexivity.
Qed.

End DocumentFacts.

Section CleanFacts.
Import Strings Filepath.

Lemma Clean_cleaned (p : string) :
  p <> ""%string ->
  Clean p = cleaned (HasPrefix p "/")
              (fold_left (cleanStep (HasPrefix p "/")) (SplitSlash p) []).
Proof.
  intros Hp. unfold Clean, cleaned. destruct (String.eqb_spec p ""); [contradiction|reflexivity].
Qed.

Lemma SplitSlash_app (a b : string) :
  SplitSlash (a +:+ String "/" b) = SplitSlash a ++ SplitSlash b.
Proof.
  induction a as [|c a IH]; [reflexivity|].
  rewrite append_cons. cbn [SplitSlash]. rewrite IH.
  destruct (Ascii.eqb c "/"); [reflexivity|].
  destruct (SplitSlash_head a) as (h & r & _ & -> & _). reflexivity.
Qed.

Lemma SplitSlash_elems (s : string) : Forall (fun e => SplitSlash e = [e]) (SplitSlash s).
Proof.
  induction s as [|c s IH]; [by repeat constructor|].
  cbn [SplitSlash]. destruct (Ascii.eqb c "/") eqn:Hc; [by constructor|].
  destruct (SplitSlash s) as [|h r]; [repeat constructor; cbn [SplitSlash]; by rewrite Hc|].
  apply Forall_cons in IH as [Hh Hr]. constructor; [|exact Hr].
  cbn [SplitSlash]. by rewrite Hc, Hh.
Qed.

Lemma SplitSlash_Join (o : list string) :
  o <> [] -> Forall (fun e => SplitSlash e = [e]) o -> SplitSlash (Join o "/") = o.
Proof.
  induction o as [|e o IH]; [congruence|]. intros _ Ho.
  apply Forall_cons in Ho as [He Ho].
  destruct o as [|e' o]; [exact He|].
  rewrite Join_cons, append_cons, append_nil_l, SplitSlash_app, He, IH by (congruence || exact Ho).
  reflexivity.
Qed.

Lemma slashFree_cases (e : string) :
  SplitSlash e = [e] -> e = ""%string \/ e = "."%string \/ e = ".."%string \/ normal e.
Proof.
  intros He. destruct (String.eqb_spec e ""); [by left|].
  destruct (String.eqb_spec e "."); [by right; left|].
  destruct (String.eqb_spec e ".."); [by right; right; left|].
  right; right; right. by repeat split.
Qed.

Lemma cleanStep_normal (r : bool) (out : list string) (e : string) :
  normal e -> cleanStep r out e = e :: out.
Proof.
  intros (H1 & H2 & H3 & _). unfold cleanStep.
  destruct (String.eqb_spec e ""); [contradiction|].
  destruct (String.eqb_spec e "."); [contradiction|].
  destruct (String.eqb_spec e ".."); [contradiction|reflexivity].
Qed.

Lemma cleanStep_up_normal (r : bool) (out : list string) (e : string) :
  normal e -> cleanStep r (e :: out) ".." = out.
Proof.
  intros (_ & _ & H3 & _). unfold cleanStep. cbn [String.eqb Ascii.eqb Bool.eqb].
  destruct (String.eqb_spec e ".."); [contradiction|reflexivity].
Qed.

Lemma cleanStep_canon (r : bool) (out : list string) (e : string) :
  SplitSlash e = [e] -> canon r out -> canon r (cleanStep r out e).
Proof.
  intros He (ns & k & -> & Hns & Hk).
  destruct (slashFree_cases e He) as [->|[->|[->|Hn]]].
  - exists ns, k. auto.
  - exists ns, k. auto.
  - destruct ns as [|n ns].
    + destruct k as [|k].
      * destruct r; [by exists [], 0%nat|by exists [], 1%nat].
      * exists [], (S (S k)). repeat split; [constructor|]. intros Hr. specialize (Hk Hr). lia.
    + apply Forall_cons in Hns as [Hn Hns].
      change ((n :: ns) ++ repeat ".."%string k) with (n :: (ns ++ repeat ".."%string k)).
      rewrite (cleanStep_up_normal _ _ _ Hn). by exists ns, k.
  - rewrite (cleanStep_normal _ _ _ Hn). exists (e :: ns), k. repeat split; [by constructor|exact Hk].
Qed.

Lemma fold_cleanStep_canon (r : bool) (l : list string) :
  forall out, Forall (fun e => SplitSlash e = [e]) l -> canon r out ->
              canon r (fold_left (cleanStep r) l out).
Proof.
  induction l as [|e l IH]; intros out Hl Hc; [exact Hc|].
  apply Forall_cons in Hl as [He Hl]. cbn [fold_left].
  apply IH; [exact Hl|]. by apply cleanStep_canon.
Qed.

Lemma canon_nil (r : bool) : canon r [].
Proof. by exists [], 0%nat. Qed.

Lemma canon_Clean (p : string) (r : bool) : canon r (fold_left (cleanStep r) (SplitSlash p) []).
Proof. apply fold_cleanStep_canon; [apply SplitSlash_elems|apply canon_nil]. Qed.

Lemma canon_elems (r : bool) (out : list string) :
  canon r out -> Forall (fun e => SplitSlash e = [e] /\ e <> ""%string) out.
Proof.
  intros (ns & k & -> & Hns & _). apply Forall_app. split.
  - eapply Forall_impl; [exact Hns|]. intros e (H1 & _ & _ & H4). auto.
  - clear. induction k as [|k IH]; [constructor|]. constructor; [|exact IH].
    split; [reflexivity|discriminate].
Qed.

Lemma fold_cleanStep_normal (r : bool) (l : list string) :
  forall A, Forall normal l -> fold_left (cleanStep r) l A = rev l ++ A.
Proof.
  induction l as [|e l IH]; intros A Hl; [reflexivity|].
  apply Forall_cons in Hl as [He Hl]. cbn [fold_left rev].
  rewrite (cleanStep_normal _ _ _ He), (IH _ Hl), <- app_assoc. reflexivity.
Qed.

Lemma fold_cleanStep_ups (k : nat) :
  forall j, fold_left (cleanStep false) (repeat ".."%string k) (repeat ".."%string j)
            = repeat ".."%string (k + j).
Proof.
  induction k as [|k IH]; intros j; [reflexivity|].
  cbn [repeat fold_left].
  replace (cleanStep false (repeat ".."%string j) "..") with (repeat ".."%string (S j))
    by (destruct j; reflexivity).
  rewrite IH. f_equal. lia.
Qed.

Lemma rev_ups (k : nat) : rev (repeat ".."%string k) = repeat ".."%string k.
Proof.
  induction k as [|k IH]; [reflexivity|].
  cbn [repeat rev]. rewrite IH. symmetry. apply repeat_cons.
Qed.

(** Elements that were written are read as they are. *)
Lemma fold_cleanStep_rev (r : bool) (out : list string) :
  canon r out -> fold_left (cleanStep r) (rev out) [] = out.
Proof.
  intros (ns & k & -> & Hns & Hk).
  rewrite rev_app_distr, rev_ups, fold_left_app.
  assert (fold_left (cleanStep r) (repeat ".."%string k) [] = repeat ".."%string k) as ->.
  { destruct r.
    - rewrite (Hk eq_refl). reflexivity.
    - pose proof (fold_cleanStep_ups k 0) as Hu. cbn [repeat] in Hu. rewrite Hu.
      f_equal. lia. }
  rewrite fold_cleanStep_normal by (by apply Forall_rev).
  by rewrite rev_involutive.
Qed.

(** Reading a relative path, or reading what [Clean] makes of it, leaves
    the same elements. *)
Lemma fold_cleanStep_again (l : list string) :
  Forall (fun e => SplitSlash e = [e]) l ->
  forall r A,
    fold_left (cleanStep r) l A
    = fold_left (cleanStep r) (rev (fold_left (cleanStep false) l [])) A.
Proof.
  induction l as [|e l IH] using rev_ind; intros Hl r A; [reflexivity|].
  apply Forall_app in Hl as [Hl He]. apply Forall_cons in He as [He _].
  rewrite !fold_left_app. cbn [fold_left]. rewrite (IH Hl r A).
  pose proof (fold_cleanStep_canon false l [] Hl (canon_nil false)) as Hc.
  set (B := fold_left (cleanStep false) l []) in *.
  destruct (slashFree_cases e He) as [->|[->|[->|Hn]]].
  - reflexivity.
  - reflexivity.
  - destruct Hc as (ns & k & HB & Hns & _). rewrite HB.
    destruct ns as [|n ns].
    + destruct k as [|k]; [reflexivity|].
      change (cleanStep false ([] ++ repeat ".."%string (S k)) "..")
        with ((".." :: [] ++ repeat ".." (S k))%string).
      cbn [rev]. rewrite fold_left_app. reflexivity.
    + apply Forall_cons in Hns as [Hn Hns].
      change ((n :: ns) ++ repeat ".."%string k) with (n :: (ns ++ repeat ".."%string k)).
      rewrite (cleanStep_up_normal _ _ _ Hn). cbn [rev]. rewrite fold_left_app.
      cbn [fold_left]. rewrite (cleanStep_normal _ _ _ Hn).
      apply cleanStep_up_normal. exact Hn.
  - rewrite (cleanStep_normal false _ _ Hn). cbn [rev]. rewrite fold_left_app. reflexivity.
Qed.

Lemma Join_nonempty (e : string) (l : list string) (sep : string) :
  e <> ""%string -> Join (e :: l) sep <> ""%string.
Proof.
  intros He. destruct l as [|e' l]; [exact He|].
  rewrite Join_cons. destruct e; [congruence|discriminate].
Qed.

Lemma rev_nonempty {A} (l : list A) : l <> [] -> exists x l', rev l = x :: l'.
Proof.
  intros Hl. destruct (rev l) as [|x l'] eqn:Hr; [|eauto].
  apply (f_equal (@rev A)) in Hr. rewrite rev_involutive in Hr. contradiction.
Qed.

(** The elements of the path that [Clean] wrote. *)
Lemma SplitSlash_cleaned (r : bool) (out : list string) :
  canon r out ->
  forall r' A,
    fold_left (cleanStep r') (SplitSlash (cleaned r out)) A
    = fold_left (cleanStep r') (rev out) A.
Proof.
  intros Hc r' A. pose proof (canon_elems r out Hc) as He.
  destruct out as [|o out]; [destruct r; reflexivity|].
  destruct (rev_nonempty (o :: out) ltac:(discriminate)) as (x & l' & Hrev).
  apply Forall_rev in He. rewrite Hrev in He.
  assert (Hsplit : SplitSlash (Join (x :: l') "/") = x :: l').
  { apply SplitSlash_Join; [discriminate|]. eapply Forall_impl; [exact He|]. by intros e [H _]. }
  apply Forall_cons in He as [[_ Hx] _].
  pose proof (Join_nonempty x l' "/" Hx) as Hj.
  unfold cleaned. rewrite Hrev. destruct r.
  - rewrite append_cons, append_nil_l.
    change (String "/" (Join (x :: l') "/") =? "")%string with false.
    cbv iota. change (SplitSlash (String "/" (Join (x :: l') "/")))
      with (EmptyString :: SplitSlash (Join (x :: l') "/")).
    rewrite Hsplit. reflexivity.
  - rewrite append_nil_l. destruct (String.eqb_spec (Join (x :: l') "/") ""); [contradiction|].
    by rewrite Hsplit.
Qed.

Lemma slashFree_head (c : ascii) (t : string) :
  SplitSlash (String c t) = [String c t] -> Ascii.eqb c "/" = false.
Proof.
  cbn [SplitSlash]. destruct (Ascii.eqb c "/"); [discriminate|reflexivity].
Qed.

Lemma HasPrefix_append (X Y : string) :
  X <> ""%string -> HasPrefix (X +:+ Y) "/" = HasPrefix X "/".
Proof. intros HX. destruct X; [congruence|reflexivity]. Qed.

(** What [Clean] writes is rooted when the path was. *)
Lemma cleaned_rooted (r : bool) (out : list string) :
  canon r out -> HasPrefix (cleaned r out) "/" = r.
Proof.
  intros Hc. pose proof (canon_elems r out Hc) as He.
  destruct r; [unfold cleaned; rewrite append_cons; reflexivity|].
  destruct out as [|o out]; [reflexivity|].
  destruct (rev_nonempty (o :: out) ltac:(discriminate)) as (x & l' & Hrev).
  apply Forall_rev in He. rewrite Hrev in He. apply Forall_cons in He as [[Hs Hx] _].
  pose proof (Join_nonempty x l' "/" Hx) as Hj.
  unfold cleaned. rewrite Hrev, append_nil_l.
  destruct (String.eqb_spec (Join (x :: l') "/") ""); [contradiction|].
  destruct x as [|c x]; [congruence|]. apply slashFree_head in Hs.
  destruct l' as [|y l'].
  - cbn [Join HasPrefix]. rewrite Ascii.eqb_sym, Hs. reflexivity.
  - rewrite Join_cons, append_cons. cbn [HasPrefix]. rewrite Ascii.eqb_sym, Hs. reflexivity.
Qed.

Lemma cleaned_nonempty (r : bool) (out : list string) : cleaned r out <> ""%string.
Proof.
  unfold cleaned. destruct (String.eqb_spec ((if r then "/" else "") +:+ Join (rev out) "/") "");
    [discriminate|assumption].
Qed.

Lemma Clean_nonempty (p : string) : Clean p <> ""%string.
Proof.
  destruct (String.eqb_spec p "") as [->|Hp]; [discriminate|].
  rewrite (Clean_cleaned p Hp). apply cleaned_nonempty.
Qed.

Lemma Clean_rooted (p : string) : HasPrefix (Clean p) "/" = HasPrefix p "/".
Proof.
  destruct (String.eqb_spec p "") as [->|Hp]; [reflexivity|].
  rewrite (Clean_cleaned p Hp). apply cleaned_rooted, canon_Clean.
Qed.

(** [Clean] leaves a clean path as it is. *)
Lemma Clean_idem (p : string) : Clean (Clean p) = Clean p.
Proof.
  destruct (String.eqb_spec p "") as [->|Hp]; [reflexivity|].
  rewrite (Clean_cleaned (Clean p) (Clean_nonempty p)), Clean_rooted.
  rewrite (Clean_cleaned p Hp) at 1.
  rewrite SplitSlash_cleaned by apply canon_Clean.
  rewrite fold_cleanStep_rev by apply canon_Clean.
  symmetry. by apply Clean_cleaned.
Qed.

Lemma append_nonempty (X Y : string) : X <> ""%string -> X +:+ Y <> ""%string.
Proof. destruct X; [congruence|discriminate]. Qed.

(** Cleaning the front of a path first changes nothing. *)
Lemma Clean_join_l (X Y : string) :
  X <> ""%string -> Clean (Clean X +:+ String "/" Y) = Clean (X +:+ String "/" Y).
Proof.
  intros HX.
  rewrite (Clean_cleaned _ (append_nonempty (Clean X) _ (Clean_nonempty X))).
  rewrite (Clean_cleaned _ (append_nonempty X (String "/" Y) HX)).
  rewrite !HasPrefix_append by (apply Clean_nonempty || exact HX).
  rewrite Clean_rooted, !SplitSlash_app, !fold_left_app.
  rewrite (Clean_cleaned X HX).
  rewrite SplitSlash_cleaned by apply canon_Clean.
  rewrite fold_cleanStep_rev by apply canon_Clean.
  reflexivity.
Qed.

(** Cleaning the relative end of a path first changes nothing. *)
Lemma Clean_join_r (W Y : string) :
  W <> ""%string -> HasPrefix Y "/" = false ->
  Clean (W +:+ String "/" (Clean Y)) = Clean (W +:+ String "/" Y).
Proof.
  intros HW HY.
  rewrite (Clean_cleaned _ (append_nonempty W (String "/" (Clean Y)) HW)).
  rewrite (Clean_cleaned _ (append_nonempty W (String "/" Y) HW)).
  rewrite !HasPrefix_append by exact HW.
  rewrite !SplitSlash_app, !fold_left_app. f_equal.
  destruct (String.eqb_spec Y "") as [->|Hne]; [reflexivity|].
  rewrite (Clean_cleaned Y Hne), HY.
  rewrite SplitSlash_cleaned by apply canon_Clean.
  symmetry. apply fold_cleanStep_again, SplitSlash_elems.
Qed.

End CleanFacts.

Section RoundTrip.
Context (E : Env).
Import Strings Filepath.

Lemma Join_snoc (l : list string) (e sep : string) :
  l <> [] -> Join (l ++ [e]) sep = Join l sep +:+ sep +:+ e.
Proof.
  induction l as [|a l IH]; [congruence|]. intros _.
  destruct l as [|b l]; [reflexivity|].
  change ((a :: b :: l) ++ [e]) with (a :: b :: (l ++ [e])).
  rewrite !Join_cons. change (b :: l ++ [e]) with ((b :: l) ++ [e]).
  rewrite IH by discriminate. by rewrite !append_assoc.
Qed.

Lemma JoinPath_snoc (l : list string) (e : string) :
  JoinPath l <> ""%string ->
  exists X, X <> ""%string /\ JoinPath l = Clean X
            /\ JoinPath (l ++ [e]) = Clean (X +:+ String "/" e).
Proof.
  induction l as [|x l IH]; [intros H; by destruct H|].
  cbn [JoinPath app]. destruct (String.eqb_spec x ""); [exact IH|].
  intros _. exists (Join (x :: l) "/"). split; [by apply Join_nonempty|].
  split; [reflexivity|]. change (x :: l ++ [e]) with ((x :: l) ++ [e]).
  rewrite Join_snoc by discriminate. reflexivity.
Qed.

Lemma JoinPath_pair (a b : string) :
  a <> ""%string -> JoinPath [a; b] = Clean (a +:+ String "/" b).
Proof.
  intros Ha. cbn [JoinPath]. destruct (String.eqb_spec a ""); [contradiction|reflexivity].
Qed.

(** A name joined to the absolute form of a path, and the path with the
    name as its last element, are the same file. *)
Lemma Abs_join_snoc (wd : option string) (l : list string) (e F : string) :
  (forall d, wd = Some d -> IsAbs d = true) ->
  JoinPath l <> ""%string ->
  Abs wd (JoinPath l) = Some F ->
  Abs wd (JoinPath [F; e]) = Abs wd (JoinPath (l ++ [e])).
Proof.
  intros Hwd Hl HF. destruct (JoinPath_snoc l e Hl) as (X & HX & HJ & HJe).
  rewrite HJ in HF. rewrite HJe. unfold Abs, IsAbs in HF. rewrite Clean_rooted in HF.
  destruct (HasPrefix X "/") eqn:Hr.
  - rewrite Clean_idem in HF. injection HF as <-.
    rewrite JoinPath_pair by apply Clean_nonempty. by rewrite Clean_join_l.
  - destruct wd as [d|]; [|discriminate].
    assert (HF' : F = JoinPath [d; Clean X]) by (cbn [mbind option_bind] in HF; congruence).
    rewrite HF'. clear HF HF'. specialize (Hwd d eq_refl). unfold IsAbs in Hwd.
    assert (Hd : d <> ""%string) by (intros ->; discriminate).
    rewrite (JoinPath_pair d _ Hd), (Clean_join_r d X Hd Hr).
    rewrite JoinPath_pair by apply Clean_nonempty.
    rewrite Clean_join_l by (by apply append_nonempty).
    rewrite append_assoc, append_cons.
    assert (Hre : HasPrefix (X +:+ String "/" e) "/" = false)
      by (by rewrite HasPrefix_append).
    unfold Abs, IsAbs. rewrite !Clean_rooted, Hre, (HasPrefix_append d _ Hd), Hwd, Clean_idem.
    cbn [mbind option_bind].
    by rewrite (JoinPath_pair d _ Hd), (Clean_join_r d _ Hd Hre).
Qed.

Lemma Base_nonempty (p : string) : Base p <> ""%string.
Proof.
  unfold Base. destruct (String.eqb_spec p ""); [discriminate|].
  destruct (String.eqb_spec (lastElem (TrimRight p "/")) ""); [discriminate|assumption].
Qed.

Lemma TaskFromURL_nonempty (urlStr t : string) :
  TaskFromURL E urlStr = Done t -> t <> ""%string.
Proof.
  unfold TaskFromURL, mbind, outcome_bind, obind.
  destruct (fatal (url_Parse E urlStr) _); [|discriminate..].
  intros [= <-]. apply Base_nonempty.
Qed.

Lemma FolderOf_Done (urlStr folder : string) :
  FolderOf E urlStr = Done folder ->
  exists h t,
    user_HomeDir E = Some h /\ TaskFromURL E urlStr = Done t
    /\ Abs (os_Getwd E) (JoinPath [h; dataFolder E; t]) = Some folder.
Proof.
  unfold FolderOf, mbind, outcome_bind, obind.
  destruct (user_HomeDir E) as [h|]; [|discriminate]. cbn [fatal].
  destruct (url_Parse E urlStr) as [u|] eqn:Hu; [|discriminate]. cbn [fatal].
  destruct (Contains (Url.Path u) ".."); [discriminate|].
  destruct (TaskFromURL E urlStr) as [t| |]; [|discriminate..].
  destruct (Abs (os_Getwd E) (JoinPath [h; dataFolder E; t])) as [q|] eqn:Hq; cbn [fatal];
    [|discriminate].
  destruct (Rel (JoinPath [h; dataFolder E]) q) as [rel|]; cbn [fatal]; [|discriminate].
  destruct (Contains rel ".."); [discriminate|].
  intros [= <-]. by exists h, t.
Qed.

Lemma JoinPath_task (h d t : string) : t <> ""%string -> JoinPath [h; d; t] <> ""%string.
Proof.
  intros Ht. cbn [JoinPath].
  destruct (String.eqb_spec h ""); [|apply Clean_nonempty].
  destruct (String.eqb_spec d ""); [|apply Clean_nonempty].
  destruct (String.eqb_spec t ""); [contradiction|apply Clean_nonempty].
Qed.

(** C8, amended. For every manifest whose text (its URL, and the URL and
    the path of each part) is valid UTF-8 and whose numbers are 64-bit,
    and on which [Save] succeeds, a [Read] of its URL afterwards returns
    a state with the same URL and, part by part, the same [Index], [URL],
    [Path], [RangeFrom] and [RangeTo], byte for byte, and no error. The
    working directory is an absolute path, as [os.Getwd] returns it. *)
Theorem Save_then_Read (s : State.t) (w w' : World) :
  (forall d, os_Getwd E = Some d -> IsAbs d = true) ->
  validState s ->
  Save E s w = (Done None, w') ->
  Read E (State.URL s) w' = (Done (Some s, None), w').
Proof.
  intros Hwd Hs H. unfold Save in H.
  apply bind_Done in H as (folder & w0 & HF & H).
  assert (FolderOf E (State.URL s) = Done folder) as HF'.
  { unfold lift in HF. by injection HF as -> _. }
  clear HF. destruct (FolderOf_Done _ _ HF') as (h & t & Hh & Ht & Habs).
  apply bind_Done in H as (err & w1 & _ & H).
  destruct err as [e|]; [discriminate|].
  apply bind_Done in H as (err & w2 & _ & H).
  destruct err as [e|]; [discriminate|].
  unfold os_update, resolve in H.
  pose proof (Abs_join_snoc (os_Getwd E) [h; dataFolder E; t] stateFileName folder Hwd
                (JoinPath_task _ _ _ (TaskFromURL_nonempty _ _ Ht)) Habs) as Hpath.
  rewrite Hpath in H. cbn [app] in H.
  destruct (Abs (os_Getwd E) (JoinPath [h; dataFolder E; t; stateFileName])) as [q|] eqn:Hq;
    [|discriminate].
  unfold FS.WriteFile in H.
  destruct (negb _); [discriminate|]. destruct (FS.isDirAt _ q); [discriminate|].
  injection H as <-.
  unfold Read, mbind, M_bind, bind, lift. rewrite Hh. cbn [fatal]. rewrite Ht.
  unfold getDisk, resolve. rewrite Hq.
  unfold FS.ReadFile. cbn [disk withDisk]. rewrite lookup_insert_eq.
  rewrite (Unmarshal_Marshal s Hs). reflexivity.
Qed.

End RoundTrip.

(** C8 as stated fails on text that is not UTF-8: [json.Marshal] writes
    U+FFFD for a byte that is not part of a valid sequence. The manifest
    of the URL [http://foo.bar/] followed by the byte 255 is saved without
    an error, and [Read] returns it with the three bytes of U+FFFD in the
    place of that byte. *)
Lemma Save_invalid_utf8_counterexample :
  Save SaveScenario.E SaveScenario.manifest Scenario.world0
  = (Done None, SaveScenario.saved)
  /\ Read SaveScenario.E (State.URL SaveScenario.manifest) SaveScenario.saved
     = (Done (Some SaveScenario.reread, None), SaveScenario.saved)
  /\ State.URL SaveScenario.reread <> State.URL SaveScenario.manifest.
Proof.
  split; [vm_compute; reflexivity|]. split; [vm_compute; reflexivity|].
  vm_compute. discriminate.
Qed.

Lemma Save_then_Read_witness :
  Read SaveScenario.E (State.URL SaveScenario.goodManifest) SaveScenario.goodSaved
  = (Done (Some SaveScenario.goodManifest, None), SaveScenario.goodSaved).
Proof.
  apply (Save_then_Read SaveScenario.E SaveScenario.goodManifest SaveScenario.before).
  - intros d [= <-]. reflexivity.
  - split; [vm_compute; reflexivity|].
    repeat constructor; try (vm_compute; reflexivity); vm_compute; discriminate.
  - vm_compute. reflexivity.
Defined.

(** ** Further properties of the engine *)

(** *** A name below a folder *)

Section ChildFacts.
Import Strings Filepath.

Lemma hasSlash_split (e : string) : hasSlash e = false -> SplitSlash e = [e].
Proof.
  induction e as [|c e IH]; [reflexivity|].
  cbn [hasSlash SplitSlash]. intros H. apply orb_false_iff in H as [Hc He].
  rewrite Ascii.eqb_sym, Hc, (IH He). reflexivity.
Qed.

Lemma split_hasSlash (e : string) : SplitSlash e = [e] -> hasSlash e = false.
Proof.
  induction e as [|c e IH]; [reflexivity|].
  cbn [hasSlash SplitSlash]. destruct (Ascii.eqb_spec c "/") as [->|Hc]; [discriminate|].
  destruct (SplitSlash e) as [|h r] eqn:He; [|intros [= -> ->]].
  - destruct (SplitSlash_head e) as (h & r & _ & Hs & _). congruence.
  - rewrite IH by reflexivity. rewrite orb_false_r. apply Ascii.eqb_neq. congruence.
Qed.

Lemma hasSlash_app (a b : string) : hasSlash (a +:+ b) = hasSlash a || hasSlash b.
Proof.
  induction a as [|c a IH]; [reflexivity|].
  rewrite append_cons. cbn [hasSlash]. by rewrite IH, orb_assoc.
Qed.

Lemma LastIndex_none (n : string) : hasSlash n = false -> LastIndex n "/" = None.
Proof.
  induction n as [|c n IH]; [reflexivity|].
  cbn [hasSlash LastIndex HasPrefix]. intros H. apply orb_false_iff in H as [Hc Hn].
  by rewrite (IH Hn), Hc.
Qed.

Lemma LastIndex_last (A n : string) :
  hasSlash n = false -> LastIndex (A +:+ String "/" n) "/" = Some (String.length A).
Proof.
  intros Hn. induction A as [|c A IH].
  - rewrite append_nil_l. cbn [LastIndex]. rewrite (LastIndex_none _ Hn). reflexivity.
  - rewrite append_cons. cbn [LastIndex]. rewrite IH. reflexivity.
Qed.

Lemma take_last (A n : string) :
  take (S (String.length A)) (A +:+ String "/" n) = A +:+ "/".
Proof.
  induction A as [|c A IH]; [by destruct n|].
  rewrite !append_cons. cbn [String.length].
  change (take (S (S (String.length A))) (String c (A +:+ String "/" n)))
    with (String c (take (S (String.length A)) (A +:+ String "/" n))).
  by rewrite IH.
Qed.

Lemma lastElem_last (A n : string) :
  hasSlash n = false -> lastElem (A +:+ String "/" n) = n.
Proof.
  intros Hn. induction A as [|c A IH].
  - rewrite append_nil_l. cbn [lastElem]. by rewrite Contains_slash, Hn.
  - rewrite append_cons. cbn [lastElem].
    rewrite Contains_slash, hasSlash_app. cbn [hasSlash]. rewrite orb_true_r. exact IH.
Qed.

Lemma endsWith_slashFree (n : string) : hasSlash n = false -> Url.endsWith "/" n = false.
Proof.
  induction n as [|c n IH]; [reflexivity|].
  cbn [hasSlash]. intros H. apply orb_false_iff in H as [Hc Hn].
  destruct n as [|d n]; [exact Hc|]. exact (IH Hn).
Qed.

Lemma endsWith_append (A n : string) (c : ascii) :
  n <> EmptyString -> Url.endsWith c (A +:+ n) = Url.endsWith c n.
Proof.
  intros Hn. induction A as [|d A IH]; [reflexivity|].
  rewrite append_cons. destruct (A +:+ n) as [|x t] eqn:Ht.
  - destruct A; [|discriminate]. by rewrite append_nil_l in Ht.
  - exact IH.
Qed.

Lemma Base_last (A n : string) :
  n <> EmptyString -> hasSlash n = false -> Base (A +:+ String "/" n) = n.
Proof.
  intros Hne Hn. unfold Base.
  destruct (String.eqb_spec (A +:+ String "/" n) "") as [He|_].
  { destruct A; discriminate. }
  assert (Hend : Url.endsWith "/" (A +:+ String "/" n) = false).
  { rewrite endsWith_append by discriminate.
    destruct n as [|c n]; [congruence|]. exact (endsWith_slashFree _ Hn). }
  rewrite (TrimRight_id _ Hend), (lastElem_last _ _ Hn).
  destruct (String.eqb_spec n ""); [contradiction|reflexivity].
Qed.

Lemma parent_last (A n : string) :
  hasSlash n = false -> FS.parent (A +:+ String "/" n) = Clean (A +:+ "/").
Proof.
  intros Hn. unfold FS.parent. by rewrite (LastIndex_last _ _ Hn), take_last.
Qed.

Lemma Join_snoc' (l : list string) (e sep : string) :
  l <> [] -> Join (l ++ [e]) sep = Join l sep +:+ sep +:+ e.
Proof.
  induction l as [|a l IH]; [congruence|]. intros _.
  destruct l as [|b l]; [reflexivity|].
  change ((a :: b :: l) ++ [e]) with (a :: b :: (l ++ [e])).
  rewrite !Join_cons. change (b :: l ++ [e]) with ((b :: l) ++ [e]).
  rewrite IH by discriminate. by rewrite !append_assoc.
Qed.

Lemma cleaned_true (acc : list string) :
  cleaned true acc = String "/" (Join (rev acc) "/").
Proof. reflexivity. Qed.

(** A rooted clean path with one more element. *)
Lemma cleaned_snoc (acc : list string) :
  exists A,
    (forall n, cleaned true (n :: acc) = A +:+ String "/" n)
    /\ (canon true acc -> Clean (A +:+ "/") = cleaned true acc).
Proof.
  destruct acc as [|a acc].
  - exists EmptyString. split; [intros n; reflexivity|]. intros _. reflexivity.
  - exists (cleaned true (a :: acc)). split.
    + intros n. rewrite !cleaned_true.
      destruct (rev_nonempty (a :: acc) ltac:(discriminate)) as (x & l' & Hrev).
      change (rev (n :: a :: acc)) with (rev (a :: acc) ++ [n]).
      rewrite Join_snoc' by (rewrite Hrev; discriminate).
      rewrite append_cons. reflexivity.
    + intros Hc.
      rewrite (Clean_cleaned (cleaned true (a :: acc) +:+ "/")
                 (append_nonempty _ _ (cleaned_nonempty true (a :: acc)))).
      rewrite (HasPrefix_append _ _ (cleaned_nonempty true (a :: acc))),
        (cleaned_rooted true _ Hc).
      change (cleaned true (a :: acc) +:+ "/")
        with (cleaned true (a :: acc) +:+ String "/" EmptyString).
      rewrite SplitSlash_app, fold_left_app, (SplitSlash_cleaned true _ Hc),
        (fold_cleanStep_rev true _ Hc).
      reflexivity.
Qed.

Lemma normal_slashFree (n : string) : normal n -> hasSlash n = false /\ n <> EmptyString.
Proof. intros (H1 & _ & _ & H4). split; [by apply split_hasSlash|exact H1]. Qed.

Lemma Clean_snoc (X n : string) :
  X <> EmptyString -> HasPrefix X "/" = true -> normal n ->
  Clean (X +:+ String "/" n)
  = cleaned true (n :: fold_left (cleanStep true) (SplitSlash X) []).
Proof.
  intros HX Hr Hn. destruct (normal_slashFree n Hn) as [Hs Hne].
  rewrite (Clean_cleaned _ (append_nonempty X (String "/" n) HX)).
  rewrite (HasPrefix_append X _ HX), Hr, SplitSlash_app, fold_left_app.
  rewrite (hasSlash_split n Hs). cbn [fold_left]. by rewrite (cleanStep_normal _ _ _ Hn).
Qed.

(** A rooted path with one more element, cleaned: the element is the last
    one, and what comes before it is the path, cleaned. *)
Lemma Clean_child (X n : string) :
  X <> EmptyString -> HasPrefix X "/" = true -> normal n ->
  Clean (X +:+ String "/" n) = JoinPath [Clean X; n]
  /\ FS.parent (Clean (X +:+ String "/" n)) = Clean X
  /\ Base (Clean (X +:+ String "/" n)) = n.
Proof.
  intros HX Hr Hn. destruct (normal_slashFree n Hn) as [Hs Hne].
  split.
  { rewrite JoinPath_pair by apply Clean_nonempty. by rewrite Clean_join_l. }
  rewrite (Clean_snoc X n HX Hr Hn).
  destruct (cleaned_snoc (fold_left (cleanStep true) (SplitSlash X) [])) as (A & HA & HP).
  rewrite (HA n), (parent_last _ _ Hs), (Base_last _ _ Hne Hs), (HP (canon_Clean X true)).
  split; [|reflexivity]. rewrite (Clean_cleaned X HX), Hr. reflexivity.
Qed.

(** The children of a rooted path share what comes before their names. *)
Lemma Clean_children (X : string) :
  X <> EmptyString -> HasPrefix X "/" = true ->
  exists A, forall n, normal n -> Clean (X +:+ String "/" n) = A +:+ String "/" n.
Proof.
  intros HX Hr.
  destruct (cleaned_snoc (fold_left (cleanStep true) (SplitSlash X) [])) as (A & HA & _).
  exists A. intros n Hn. by rewrite (Clean_snoc X n HX Hr Hn), (HA n).
Qed.

Lemma Clean_dot (X : string) : X <> EmptyString -> Clean (X +:+ String "/" ".") = Clean X.
Proof.
  intros HX. rewrite (Clean_cleaned _ (append_nonempty X (String "/" ".") HX)).
  rewrite (Clean_cleaned X HX), (HasPrefix_append X _ HX), SplitSlash_app, fold_left_app.
  reflexivity.
Qed.

(** *** Clean rooted paths as the kernel follows them *)




End ChildFacts.

(** *** The worker *)

Section WorkerBehaviour.
Context (E : Env).

(** X1. A worker never panics, and it sends one of three things: an error
    alone; the part as it was given (under the URL of the downloader)
    alone, when the interrupt came before the response; or that part
    followed by the path of the part file. The offset of the reported part
    is the one the worker started from, whatever it has copied. *)
Theorem downloadPart_messages (d : HTTPDownloader) (part : Part.t) (intr : Interrupt)
  (w w' : World) (o : outcome (list Msg)) :
  Int64.in_range (Part.RangeFrom part) ->
  downloadPart E d part intr w = (o, w') ->
  exists msgs,
    o = Done msgs
    /\ ((exists e, msgs = [ToError e])
        \/ msgs = [ToState (reported d part)]
        \/ msgs = [ToState (reported d part); ToFile (Part.Path part)]).
Proof.
  intros Hr. unfold downloadPart.
  destruct (buildRequestForPart E d part) as [req|e].
  2:{ intros H; inversion H; subst. eexists. split; [reflexivity|]. left. eauto. }
  unfold mbind, M_bind, bind, client_Do, mret, M_ret, ret.
  set (resp := match intr with BeforeResponse => Err ErrCanceled | _ => server E req end).
  destruct resp as [r|e].
  - destruct (os_update E (Part.Path part) _ _) as [[[err| ]|?|?] w1] eqn:Hup.
    + intros H; inversion H; subst. eexists. split; [reflexivity|]. left. eauto.
    + intros H; inversion H; subst. eexists. split; [reflexivity|]. right. right.
      unfold reported, Int64.add. rewrite Z.add_0_r, (wrap_small _ Hr). reflexivity.
    + exfalso. unfold os_update in Hup. destruct (resolve E _); [|discriminate].
      destruct (FS.AppendFile _ _ _); discriminate.
    + exfalso. unfold os_update in Hup. destruct (resolve E _); [|discriminate].
      destruct (FS.AppendFile _ _ _); discriminate.
  - destruct e, intr; intros H; inversion H; subst; eexists; (split; [reflexivity|]);
      first [right; left; reflexivity | left; eauto].
Qed.

(** X2. A worker puts at most one request on the wire, the one built for
    its part; it leaves the record of the coordinator alone; on disk it
    changes nothing but its part file; and when it sends the path of
    the file, the file holds what it held before followed by the body of
    the response (by what was copied of it when the interrupt came during
    the copy): the file is extended, not started again. *)
Theorem downloadPart_appends (d : HTTPDownloader) (part : Part.t) (intr : Interrupt)
  (w w' : World) (o : outcome (list Msg)) :
  downloadPart E d part intr w = (o, w') ->
  acts w' = acts w
  /\ (sent w' = sent w
      \/ exists req, buildRequestForPart E d part = Ok req /\ sent w' = sent w ++ [req])
  /\ (forall q, resolve E (Part.Path part) <> Ok q -> disk w' !! q = disk w !! q)
  /\ (forall msgs f,
        o = Done msgs -> In (ToFile f) msgs ->
        exists q req resp,
          resolve E (Part.Path part) = Ok q
          /\ buildRequestForPart E d part = Ok req
          /\ server E req = Ok resp
          /\ disk w' !! q
             = Some (FS.File (contentAt (disk w) q +:+ copied intr (Http.Body resp)))).
Proof.
  unfold downloadPart.
  destruct (buildRequestForPart E d part) as [req|e] eqn:Hreq.
  2:{ intros H; inversion H; subst. repeat split; auto.
      intros msgs f [= <-] [Hin|[]]. discriminate. }
  unfold mbind, M_bind, bind, client_Do, mret, M_ret, ret.
  set (w0 := {| disk := disk w; sent := sent w ++ [req]; acts := acts w |}).
  destruct (match intr with BeforeResponse => Err ErrCanceled | _ => server E req end)
    as [r|e] eqn:Hresp.
  - unfold os_update. destruct (resolve E (Part.Path part)) as [q|e'] eqn:Hq.
    2:{ intros H; inversion H; subst. split; [reflexivity|]. split; [right; eauto|].
        split; [reflexivity|]. intros msgs f [= <-] [Hin|[]]. discriminate. }
    destruct (FS.AppendFile q _ (disk w0)) as [fs|e'] eqn:Happ.
    2:{ intros H; inversion H; subst. split; [reflexivity|]. split; [right; eauto|].
        split; [reflexivity|]. intros msgs f [= <-] [Hin|[]]. discriminate. }
    intros H; inversion H; subst o w'. cbn [acts sent disk withDisk w0].
    assert (Hfs : fs = <[q := FS.File (contentAt (disk w) q +:+ copied intr (Http.Body r))]>
                         (disk w)).
    { unfold FS.AppendFile in Happ. cbn [disk w0] in Happ.
      destruct (negb _); [discriminate|].
      destruct (FS.isDirAt (disk w) q) eqn:Hdir; [discriminate|].
      unfold contentAt, copied.
      destruct (disk w !! q) as [[old|]|] eqn:Hold; inversion Happ; subst;
        destruct intr; reflexivity. }
    split; [reflexivity|]. split; [right; eauto|]. split.
    + intros q' Hne. rewrite Hfs. apply lookup_insert_ne. congruence.
    + intros msgs f [= <-] _. exists q, req, r. split; [reflexivity|].
      split; [reflexivity|]. split; [destruct intr; (exact Hresp || discriminate)|].
      rewrite Hfs. apply lookup_insert_eq.
  - destruct e, intr; intros H; inversion H; subst; cbn [acts sent disk w0];
      (split; [reflexivity|]); (split; [right; eauto|]); (split; [reflexivity|]);
      intros msgs f [= <-] [Hin|[]]; discriminate.
Qed.

End WorkerBehaviour.

Lemma downloadPart_messages_witness :
  exists msgs,
    Done [ToState (reported WorkerScenario.downloader AppendScenario.part);
          ToFile WorkerScenario.path] = Done msgs
    /\ ((exists e, msgs = [ToError e])
        \/ msgs = [ToState (reported WorkerScenario.downloader AppendScenario.part)]
        \/ msgs = [ToState (reported WorkerScenario.downloader AppendScenario.part);
                   ToFile (Part.Path AppendScenario.part)]).
Proof.
  apply (downloadPart_messages AppendScenario.E WorkerScenario.downloader AppendScenario.part
           (DuringCopy 2) AppendScenario.world
           (snd (downloadPart AppendScenario.E WorkerScenario.downloader AppendScenario.part
                   (DuringCopy 2) AppendScenario.world))).
  - vm_compute. split; discriminate.
  - vm_compute. reflexivity.
Defined.

Lemma downloadPart_appends_witness :
  exists w',
    downloadPart AppendScenario.E WorkerScenario.downloader AppendScenario.part
      (DuringCopy 2) AppendScenario.world
    = (Done [ToState (reported WorkerScenario.downloader AppendScenario.part);
             ToFile WorkerScenario.path], w')
    /\ disk w' !! WorkerScenario.path = Some (FS.File "012345").
Proof.
  eexists. split; [vm_compute; reflexivity|].
  destruct (downloadPart_appends AppendScenario.E WorkerScenario.downloader
              AppendScenario.part (DuringCopy 2) AppendScenario.world _ _ eq_refl)
    as (_ & _ & _ & Hfile).
  destruct (Hfile _ WorkerScenario.path eq_refl ltac:(right; left; reflexivity))
    as (q & req & resp & Hq & Hreq & Hsrv & Hdisk).
  vm_compute in Hq. injection Hq as <-.
  vm_compute in Hsrv. injection Hsrv as <-.
  exact Hdisk.
Defined.

(** *** A resumed run *)

Section RestartBehaviour.
Context (E : Env).



(** X4. The requests of a resumed run. The downloader of a resumed task
    has the parts of the manifest, as many connections as there are
    parts and no total length, and none of the settings of the command
    line (proxy, TLS, rate). So with a single part the request has no
    Range header, whatever the start of the part; with two parts or
    more, every part whose [RangeTo] is not 0 is asked for with the
    closed range, the last one too. *)
Theorem resumed_request (st : State.t) (w w' : World) (d : HTTPDownloader)
  (part : Part.t) (req : Http.Request) :
  resumedDownloader E st w = (Done d, w') ->
  buildRequestForPart E d part = Ok req ->
  (url d = State.URL st /\ parts d = State.Parts st
   /\ par d = Z.of_nat (length (State.Parts st)) /\ len d = 0 /\ resumable d = true)
  /\ Http.Method req = "GET"%string /\ Http.Target req = State.URL st
  /\ proxy d = EmptyString /\ skipTLS d = false /\ rate d = 0 /\ sharedLimiter d = None
  /\ ((length (State.Parts st) <= 1)%nat ->
        Http.Get (Http.ReqHeader req) "Range" = EmptyString
        /\ values (Http.ReqHeader req) "Range" = [])
  /\ ((2 <= length (State.Parts st))%nat -> Part.RangeTo part <> 0 ->
        Http.Get (Http.ReqHeader req) "Range" = closedRange part
        /\ values (Http.ReqHeader req) "Range" = [closedRange part]).
Proof.
  unfold resumedDownloader, mbind, M_bind, bind, lift.
  destruct (TaskFromURL E (State.URL st)) as [f|e|c]; [|discriminate..].
  unfold mret, M_ret, ret. intros [= <- <-].
  unfold buildRequestForPart. cbn [url par len parts resumable].
  intros Hok. split; [by repeat split|]. revert Hok.
  destruct (NewRequest E "GET" (State.URL st)) as [r|e] eqn:Hreq; [|discriminate].
  pose proof (NewRequest_header E _ _ _ Hreq) as Hh.
  assert (Hmt : Http.Method r = "GET"%string /\ Http.Target r = State.URL st).
  { unfold NewRequest in Hreq. destruct (url_Parse E _); inversion Hreq. auto. }
  destruct Hmt as [Hm Ht]. destruct r as [m t h]; cbn in Hh, Hm, Ht; subst h m t.
  intros Hok. cbn [proxy skipTLS rate sharedLimiter].
  destruct (Z.ltb_spec 1 (Z.of_nat (length (State.Parts st)))) as [Hpar|Hpar].
  - destruct (Z.eqb_spec (Part.RangeTo part) 0) as [Hto|Hto];
      inversion Hok; subst req; do 6 (split; [reflexivity|]);
      (split; [intros Hl; lia|intros Hl Hne]); [contradiction|].
    split; reflexivity.
  - inversion Hok; subst req. do 6 (split; [reflexivity|]).
    split; [intros _; split; reflexivity|intros Hl; lia].
Qed.

End RestartBehaviour.



(** The task of three parts: its last part, which runs to the total of 30
    bytes and has four of them on disk, is asked for with the closed
    range [bytes=24-30]. *)
Lemma resumed_request_witness :
  let st := {| State.URL := RestartScenario.target;
               State.Parts := adjusted RestartScenario.E (disk RestartScenario.world)
                              <$> RestartScenario.plan |} in
  let d := {| proxy := ""; rate := 0; url := RestartScenario.target; file := "file";
              par := 3; len := 0; ips := []; skipTLS := false;
              parts := State.Parts st; resumable := true; sharedLimiter := None |} in
  let part := {| Part.Index := 2; Part.URL := RestartScenario.target;
                 Part.Path := RestartScenario.pathOf 2;
                 Part.RangeFrom := 24; Part.RangeTo := 30 |} in
  let req := RequestScenario.request [("Range", "bytes=24-30")] in
  parts d !! 2%nat = Some part
  /\ buildRequestForPart RestartScenario.E d part = Ok req
  /\ par d = Z.of_nat (length (State.Parts st))
  /\ values (Http.ReqHeader req) "Range" = [closedRange part].
Proof.
  intros st d part req.
  split; [vm_compute; reflexivity|]. split; [vm_compute; reflexivity|].
  destruct (resumed_request RestartScenario.E st RestartScenario.world RestartScenario.world
              d part req)
    as ((_ & _ & Hpar & _) & _ & _ & _ & _ & _ & _ & _ & Hmany).
  - vm_compute. reflexivity.
  - vm_compute. reflexivity.
  - split; [exact Hpar|]. apply Hmany; [simpl; lia|discriminate].
Defined.

(** *** The end of a run *)

Section CoordinatorBehaviour.
Context (E : Env).

Lemma onDone_returns (target : string) (d : HTTPDownloader) (l : Loop) (w : World) :
  fst (onDone E target d l w) <> Done Waiting.
Proof.
  unfold onDone.
  unfold mbind, M_bind, bind, act, lift, getDisk, putDisk, panic, mret, M_ret, ret.
  destruct (isInterrupted l).
  - destruct (resumable d); [|discriminate].
    destruct (Save E _ _) as [[x|x|x] w1]; discriminate.
  - destruct (TaskFromURL E target) as [dst|x|x]; [|discriminate..].
    cbn [acts disk sent]. destruct (JoinFile E (files l) dst (disk w)) as [[x|] fs'];
      [discriminate|].
    destruct (FolderOf E target) as [folder|x|x]; [|discriminate..].
    destruct (resolve E folder); discriminate.
Qed.

(** The turn that takes the message of [doneChan] ends the loop. *)
Lemma turn_done (target : string) (conn : Z) (d : HTTPDownloader) (l : Loop) (g : Flight)
  (w : World) :
  exists o w',
    turn E target conn d EvDone l g w = (o, w')
    /\ (forall l' g', o <> Done (inr (l', g'))) /\ o <> Done (inl Waiting).
Proof.
  cbn [turn]. destruct (length (dealt g) =? length (parts d))%nat.
  - unfold mbind, M_bind, bind. pose proof (onDone_returns target d l w) as Hr.
    destruct (onDone E target d l w) as [[r|e|c] w1]; eexists _, _;
      (split; [reflexivity|]); split; try discriminate.
    cbn [fst] in Hr. unfold mret, M_ret, ret. intros [= ->]. by destruct Hr.
  - eexists _, _. split; [reflexivity|]. split; discriminate.
Qed.

Lemma coordinate_done (target : string) (conn : Z) (d : HTTPDownloader)
  (pre post : list Event) :
  forall l g w,
    coordinate E target conn d (pre ++ EvDone :: post) l g w
    = coordinate E target conn d (pre ++ [EvDone]) l g w
    /\ fst (coordinate E target conn d (pre ++ EvDone :: post) l g w) <> Done Waiting.
Proof.
  induction pre as [|ev pre IH]; intros l g w.
  - cbn [app coordinate]. unfold mbind, M_bind, bind.
    destruct (turn_done target conn d l g w) as (o & w' & -> & Hgo & Hw).
    destruct o as [[r|[l' g']]|e|c]; try (split; [reflexivity|discriminate]).
    + split; [reflexivity|]. unfold mret, M_ret, ret. cbn [fst]. intros [= ->].
      by destruct Hw.
    + by destruct (Hgo l' g').
  - cbn [app coordinate]. unfold mbind, M_bind, bind.
    destruct (turn E target conn d ev l g w) as [[[r|[l' g']]|e|c] w1] eqn:Ht;
      try (split; [reflexivity|discriminate]).
    + split; [reflexivity|]. unfold mret, M_ret, ret. cbn [fst]. intros [= ->].
      destruct ev as [|f|e|p| |i intr|i intr]; cbn [turn] in Ht;
        unfold bind, act, mbind, M_bind, mret, M_ret, ret, panic, lift in Ht.
      * discriminate.
      * destruct (takeMsg _ _); discriminate.
      * destruct (takeMsg _ _); discriminate.
      * destruct (takeMsg _ _); discriminate.
      * destruct (turn_done target conn d l g w) as (o & w' & Ht' & _ & Hw).
        cbn [turn] in Ht'. unfold bind, mbind, M_bind, mret, M_ret, ret in Ht'.
        rewrite Ht in Ht'. congruence.
      * unfold bind in Ht. destruct (dealWith E d i intr g w) as [[[g1|]|?|?] w2]; discriminate.
      * unfold bind in Ht. destruct (underWay E d i intr g w) as [[[g1|]|?|?] w2]; discriminate.
    + apply IH.
Qed.

(** X5. [Execute] returns at the first message on [doneChan]: what the
    channels deliver after it is not read, and a run that gets the message
    does not stay waiting. *)
Theorem Execute_returns_at_done (target : string) (state : option State.t) (conn : Z)
  (skiptls : bool) (proxyServer bwLimit : string) (pre post : list Event) (w : World) :
  Execute E target state conn skiptls proxyServer bwLimit (pre ++ EvDone :: post) w
  = Execute E target state conn skiptls proxyServer bwLimit (pre ++ [EvDone]) w
  /\ fst (Execute E target state conn skiptls proxyServer bwLimit (pre ++ EvDone :: post) w)
     <> Done Waiting.
Proof.
  unfold Execute. destruct (conn <? 0); [split; [reflexivity|discriminate]|].
  unfold mbind, M_bind, bind.
  destruct (match state with
            | Some st => resumedDownloader E st
            | None => NewHTTPDownloader E target conn skiptls proxyServer bwLimit
            end w) as [[d|e|c] w1].
  - apply coordinate_done.
  - split; [reflexivity|discriminate].
  - split; [reflexivity|discriminate].
Qed.

(** *** The events before the end of a run *)

Lemma takeMsg_Some (m : Msg) (l rest : list Msg) :
  takeMsg m l = Some rest -> m ∈ l /\ forall x, x ∈ rest -> x ∈ l.
Proof.
  revert rest. induction l as [|x l IH]; intros rest; cbn [takeMsg]; [discriminate|].
  destruct (decide (x = m)) as [->|Hne].
  - intros [= ->]. split; [left|]. intros y Hy. by right.
  - destruct (takeMsg m l) as [r|]; [|discriminate]. intros [= <-].
    destruct (IH r eq_refl) as [Hm Hr]. split; [by right|].
    intros y Hy. apply elem_of_cons in Hy as [->|Hy]; [left|right; by apply Hr].
Qed.

Lemma Do_Started (d : HTTPDownloader) (i : nat) (part : Part.t) :
  Do d !! i = Some (Started part) -> part ∈ parts d.
Proof.
  unfold Do. change (map ?f ?l) with (f <$> l). rewrite list_lookup_fmap.
  destruct (parts d !! i) as [p|] eqn:Hp; [|discriminate]. cbn [fmap option_fmap option_map].
  destruct (Part.RangeTo p <=? Part.RangeFrom p); [discriminate|]. intros [= <-].
  by eapply list_elem_of_lookup_2.
Qed.

Lemma Do_Reported (d : HTTPDownloader) (i : nat) (msgs : list Msg) :
  Do d !! i = Some (Reported msgs) -> exists p, msgs = handleCompletedPart d p.
Proof.
  unfold Do. change (map ?f ?l) with (f <$> l). rewrite list_lookup_fmap.
  destruct (parts d !! i) as [p|] eqn:Hp; [|discriminate]. cbn [fmap option_fmap option_map].
  destruct (Part.RangeTo p <=? Part.RangeFrom p); [|discriminate]. intros [= <-]. by exists p.
Qed.

Lemma Do_length (d : HTTPDownloader) : length (Do d) = length (parts d).
Proof. unfold Do. apply length_map. Qed.

(** What a worker leaves alone: the record of the coordinator, the
    requests sent before, and every file but its own. *)
Lemma downloadPart_frame (d : HTTPDownloader) (part : Part.t) (intr : Interrupt) (w : World) :
  acts (snd (downloadPart E d part intr w)) = acts w
  /\ (exists reqs, sent (snd (downloadPart E d part intr w)) = sent w ++ reqs)
  /\ forall q,
       resolve E (Part.Path part) <> Ok q ->
       disk (snd (downloadPart E d part intr w)) !! q = disk w !! q.
Proof.
  unfold downloadPart. destruct (buildRequestForPart E d part) as [req|e].
  2:{ split; [reflexivity|]. split; [|reflexivity]. exists []. by rewrite app_nil_r. }
  unfold mbind, M_bind, bind, client_Do, mret, M_ret, ret.
  destruct (match intr with BeforeResponse => Err ErrCanceled | _ => server E req end)
    as [r|e].
  - unfold os_update. cbn [disk acts].
    destruct (resolve E (Part.Path part)) as [q'|e'].
    2:{ split; [reflexivity|]. split; [|reflexivity]. by eexists. }
    destruct (FS.AppendFile q' _ (disk w)) as [fs|e'] eqn:Happ.
    2:{ split; [reflexivity|]. split; [|reflexivity]. by eexists. }
    cbn [snd acts disk sent withDisk]. split; [reflexivity|]. split; [by eexists|].
    intros q Hq. unfold FS.AppendFile in Happ.
    destruct (negb _); [discriminate|]. destruct (FS.isDirAt _ _); [discriminate|].
    destruct (disk w !! q') as [[old|]|]; injection Happ as <-;
      apply lookup_insert_ne; congruence.
  - destruct e, intr; (split; [reflexivity|]); (split; [by eexists|reflexivity]).
Qed.

(** The path a worker puts on the file channel is the path of its part. *)
Lemma downloadPart_file (d : HTTPDownloader) (part : Part.t) (intr : Interrupt) (w : World)
  (f : string) :
  ToFile f ∈ default [] (match fst (downloadPart E d part intr w) with
                         | Done msgs => Some msgs
                         | _ => None
                         end) ->
  f = Part.Path part.
Proof.
  unfold downloadPart. destruct (buildRequestForPart E d part) as [req|e].
  2:{ cbn. intros Hin. apply list_elem_of_singleton in Hin. discriminate. }
  unfold mbind, M_bind, bind, client_Do, mret, M_ret, ret.
  destruct (match intr with BeforeResponse => Err ErrCanceled | _ => server E req end)
    as [r|e].
  - unfold os_update. cbn [disk].
    destruct (resolve E (Part.Path part)) as [q'|e'].
    2:{ cbn. intros Hin. apply list_elem_of_singleton in Hin. discriminate. }
    destruct (FS.AppendFile q' _ (disk w)); cbn; intros Hin.
    + apply elem_of_cons in Hin as [Hin|Hin]; [discriminate|].
      apply list_elem_of_singleton in Hin. congruence.
    + apply list_elem_of_singleton in Hin. discriminate.
  - destruct e, intr; cbn; intros Hin; apply list_elem_of_singleton in Hin; discriminate.
Qed.

(** A part that is dealt with: it is a part of the downloader that was
    not dealt with before, and the paths under way afterwards were so
    before or come from its worker. *)
Lemma dealWith_flight (d : HTTPDownloader) (i : nat) (intr : Interrupt) (g g1 : Flight)
  (w w' : World) :
  dealWith E d i intr g w = (Done (Some g1), w') ->
  dealt g1 = i :: dealt g /\ (i ∉ dealt g) /\ (i < length (parts d))%nat
  /\ forall f, ToFile f ∈ inbox g1 ->
       (ToFile f ∈ inbox g)
       \/ exists part, Do d !! i = Some (Started part) /\ Part.Path part = f.
Proof.
  unfold dealWith. case_bool_decide as Hin; [discriminate|].
  apply not_elem_of_app in Hin as [Hin _].
  destruct (Do d !! i) as [[msgs|part]|] eqn:Hjob; [| |discriminate].
  - intros [= <- <-]. cbn [dealt inbox]. split; [reflexivity|]. split; [exact Hin|].
    split; [rewrite <- Do_length; by eapply lookup_lt_Some|].
    intros f Hf. apply elem_of_app in Hf as [Hf|Hf]; [by left|].
    destruct (Do_Reported _ _ _ Hjob) as [p ->]. apply list_elem_of_singleton in Hf.
    discriminate.
  - pose proof (downloadPart_file d part intr w) as Hfile.
    unfold mbind, M_bind, bind, mret, M_ret, ret.
    assert (Hgo : forall k (g2 : Flight),
               (let (o, w1) := downloadPart E d part intr w in
                match o with
                | Done msgs =>
                    (Done (Some {| inbox := inbox g ++ msgs; dealt := i :: dealt g;
                                   unfinished := unfinished g; interrupts := k |}), w1)
                | Panic e => (Panic e, w1)
                | Exit c => (Exit c, w1)
                end) = (Done (Some g2), w') ->
               dealt g2 = i :: dealt g /\ (i ∉ dealt g) /\ (i < length (parts d))%nat
               /\ forall f, ToFile f ∈ inbox g2 ->
                    (ToFile f ∈ inbox g)
                    \/ exists part0, Some (Started part) = Some (Started part0)
                                     /\ Part.Path part0 = f).
    { intros k g2. destruct (downloadPart E d part intr w) as [[msgs|e|c] w1];
        [|discriminate..].
      intros [= <- <-]. cbn [dealt inbox]. split; [reflexivity|]. split; [exact Hin|].
      split; [rewrite <- Do_length; by eapply lookup_lt_Some|].
      intros f Hf. apply elem_of_app in Hf as [Hf|Hf]; [by left|]. right.
      exists part. split; [reflexivity|]. symmetry. by apply Hfile. }
    destruct intr; [|destruct (0 <? interrupts g); [|discriminate]..]; intros H;
      exact (Hgo _ _ H).
Qed.

(** While nothing ends the loop, it goes on with what it has taken, in
    the world that the interrupts and the workers have left. Every path
    taken or still under way was under way at the start or comes from a
    worker that has run, and no part was dealt with twice. *)
(** A worker under way adds nothing to what the loop can take. *)
Lemma underWay_flight (d : HTTPDownloader) (i : nat) (upto : Interrupt) (g g1 : Flight)
  (w w' : World) :
  underWay E d i upto g w = (Done (Some g1), w') ->
  inbox g1 = inbox g /\ dealt g1 = dealt g.
Proof.
  unfold underWay. case_bool_decide as Hin; [discriminate|].
  destruct (Do d !! i) as [[msgs|part]|]; [discriminate| |discriminate].
  unfold bind, mret, M_ret, ret.
  destruct (downloadPart E d part upto w) as [[msgs|e|c] w1]; [|discriminate..].
  intros [= <- <-]. by split.
Qed.

Lemma fromWorker_later (d : HTTPDownloader) (ev : Event) (pre : list Event) (f : string) :
  fromWorker d pre f -> fromWorker d (ev :: pre) f.
Proof.
  intros (i & intr & part & Hi & Hp). exists i, intr, part. split; [by right|exact Hp].
Qed.

Lemma dealt_later (d : HTTPDownloader) (ev : Event) (pre : list Event) (l l' : list nat) :
  (forall i, i ∈ l' ->
     (i ∈ l) \/ (i < length (parts d))%nat /\ exists intr, In (EvPart i intr) pre) ->
  forall i, i ∈ l' ->
    (i ∈ l) \/ (i < length (parts d))%nat /\ exists intr, In (EvPart i intr) (ev :: pre).
Proof.
  intros H i Hi. destruct (H i Hi) as [?|[Hlt [intr Hin]]]; [by left|].
  right. split; [exact Hlt|]. exists intr. by right.
Qed.

Lemma coordinate_pre (target : string) (conn : Z) (d : HTTPDownloader)
  (pre rest : list Event) :
  forallb (fun ev => negb (ends ev)) pre = true ->
  forall l g w o w',
    coordinate E target conn d (pre ++ rest) l g w = (o, w') ->
    o = Done Blocked
    \/ exists g',
         coordinate E target conn d rest
           {| files := files l ++ delivered pre; seen := seen l ++ received pre;
              isInterrupted := isInterrupted l || signalled pre |} g'
           (passed E conn d pre w) = (o, w')
         /\ (forall f, (ToFile f ∈ inbox g') \/ In f (delivered pre) ->
               (ToFile f ∈ inbox g) \/ fromWorker d pre f)
         /\ (NoDup (dealt g) -> NoDup (dealt g'))
         /\ (forall i, i ∈ dealt g' ->
               (i ∈ dealt g)
               \/ (i < length (parts d))%nat /\ exists intr, In (EvPart i intr) pre).
Proof.
  induction pre as [|ev pre IH]; intros Hpre l g w o w'.
  - cbn [app delivered received signalled passed]. rewrite !app_nil_r, orb_false_r.
    intros H. right. exists g. split; [by destruct l|].
    split; [intros f [Hf|[]]; by left|]. split; [done|]. intros i Hi. by left.
  - cbn [forallb] in Hpre. apply andb_true_iff in Hpre as [Hev Hpre].
    cbn [app coordinate]. unfold mbind at 1, M_bind, bind.
    destruct ev as [|f|e|p| |i intr|i intr]; try discriminate; cbn [turn].
    + unfold bind, act, mret, M_ret, ret. intros H.
      destruct (IH Hpre _ _ _ _ _ H) as [->|(g' & Hg & Hf & Hnd & Hd)]; [by left|].
      right. exists g'.
      cbn [files seen isInterrupted delivered received signalled passed orb
           inbox dealt] in *.
      rewrite orb_true_r. split; [exact Hg|].
      split; [|split; [exact Hnd|by apply dealt_later]].
      intros f Hin. destruct (Hf f Hin) as [?|Hw]; [by left|].
      right. by apply fromWorker_later.
    + destruct (takeMsg (ToFile f) (inbox g)) as [box|] eqn:Htake; unfold mret, M_ret, ret.
      * destruct (takeMsg_Some _ _ _ Htake) as [Hm Hbox].
        intros H. destruct (IH Hpre _ _ _ _ _ H) as [->|(g' & Hg & Hf & Hnd & Hd)];
          [by left|].
        right. exists g'.
        cbn [files seen isInterrupted delivered received signalled passed inbox dealt] in *.
        rewrite <- app_assoc in Hg. split; [exact Hg|].
        split; [|split; [exact Hnd|by apply dealt_later]].
        intros f' Hin.
        assert (Hcases : f' = f \/ ((ToFile f' ∈ inbox g') \/ In f' (delivered pre))).
        { destruct Hin as [Hin|[<-|Hin]]; [right; by left|by left|right; by right]. }
        destruct Hcases as [->|Hin']; [by left|].
        destruct (Hf f' Hin') as [Hb|Hw]; [left; by apply Hbox|].
        right. by apply fromWorker_later.
      * intros [= <- <-]. by left.
    + destruct (takeMsg (ToState p) (inbox g)) as [box|] eqn:Htake; unfold mret, M_ret, ret.
      * destruct (takeMsg_Some _ _ _ Htake) as [Hm Hbox].
        intros H. destruct (IH Hpre _ _ _ _ _ H) as [->|(g' & Hg & Hf & Hnd & Hd)];
          [by left|].
        right. exists g'.
        cbn [files seen isInterrupted delivered received signalled passed inbox dealt] in *.
        rewrite <- app_assoc in Hg. split; [exact Hg|].
        split; [|split; [exact Hnd|by apply dealt_later]].
        intros f' Hin.
        destruct (Hf f' Hin) as [Hb|Hw]; [left; by apply Hbox|].
        right. by apply fromWorker_later.
      * intros [= <- <-]. by left.
    + unfold mbind, M_bind, bind.
      destruct (dealWith E d i intr g w) as [o1 w1] eqn:Hdeal.
      destruct (dealWith_spec E _ _ _ _ _ _ _ Hdeal) as (r & -> & Hnone & Hsome).
      destruct r as [g1|]; unfold mret, M_ret, ret.
      * destruct (dealWith_flight _ _ _ _ _ _ _ Hdeal) as (Hd1 & Hnew & Hlt & Hbox).
        intros H. destruct (IH Hpre _ _ _ _ _ H) as [->|(g' & Hg & Hf & Hnd & Hd)];
          [by left|].
        right. exists g'. cbn [delivered received signalled passed].
        rewrite (Hsome ltac:(discriminate)) in Hg. split.
        { destruct (Do d !! i) as [[msgs|part]|]; exact Hg. }
        split; [|split].
        -- intros f Hin.
           destruct (Hf f Hin) as [Hb|Hw].
           ++ destruct (Hbox f Hb) as [?|(part & Hjob & Hp)]; [by left|]. right.
              exists i, intr, part. split; [by left|by split].
           ++ right. by apply fromWorker_later.
        -- intros Hg0. apply Hnd. rewrite Hd1. by constructor.
        -- intros j Hj. destruct (Hd j Hj) as [Hj1|[Hjlt [intr' Hj']]].
           ++ rewrite Hd1 in Hj1. apply elem_of_cons in Hj1 as [->|Hj1]; [|by left].
              right. split; [exact Hlt|]. exists intr. by left.
           ++ right. split; [exact Hjlt|]. exists intr'. by right.
      * intros [= <- <-]. by left.
    + unfold mbind, M_bind, bind.
      destruct (underWay E d i intr g w) as [o1 w1] eqn:Hdeal.
      destruct (underWay_spec E _ _ _ _ _ _ _ Hdeal) as (r & -> & Hnone & Hsome).
      destruct r as [g1|]; unfold mret, M_ret, ret.
      * destruct (underWay_flight _ _ _ _ _ _ _ Hdeal) as [Hbox Hd1].
        intros H. destruct (IH Hpre _ _ _ _ _ H) as [->|(g' & Hg & Hf & Hnd & Hd)];
          [by left|].
        right. exists g'. cbn [delivered received signalled passed].
        rewrite (Hsome ltac:(discriminate)) in Hg. rewrite Hbox in Hf. rewrite Hd1 in Hnd, Hd.
        split.
        { destruct (Do d !! i) as [[msgs|part]|]; exact Hg. }
        split; [|split; [exact Hnd|by apply dealt_later]].
        intros f Hin. destruct (Hf f Hin) as [?|Hw]; [by left|].
        right. by apply fromWorker_later.
      * intros [= <- <-]. by left.
Qed.

(** What the events before the end leave alone. *)
Lemma passed_frame (conn : Z) (d : HTTPDownloader) (pre : list Event) :
  forall w,
    (exists n, acts (passed E conn d pre w) = acts w ++ replicate n (ActInterrupt conn))
    /\ (signalled pre = false -> acts (passed E conn d pre w) = acts w)
    /\ (exists reqs, sent (passed E conn d pre w) = sent w ++ reqs)
    /\ forall q, offParts E d q -> disk (passed E conn d pre w) !! q = disk w !! q.
Proof.
  assert (Hnil : forall w : World,
             (exists n, acts w = acts w ++ replicate n (ActInterrupt conn))
             /\ (exists reqs, sent w = sent w ++ reqs)).
  { intros w. split; [exists 0%nat|exists []]; by rewrite app_nil_r. }
  induction pre as [|ev pre IH]; intros w; cbn [passed signalled].
  - destruct (Hnil w) as [Ha Hs]. by repeat split.
  - destruct ev as [|f|e|p| |i intr|i intr]; try apply IH;
      try (destruct (Hnil w) as [Ha Hs]; by repeat split).
    + destruct (IH {| disk := disk w; sent := sent w; acts := acts w ++ [ActInterrupt conn] |})
        as ([n Ha] & _ & Hs & Hd).
      split; [|split; [discriminate|by split]].
      exists (S n). rewrite Ha. cbn [acts replicate]. by rewrite <- app_assoc.
    + destruct (Do d !! i) as [[msgs|part]|] eqn:Hjob; try apply IH.
      destruct (downloadPart_frame d part intr w) as (Ha1 & [reqs1 Hs1] & Hd1).
      destruct (IH (snd (downloadPart E d part intr w))) as ([n Ha] & Hq & [reqs Hs] & Hd).
      split; [exists n; by rewrite Ha, Ha1|].
      split; [intros Hsig; by rewrite (Hq Hsig)|].
      split; [exists (reqs1 ++ reqs); by rewrite Hs, Hs1, app_assoc|].
      intros q Hoff. rewrite (Hd q Hoff). apply Hd1. apply Hoff. by eapply Do_Started.
    + destruct (Do d !! i) as [[msgs|part]|] eqn:Hjob; try apply IH.
      destruct (downloadPart_frame d part intr w) as (Ha1 & [reqs1 Hs1] & Hd1).
      destruct (IH (snd (downloadPart E d part intr w))) as ([n Ha] & Hq & [reqs Hs] & Hd).
      split; [exists n; by rewrite Ha, Ha1|].
      split; [intros Hsig; by rewrite (Hq Hsig)|].
      split; [exists (reqs1 ++ reqs); by rewrite Hs, Hs1, app_assoc|].
      intros q Hoff. rewrite (Hd q Hoff). apply Hd1. apply Hoff. by eapply Do_Started.
Qed.

Lemma silent_built (target : string) (state : option State.t) (conn : Z) (skiptls : bool)
  (proxyServer bwLimit : string) (w w1 : World) (d : HTTPDownloader) :
  built E target state conn skiptls proxyServer bwLimit w = (Done d, w1) -> acts w1 = acts w.
Proof.
  intros Hb.
  destruct state; [eapply silent_resumedDownloader|eapply silent_NewHTTPDownloader]; exact Hb.
Qed.

(** X6. An error on the error channel makes [Execute] panic with that
    error, whatever was collected before. Nothing is joined, saved or
    removed: the coordinator has done nothing but pass on the signals it
    got. The workers that ran, to their end or as far as they got, have
    sent their requests and written to their part files; the disk is
    otherwise as the building of the downloader left it. *)
Theorem Execute_error (target : string) (state : option State.t) (conn : Z)
  (skiptls : bool) (proxyServer bwLimit : string) (e : error) (pre post : list Event)
  (w w1 w' : World) (d : HTTPDownloader) (o : outcome Run) :
  0 <= conn ->
  built E target state conn skiptls proxyServer bwLimit w = (Done d, w1) ->
  forallb (fun ev => negb (ends ev)) pre = true ->
  Execute E target state conn skiptls proxyServer bwLimit (pre ++ EvError e :: post) w
  = (o, w') ->
  o <> Done Blocked ->
  o = Panic e
  /\ w' = passed E conn d pre w1
  /\ (exists n, acts w' = acts w ++ replicate n (ActInterrupt conn))
  /\ (exists reqs, sent w' = sent w1 ++ reqs)
  /\ (forall q, offParts E d q -> disk w' !! q = disk w1 !! q).
Proof.
  intros Hconn Hb Hpre Hrun Hnb. unfold Execute in Hrun.
  destruct (conn <? 0) eqn:Hneg; [lia|].
  unfold mbind, M_bind, bind in Hrun. unfold built in Hb. rewrite Hb in Hrun.
  destruct (coordinate_pre target conn d pre _ Hpre _ _ _ _ _ Hrun)
    as [->|(g' & Hg & _)]; [done|].
  cbn [coordinate turn] in Hg. unfold mbind, M_bind, bind, panic, lift, mret, M_ret, ret in Hg.
  destruct (takeMsg (ToError e) (inbox g')); injection Hg as <- <-; [|done].
  destruct (passed_frame conn d pre w1) as ([n Ha] & _ & Hs & Hd).
  split; [reflexivity|]. split; [reflexivity|].
  split; [exists n; by rewrite Ha, (silent_built _ _ _ _ _ _ _ _ _ Hb)|]. by split.
Qed.

(** The parts dealt with when every one of them was, once. *)
Lemma dealt_all (n : nat) (l : list nat) :
  NoDup l -> (forall i, i ∈ l -> (i < n)%nat) -> length l = n ->
  forall i, (i < n)%nat -> i ∈ l.
Proof.
  intros Hnd Hlt Hlen i Hi.
  assert (Hsub : l ⊆+ seq 0 n).
  { apply NoDup_submseteq; [exact Hnd|]. intros x Hx. apply elem_of_seq.
    specialize (Hlt x Hx). lia. }
  apply submseteq_length_Permutation in Hsub; [|rewrite length_seq; lia].
  rewrite Hsub. apply elem_of_seq. lia.
Qed.

(** X7. A run without a signal ends by joining. When [doneChan] delivers,
    every part of the downloader was dealt with, and the paths taken from
    the file channel were sent by workers that ran, each the path of the
    part of its worker. The joiner is given these paths, in the order of
    their arrival, and the task name as its destination, on the disk as
    the workers left it. If the joiner fails, [Execute] panics with its
    error and the task folder is left in place; if it succeeds, the task
    folder is removed with all that is in it, and [Execute] returns. *)
Theorem Execute_joins (target dst : string) (state : option State.t) (conn : Z)
  (skiptls : bool) (proxyServer bwLimit : string) (pre post : list Event)
  (w w1 : World) (d : HTTPDownloader) :
  0 <= conn ->
  built E target state conn skiptls proxyServer bwLimit w = (Done d, w1) ->
  TaskFromURL E target = Done dst ->
  forallb (fun ev => negb (ends ev)) pre = true ->
  signalled pre = false ->
  let run :=
    Execute E target state conn skiptls proxyServer bwLimit (pre ++ EvDone :: post) w in
  let w2 := passed E conn d pre w1 in
  let joined := JoinFile E (delivered pre) dst (disk w2) in
  fst run <> Done Blocked ->
  (forall i, (i < length (parts d))%nat -> exists intr, In (EvPart i intr) pre)
  /\ (forall f, In f (delivered pre) -> fromWorker d pre f)
  /\ (forall e,
        fst joined = Some e ->
        run = (Panic e, {| disk := snd joined; sent := sent w2;
                           acts := acts w ++ [ActJoin (delivered pre) dst] |}))
  /\ (forall folder q,
        fst joined = None ->
        FolderOf E target = Done folder -> resolve E folder = Ok q ->
        run = (Done Returned,
               {| disk := FS.RemoveAll q (snd joined); sent := sent w2;
                  acts := acts w ++ [ActJoin (delivered pre) dst; ActRemoveAll folder] |})).
Proof.
  intros Hconn Hb HT Hpre Hsig run w2 joined Hnb.
  destruct run as [o w'] eqn:Hrun. subst run. cbn [fst] in Hnb. unfold Execute in Hrun.
  destruct (conn <? 0) eqn:Hneg; [lia|].
  unfold mbind, M_bind, bind in Hrun. unfold built in Hb. rewrite Hb in Hrun.
  destruct (coordinate_pre target conn d pre _ Hpre _ _ _ _ _ Hrun)
    as [->|(g' & Hg & Hf & Hnd & Hd)]; [done|].
  cbn [files seen isInterrupted inbox dealt orb app] in *. rewrite Hsig in Hg.
  cbn [coordinate turn] in Hg.
  destruct (length (dealt g') =? length (parts d))%nat eqn:Hall.
  2:{ unfold mbind, M_bind, bind, mret, M_ret, ret in Hg. injection Hg as <- <-. done. }
  apply Nat.eqb_eq in Hall.
  assert (Hacts : acts w2 = acts w).
  { subst w2. destruct (passed_frame conn d pre w1) as (_ & Hq & _).
    rewrite (Hq Hsig). by eapply silent_built. }
  split; [|split].
  - intros i Hi.
    assert (Hin : i ∈ dealt g').
    { apply (dealt_all (length (parts d))); [apply Hnd; constructor| |exact Hall|exact Hi].
      intros j Hj. destruct (Hd j Hj) as [Hj0|[Hlt _]]; [by apply elem_of_nil in Hj0|done]. }
    destruct (Hd i Hin) as [Hi0|[_ Hex]]; [by apply elem_of_nil in Hi0|exact Hex].
  - intros f Hin. destruct (Hf f (or_intror Hin)) as [H0|H1]; [by apply elem_of_nil in H0|done].
  - revert Hg. unfold onDone. cbn [isInterrupted files].
    unfold mbind, M_bind, bind, act, lift, getDisk, putDisk, panic, mret, M_ret, ret, withDisk.
    rewrite HT. cbn [disk sent acts]. fold w2. fold joined. rewrite Hacts.
    destruct joined as [[e|] fs']; cbn [fst snd]; intros Hg; split.
    + intros e' [= <-]. by rewrite <- Hg.
    + intros folder q [=].
    + intros e' [=].
    + intros folder q _ HF Hq. rewrite HF in Hg. cbn [disk sent acts] in Hg.
      rewrite Hq in Hg. rewrite <- app_assoc in Hg. by rewrite <- Hg.
Qed.

End CoordinatorBehaviour.

Lemma Execute_error_witness :
  let E := Scenario.env DownloadScenario.failing in
  let run :=
    Execute E DownloadScenario.target None 2 false EmptyString EmptyString
      DownloadScenario.broken Scenario.world0 in
  fst run = Panic ErrTransport
  /\ (exists n, acts (snd run) = acts Scenario.world0 ++ replicate n (ActInterrupt 2))
  /\ disk (snd run) !! "/home/u/.hget/file/file.part000000" = Some (FS.File "01")
  /\ disk (snd run) !! "/home/u/.hget/file/file.part000001" = None
  /\ length (sent (snd run)) = 3%nat.
Proof.
  intros E run.
  pose (b := built E DownloadScenario.target None 2 false EmptyString EmptyString
               Scenario.world0).
  pose (d := match fst b with Done d => d | _ => InterruptScenario.downloader end).
  destruct (Execute_error E DownloadScenario.target None 2 false EmptyString EmptyString
              ErrTransport
              [EvCopy 0 (DuringCopy 2); EvPart 1 NoInterrupt]
              [EvDone] Scenario.world0 (snd b) (snd run) d (fst run))
    as (Ho & _ & Ha & _).
  - lia.
  - vm_compute. reflexivity.
  - reflexivity.
  - apply surjective_pairing.
  - vm_compute. discriminate.
  - split; [exact Ho|]. split; [exact Ha|]. vm_compute. by repeat split.
Defined.

Lemma Execute_joins_witness :
  let run :=
    Execute DownloadScenario.E DownloadScenario.target None 2 false EmptyString EmptyString
      DownloadScenario.complete Scenario.world0 in
  fst run = Done Returned
  /\ disk (snd run) !! "/work/file" = Some (FS.File "0123456789")
  /\ disk (snd run) !! "/home/u/.hget/file" = None
  /\ disk (snd run) !! "/home/u/.hget/file/file.part000000" = None
  /\ acts (snd run)
     = [ActJoin [Part.Path DownloadScenario.part0; Part.Path DownloadScenario.part1] "file";
        ActRemoveAll "/home/u/.hget/file"].
Proof.
  intros run.
  pose (b := built DownloadScenario.E DownloadScenario.target None 2 false EmptyString
               EmptyString Scenario.world0).
  pose (d := match fst b with Done d => d | _ => InterruptScenario.downloader end).
  destruct (Execute_joins DownloadScenario.E DownloadScenario.target "file" None 2 false
              EmptyString EmptyString
              [EvPart 1 NoInterrupt; EvPart 0 NoInterrupt;
               EvState DownloadScenario.part1; EvState DownloadScenario.part0;
               EvFile (Part.Path DownloadScenario.part0);
               EvFile (Part.Path DownloadScenario.part1)]
              [] Scenario.world0 (snd b) d)
    as (_ & _ & _ & Hok).
  - lia.
  - vm_compute. reflexivity.
  - vm_compute. reflexivity.
  - reflexivity.
  - reflexivity.
  - vm_compute. discriminate.
  - split.
    + exact (f_equal fst (Hok "/home/u/.hget/file" "/home/u/.hget/file"
                            ltac:(vm_compute; reflexivity) ltac:(vm_compute; reflexivity)
                            ltac:(vm_compute; reflexivity))).
    + vm_compute. by repeat split.
Defined.

(** *** The task folder and a fresh download *)

Section FolderBehaviour.
Context (E : Env).
Import Strings Filepath.

Lemma FolderOf_Done_all (urlStr folder : string) :
  FolderOf E urlStr = Done folder ->
  exists h u t rel,
    user_HomeDir E = Some h /\ url_Parse E urlStr = Some u
    /\ Contains (Url.Path u) ".." = false
    /\ TaskFromURL E urlStr = Done t
    /\ Abs (os_Getwd E) (JoinPath [h; dataFolder E; t]) = Some folder
    /\ Rel (JoinPath [h; dataFolder E]) folder = Some rel.
Proof.
  unfold FolderOf, mbind, outcome_bind, obind.
  destruct (user_HomeDir E) as [h|]; [|discriminate]. cbn [fatal].
  destruct (url_Parse E urlStr) as [u|] eqn:Hu; [|discriminate]. cbn [fatal].
  destruct (Contains (Url.Path u) "..") eqn:Hc; [discriminate|].
  destruct (TaskFromURL E urlStr) as [t| |]; [|discriminate..].
  destruct (Abs (os_Getwd E) (JoinPath [h; dataFolder E; t])) as [q|] eqn:Hq; cbn [fatal];
    [|discriminate].
  destruct (Rel (JoinPath [h; dataFolder E]) q) as [rel|] eqn:Hrel; cbn [fatal];
    [|discriminate].
  destruct (Contains rel ".."); [discriminate|].
  intros [= <-]. by exists h, u, t, rel.
Qed.

Lemma Rel_rooted (base targ rel : string) :
  Rel base targ = Some rel ->
  HasPrefix (Clean targ) "/" = true ->
  Clean targ = Clean base \/ HasPrefix (Clean base) "/" = true.
Proof.
  unfold Rel. destruct (String.eqb_spec (Clean targ) (Clean base)) as [Heq|_]; [by left|].
  intros H Hr. right. rewrite Hr in H.
  destruct (String.eqb_spec (Clean base) ".") as [Hd|_].
  - discriminate.
  - destruct (HasPrefix (Clean base) "/"); [reflexivity|discriminate].
Qed.

Lemma Abs_rooted (wd : option string) (p q : string) :
  (forall d, wd = Some d -> IsAbs d = true) ->
  Abs wd p = Some q -> HasPrefix q "/" = true /\ Clean q = q.
Proof.
  intros Hwd. unfold Abs, IsAbs. destruct (HasPrefix p "/") eqn:Hp.
  - intros [= <-]. by rewrite Clean_rooted, Clean_idem.
  - destruct wd as [d|]; [|discriminate]. intros H.
    assert (q = JoinPath [d; p]) as -> by (cbn [mbind option_bind] in H; congruence).
    specialize (Hwd d eq_refl). unfold IsAbs in Hwd.
    assert (Hd : d <> ""%string) by (intros ->; discriminate).
    rewrite (JoinPath_pair d p Hd), Clean_rooted, Clean_idem, (HasPrefix_append d _ Hd).
    auto.
Qed.

Lemma TaskFromURL_element (urlStr t : string) (u : Url.t) :
  url_Parse E urlStr = Some u ->
  Contains (Url.Path u) ".." = false ->
  TaskFromURL E urlStr = Done t ->
  hasSlash t = false /\ dotdot t = false /\ t <> ""%string.
Proof.
  intros Hu Hp. unfold TaskFromURL, mbind, outcome_bind, obind. rewrite Hu. cbn [fatal].
  intros [= <-]. split; [apply Base_trimmed_no_slash|]. split; [|apply Base_nonempty].
  rewrite Contains_dotdot in Hp. apply Base_dotdot.
  destruct (TrimRight_prefix (Clean (Url.Path u)) "/\") as [r Hr].
  apply (dotdot_app_l _ r). rewrite <- Hr. by apply Clean_dotdot.
Qed.

(** X8. What [FolderOf] returns is the data folder joined with the task
    name, and the task name is one path element: the folder is a direct
    child of the data folder, named after the task, or, for the task name
    [.], the data folder itself. The working directory is an absolute
    path, as [os.Getwd] returns it. *)
Theorem FolderOf_child (urlStr folder : string) :
  (forall d, os_Getwd E = Some d -> IsAbs d = true) ->
  FolderOf E urlStr = Done folder ->
  exists home name,
    user_HomeDir E = Some home
    /\ TaskFromURL E urlStr = Done name
    /\ Contains name "/" = false /\ Contains name ".." = false
    /\ IsAbs folder = true
    /\ folder = JoinPath [JoinPath [home; dataFolder E]; name]
    /\ (name = "."%string -> folder = JoinPath [home; dataFolder E])
    /\ (name <> "."%string ->
          FS.parent folder = JoinPath [home; dataFolder E] /\ Base folder = name).
Proof.
  intros Hwd HF.
  destruct (FolderOf_Done_all _ _ HF) as (h & u & t & rel & Hh & Hu & Hp & Ht & Habs & Hrel).
  destruct (TaskFromURL_element _ _ _ Hu Hp Ht) as (Hs & Hd & Hne).
  destruct (Abs_rooted _ _ _ Hwd Habs) as [Hroot Hclean].
  exists h, t. split; [exact Hh|]. split; [exact Ht|].
  split; [by rewrite Contains_slash|]. split; [by rewrite Contains_dotdot|].
  split; [exact Hroot|].
  pose proof (Rel_rooted _ _ _ Hrel) as HR. rewrite Hclean in HR. specialize (HR Hroot).
  destruct (String.eqb_spec (JoinPath [h; dataFolder E]) "") as [He|Hsafe].
  { exfalso. rewrite He in HR. destruct HR as [HR|HR]; [|discriminate].
    rewrite HR in Hroot. discriminate. }
  destruct (JoinPath_snoc [h; dataFolder E] t Hsafe) as (X & HX & HJ & HJt).
  cbn [app] in HJt.
  assert (HXr : HasPrefix X "/" = true).
  { rewrite HJ, Clean_idem in HR. destruct HR as [HR|HR].
    - rewrite <- (Clean_rooted X), <- HR. exact Hroot.
    - by rewrite <- (Clean_rooted X). }
  assert (Hfolder : folder = Clean (X +:+ String "/" t)).
  { rewrite HJt in Habs. unfold Abs, IsAbs in Habs.
    rewrite Clean_rooted, (HasPrefix_append X _ HX), HXr, Clean_idem in Habs. congruence. }
  assert (Hjoin : folder = JoinPath [JoinPath [h; dataFolder E]; t]).
  { rewrite (JoinPath_pair _ t Hsafe), HJ, (Clean_join_l X t HX). exact Hfolder. }
  split; [exact Hjoin|]. split.
  - intros ->. rewrite Hfolder, HJ. by apply Clean_dot.
  - intros Hdot.
    assert (Hn : normal t).
    { split; [exact Hne|]. split; [exact Hdot|]. split; [|by apply hasSlash_split].
      intros ->. discriminate. }
    destruct (Clean_child X t HX HXr Hn) as (_ & Hpar & Hbase).
    rewrite Hfolder, HJ. auto.
Qed.

(** X9. A URL whose path has two dots in a row gets nowhere: [FolderOf]
    panics with the traversal error, [Save] and [partCalculate] panic
    with it and leave the world as it was, and so does the branch of
    [main] for a fresh download, before anything is sent or removed. *)
Theorem traversal_refused (urlStr home : string) (u : Url.t) :
  user_HomeDir E = Some home ->
  url_Parse E urlStr = Some u ->
  Contains (Url.Path u) ".." = true ->
  FolderOf E urlStr = Panic ErrTraversal
  /\ (forall s w, State.URL s = urlStr -> Save E s w = (Panic ErrTraversal, w))
  /\ (forall par len w, 0 < par -> partCalculate E par len urlStr w = (Panic ErrTraversal, w))
  /\ (forall conn skiptls proxyServer bwLimit events w,
        mainDownload E urlStr conn skiptls proxyServer bwLimit events w
        = (Panic ErrTraversal, w)).
Proof.
  intros Hh Hu Hp.
  pose proof (FolderOf_rejects_dotdot E _ _ _ Hh Hu Hp) as HF.
  split; [exact HF|]. split; [|split].
  - intros s w <-. by apply (Save_rejects_dotdot E s home u).
  - intros par len w Hpar. by apply (partCalculate_rejects_dotdot E par len urlStr home u).
  - intros conn skiptls proxyServer bwLimit events w.
    unfold mainDownload, mbind, M_bind, bind, lift. by rewrite HF.
Qed.

Lemma RemoveAll_lookup (q k : string) (fs : FS.t) :
  FS.RemoveAll q fs !! k = if FS.under q k then None else fs !! k.
Proof.
  unfold FS.RemoveAll. destruct (FS.under q k) eqn:Hu.
  - apply map_lookup_filter_None. right. intros x _. simpl. rewrite Hu. simpl. tauto.
  - destruct (fs !! k) as [x|] eqn:Hk.
    + apply map_lookup_filter_Some. split; [exact Hk|]. simpl. rewrite Hu. exact I.
    + apply map_lookup_filter_None. by left.
Qed.

(** X10. A fresh download of a URL starts from nothing. When something is
    at the task folder of the URL, the branch of [main] for a URL on
    the command line removes it with all that is below it, the manifest
    and the part files of an interrupted download included, before
    [Execute] runs; everything else on the disk is kept. When nothing
    is there, [Execute] runs in the world as it is. *)
Theorem mainDownload_clears (downloadURL folder q : string) (conn : Z) (skiptls : bool)
  (proxyServer bwLimit : string) (events : list Event) (w : World) :
  FolderOf E downloadURL = Done folder ->
  resolve E folder = Ok q ->
  match os_Stat E folder (disk w) with
  | Ok _ =>
      mainDownload E downloadURL conn skiptls proxyServer bwLimit events w
      = Execute E downloadURL None conn skiptls proxyServer bwLimit events
          (withDisk (FS.RemoveAll q (disk w)) w)
      /\ (forall k, FS.under q k = true -> FS.RemoveAll q (disk w) !! k = None)
      /\ (forall k, FS.under q k = false -> FS.RemoveAll q (disk w) !! k = disk w !! k)
  | Err _ =>
      mainDownload E downloadURL conn skiptls proxyServer bwLimit events w
      = Execute E downloadURL None conn skiptls proxyServer bwLimit events w
  end.
Proof.
  intros HF Hq. unfold mainDownload, ExistDir, mbind, M_bind, bind, lift, getDisk, ret.
  rewrite HF. cbn [disk].
  destruct (os_Stat E folder (disk w)) as [sz|e].
  - rewrite ?HF, Hq. unfold putDisk. split; [reflexivity|].
    split; intros k Hk; by rewrite RemoveAll_lookup, Hk.
  - reflexivity.
Qed.

(** X11. For a URL whose path is empty or a lone slash the task name is
    [.] and the task folder is the data folder itself. A fresh download
    of such a URL therefore removes the data folder with the saved tasks
    of every other URL (and so does the end of the download, where
    [Execute] removes the task folder). *)
Theorem mainDownload_data_root (downloadURL folder home : string) (u : Url.t) (conn : Z)
  (skiptls : bool) (proxyServer bwLimit : string) (events : list Event) (w : World) (sz : Z) :
  (forall d, os_Getwd E = Some d -> IsAbs d = true) ->
  user_HomeDir E = Some home ->
  url_Parse E downloadURL = Some u ->
  Url.Path u = ""%string \/ Url.Path u = "/"%string ->
  FolderOf E downloadURL = Done folder ->
  os_Stat E folder (disk w) = Ok sz ->
  TaskFromURL E downloadURL = Done "."%string
  /\ folder = JoinPath [home; dataFolder E]
  /\ mainDownload E downloadURL conn skiptls proxyServer bwLimit events w
     = Execute E downloadURL None conn skiptls proxyServer bwLimit events
         (withDisk (FS.RemoveAll folder (disk w)) w)
  /\ forall k, FS.under folder k = true -> FS.RemoveAll folder (disk w) !! k = None.
Proof.
  intros Hwd Hh Hu Hpath HF Hstat.
  assert (HT : TaskFromURL E downloadURL = Done "."%string).
  { unfold TaskFromURL, mbind, outcome_bind, obind. rewrite Hu. cbn [fatal].
    destruct Hpath as [-> | ->]; reflexivity. }
  destruct (FolderOf_child _ _ Hwd HF)
    as (h & name & Hh' & HT' & _ & _ & Habs & _ & Hdot & _).
  assert (h = home) as -> by congruence. assert (name = "."%string) as -> by congruence.
  specialize (Hdot eq_refl).
  assert (Hq : resolve E folder = Ok folder).
  { unfold resolve, Abs. rewrite Habs.
    destruct (FolderOf_Done_all _ _ HF) as (h2 & u2 & t2 & rel & _ & _ & _ & _ & Hab & _).
    destruct (Abs_rooted _ _ _ Hwd Hab) as [_ ->]. reflexivity. }
  pose proof (mainDownload_clears downloadURL folder folder conn skiptls proxyServer bwLimit
                events w HF Hq) as Hm.
  rewrite Hstat in Hm. destruct Hm as (Hrun & Hgone & _).
  auto.
Qed.

End FolderBehaviour.

Lemma FolderOf_child_witness :
  exists home name,
    user_HomeDir ClearScenario.E = Some home
    /\ TaskFromURL ClearScenario.E "http://example.com/dir/a?x=1" = Done name
    /\ Filepath.Base "/home/u/.hget/a" = name.
Proof.
  destruct (FolderOf_child ClearScenario.E "http://example.com/dir/a?x=1" "/home/u/.hget/a")
    as (home & name & Hh & HT & _ & _ & _ & _ & _ & Hc).
  - intros d [= <-]. reflexivity.
  - vm_compute. reflexivity.
  - exists home, name. split; [exact Hh|]. split; [exact HT|].
    apply Hc. intros ->. vm_compute in HT. discriminate.
Defined.

Lemma traversal_refused_witness :
  FolderOf ClearScenario.E "http://foo.bar/../../../foobar" = Panic ErrTraversal.
Proof.
  apply (traversal_refused ClearScenario.E "http://foo.bar/../../../foobar" "/home/u"
           {| Url.Scheme := "http"; Url.Host := "foo.bar"; Url.Path := "/../../../foobar" |});
    vm_compute; reflexivity.
Defined.

Lemma mainDownload_clears_witness :
  FS.RemoveAll "/home/u/.hget/a" ClearScenario.disk1 !! "/home/u/.hget/a/state.json" = None
  /\ FS.RemoveAll "/home/u/.hget/a" ClearScenario.disk1 !! "/home/u/.hget/b/state.json"
     = Some (FS.File "{}").
Proof.
  pose proof (mainDownload_clears ClearScenario.E "http://example.com/dir/a?x=1"
                "/home/u/.hget/a" "/home/u/.hget/a" 4 false EmptyString EmptyString []
                ClearScenario.world ltac:(vm_compute; reflexivity)
                ltac:(vm_compute; reflexivity)) as H.
  change (os_Stat ClearScenario.E "/home/u/.hget/a" (disk ClearScenario.world))
    with (@Ok Z (dirSize ClearScenario.E)) in H.
  destruct H as (_ & Hgone & Hkept). split.
  - apply Hgone. vm_compute. reflexivity.
  - rewrite Hkept by (vm_compute; reflexivity). vm_compute. reflexivity.
Defined.

Lemma mainDownload_data_root_witness :
  FS.RemoveAll "/home/u/.hget" ClearScenario.disk1 !! "/home/u/.hget/b/state.json" = None.
Proof.
  destruct (mainDownload_data_root ClearScenario.E "http://example.com/" "/home/u/.hget"
              "/home/u"
              {| Url.Scheme := "http"; Url.Host := "example.com"; Url.Path := "/" |}
              4 false EmptyString EmptyString [] ClearScenario.world 4096)
    as (_ & _ & _ & Hgone).
  - intros d [= <-]. reflexivity.
  - reflexivity.
  - vm_compute. reflexivity.
  - right. reflexivity.
  - vm_compute. reflexivity.
  - vm_compute. reflexivity.
  - apply Hgone. vm_compute. reflexivity.
Defined.

(** *** The data folder on disk *)

Section DiskBehaviour.
Context (E : Env).
Import Strings Filepath.

(** X12. When [MkdirIfNotExist] returns without an error, [ExistDir] of the
    folder is true; nothing was sent; every file and directory that was
    on the disk is still there, unchanged; and whatever is new is a
    directory. *)
Theorem MkdirIfNotExist_keeps (folder : string) (w w' : World) :
  MkdirIfNotExist E folder w = (Done None, w') ->
  ExistDir E folder w' = (Done true, w')
  /\ sent w' = sent w /\ acts w' = acts w
  /\ (forall k n, disk w !! k = Some n -> disk w' !! k = Some n)
  /\ (forall k n, disk w' !! k = Some n -> disk w !! k = Some n \/ n = FS.Dir).
Proof.
  intros H. split.
  { pose proof (MkdirIfNotExist_again E _ _ _ H) as Hagain.
    unfold MkdirIfNotExist, ExistDir, mbind, M_bind, bind, getDisk, ret in *.
    destruct (os_Stat E folder (disk w')) as [sz|e] eqn:Hs; [reflexivity|].
    exfalso. unfold os_MkdirAll in Hagain.
    destruct (FS.MkdirAll (os_Getwd E) folder (disk w')) as [fs|e''] eqn:Hmk; [|discriminate].
    assert (fs = disk w') as ->.
    { injection Hagain as Hw. apply (f_equal disk) in Hw. exact Hw. }
    destruct (MkdirAll_Stat E _ _ _ Hmk) as [sz Hsz]. congruence. }
  unfold MkdirIfNotExist, mbind, M_bind, bind, getDisk, ret in H.
  destruct (os_Stat E folder (disk w)) as [sz|e].
  - injection H as <-. auto.
  - unfold os_MkdirAll in H.
    destruct (FS.MkdirAll (os_Getwd E) folder (disk w)) as [fs|e'] eqn:Hmk; [|discriminate].
    injection H as <-. cbn [sent acts disk withDisk].
    split; [reflexivity|]. split; [reflexivity|].
    unfold FS.MkdirAll in Hmk. destruct (String.eqb folder ""); [discriminate|].
    destruct (HasPrefix folder "/"); [exact (mkdirs_keeps _ _ _ _ Hmk)|].
    destruct (os_Getwd E); [exact (mkdirs_keeps _ _ _ _ Hmk)|discriminate].
Qed.

(** X13. A manifest that cannot be used stops a resumed run before it has
    begun. When the manifest file of the task cannot be read, [Read]
    returns the error of [os.ReadFile]; when the file does not decode,
    [Read] returns the error of the decoder. In both cases [Resume]
    returns no state and that error, and the branch of [main] for
    [-resume] panics with it: nothing is sent and the disk is left as it
    was. *)
Theorem Read_unusable (task home name q : string) (e : error) (w : World) :
  user_HomeDir E = Some home ->
  TaskFromURL E task = Done name ->
  resolve E (JoinPath [home; dataFolder E; name; stateFileName]) = Ok q ->
  (FS.ReadFile q (disk w) = Err e
   \/ exists bytes s, FS.ReadFile q (disk w) = Ok bytes /\ Json.Unmarshal bytes = (s, Some e)) ->
  (exists st, Read E task w = (Done (st, Some e), w))
  /\ Resume E task w = (Done (None, Some e), w)
  /\ forall conn skiptls proxyServer bwLimit events,
       mainResume E task conn skiptls proxyServer bwLimit events w = (Panic e, w).
Proof.
  intros Hh HT Hq Hread.
  assert (HR : exists st, Read E task w = (Done (st, Some e), w)).
  { unfold Read, mbind, M_bind, bind, lift, getDisk. rewrite Hh. cbn [fatal]. rewrite HT, Hq.
    destruct Hread as [->|(bytes & s & -> & ->)]; eauto. }
  destruct HR as [st HR]. split; [eauto|].
  assert (HRes : Resume E task w = (Done (None, Some e), w)).
  { unfold Resume, mbind, M_bind, bind. rewrite HR. reflexivity. }
  split; [exact HRes|]. intros conn skiptls proxyServer bwLimit events.
  unfold mainResume, mbind, M_bind, bind. rewrite HRes. reflexivity.
Qed.

(** The name of a node that lies at the path of a name in a directory. *)
Lemma Base_child (q name : string) :
  name <> ""%string -> Contains name "/" = false -> Base (FS.child q name) = name.
Proof.
  intros Hne Hs. rewrite Contains_slash in Hs. unfold FS.child.
  destruct (String.eqb q "/").
  - by apply (Base_last "").
  - by apply (Base_last q).
Qed.

Lemma ReadDir_entries (q : string) (fs : FS.t) (es : list (string * bool)) :
  FS.ReadDir q fs = Ok es ->
  forall name b,
    (name, b) ∈ es
    <-> exists n,
          fs !! FS.child q name = Some n /\ name <> ""%string /\ Contains name "/" = false
          /\ b = match n with FS.Dir => true | FS.File _ => false end.
Proof.
  unfold FS.ReadDir. destruct (FS.isDirAt fs q).
  2:{ destruct (fs !! q) as [[?|]|]; discriminate. }
  intros [= <-] name b. rewrite merge_sort_Permutation. unfold FS.entries.
  rewrite list_elem_of_omap. split.
  - intros ([k n] & Hin & Hentry). apply elem_of_map_to_list in Hin.
    unfold FS.entryOf in Hentry. cbn [fst snd] in Hentry.
    destruct (Contains (Base k) "/") eqn:Hs; [discriminate|].
    destruct (String.eqb_spec k (FS.child q (Base k))) as [Hk|]; [|discriminate].
    injection Hentry as <- <-. exists n. rewrite <- Hk.
    split; [exact Hin|]. split; [apply Base_nonempty|]. by split.
  - intros (n & Hk & Hne & Hs & ->). exists (FS.child q name, n). split.
    + by apply elem_of_map_to_list.
    + unfold FS.entryOf. cbn [fst snd].
      rewrite (Base_child q name Hne Hs), Hs, String.eqb_refl. reflexivity.
Qed.

(** The names of the entries of a directory are all different. *)
Lemma entries_NoDup (q : string) (fs : FS.t) : NoDup (FS.entries q fs).*1.
Proof.
  apply (NoDup_fmap_1 (FS.child q)).
  eapply sublist_NoDup; [apply (NoDup_fst_map_to_list fs)|].
  unfold FS.entries. induction (map_to_list fs) as [|[k n] l IH]; [constructor|].
  cbn [omap list_omap fmap list_fmap fst]. unfold FS.entryOf at 1. cbn [fst snd].
  destruct (Contains (Base k) "/"); cbn [negb andb]; [by constructor|].
  destruct (String.eqb_spec k (FS.child q (Base k))) as [Hk|].
  - cbn [fmap list_fmap fst]. rewrite <- Hk. by constructor.
  - by constructor.
Qed.

(** What [TaskPrint] keeps of the entries: the names of the directories,
    in the order of the entries. *)
Lemma folders_sublist (es : list (string * bool)) :
  sublist (map fst (List.filter snd es)) es.*1.
Proof.
  induction es as [|[name b] es IH]; [constructor|].
  cbn [List.filter snd]. destruct b; cbn [map fmap list_fmap fst]; by constructor.
Qed.

Lemma sublist_StronglySorted {A} (R : relation A) (l k : list A) :
  sublist l k -> StronglySorted R k -> StronglySorted R l.
Proof.
  induction 1 as [|x l k Hs IH|x l k Hs IH]; intros Hk; [constructor|..];
    apply StronglySorted_inv in Hk as [Hk Hx].
  - constructor; [by apply IH|]. eapply Forall_forall. intros y Hy.
    rewrite Forall_forall in Hx. apply Hx. by eapply elem_of_sublist.
  - by apply IH.
Qed.

(** X14. [TaskPrint] prints the names of the directories that lie
    directly in the data folder and nothing else: a name is printed when
    it is a name (not empty, no separator in it) and what lies at its
    path in the data folder is a directory; a file in the data folder is
    not listed. Each directory has one line, and the lines come in the
    order of the names, byte by byte. It changes nothing. When the data
    folder is not there (or is not a directory) it returns the error of
    [os.ReadDir] and prints no list. *)
Theorem TaskPrint_lists (home q : string) (w : World) :
  user_HomeDir E = Some home ->
  resolve E (JoinPath [home; dataFolder E]) = Ok q ->
  (FS.isDirAt (disk w) q = true ->
     exists folders,
       TaskPrint E w = (Done (Some (Join folders newline), None), w)
       /\ StronglySorted String.le folders
       /\ NoDup folders
       /\ forall name,
            name ∈ folders
            <-> name <> ""%string /\ Contains name "/" = false
                /\ disk w !! FS.child q name = Some FS.Dir)
  /\ (FS.isDirAt (disk w) q = false ->
        exists e, TaskPrint E w = (Done (None, Some e), w)).
Proof.
  intros Hh Hq.
  unfold TaskPrint, mbind, M_bind, bind, lift, getDisk. rewrite Hh. cbn [fatal]. rewrite Hq.
  split; intros Hdir.
  - destruct (FS.ReadDir q (disk w)) as [es|e] eqn:Hes.
    2:{ unfold FS.ReadDir in Hes. rewrite Hdir in Hes. discriminate. }
    eexists. split; [reflexivity|].
    assert (Hsorted : es = merge_sort FS.byName (FS.entries q (disk w))).
    { unfold FS.ReadDir in Hes. rewrite Hdir in Hes. congruence. }
    split; [|split].
    + eapply sublist_StronglySorted; [apply folders_sublist|].
      apply (StronglySorted_fmap fst FS.byName); [by intros x y|].
      rewrite Hsorted. apply StronglySorted_merge_sort; apply _.
    + eapply sublist_NoDup; [|apply folders_sublist].
      rewrite Hsorted, merge_sort_Permutation. apply entries_NoDup.
    + intros name.
      pose proof (ReadDir_entries _ _ _ Hes name true) as Hent.
      rewrite list_elem_of_In, in_map_iff. split.
      * intros ([n b] & <- & Hin). apply filter_In in Hin as [Hin Hb].
        cbn [snd] in Hb. subst b. rewrite <- list_elem_of_In in Hin.
        apply Hent in Hin as (nd & Hk & Hne & Hs & Hd).
        destruct nd; [discriminate|]. auto.
      * intros (Hne & Hs & Hk). exists (name, true). split; [reflexivity|].
        apply filter_In. split; [|reflexivity]. rewrite <- list_elem_of_In.
        apply Hent. by exists FS.Dir.
  - unfold FS.ReadDir. rewrite Hdir. destruct (disk w !! q) as [[?|]|]; eauto.
Qed.

End DiskBehaviour.

Lemma MkdirIfNotExist_keeps_witness :
  exists w',
    MkdirIfNotExist ClearScenario.E "/home/u/.hget/new" ClearScenario.world = (Done None, w')
    /\ ExistDir ClearScenario.E "/home/u/.hget/new" w' = (Done true, w').
Proof.
  eexists. split; [vm_compute; reflexivity|].
  apply (MkdirIfNotExist_keeps ClearScenario.E "/home/u/.hget/new" ClearScenario.world).
  vm_compute. reflexivity.
Defined.

Lemma Read_unusable_witness :
  Resume ClearScenario.E "nonexistent-task" ClearScenario.world
  = (Done (None, Some (ErrNotExist "/home/u/.hget/nonexistent-task/state.json")),
     ClearScenario.world).
Proof.
  apply (Read_unusable ClearScenario.E "nonexistent-task" "/home/u" "nonexistent-task"
           "/home/u/.hget/nonexistent-task/state.json").
  - reflexivity.
  - vm_compute. reflexivity.
  - vm_compute. reflexivity.
  - left. vm_compute. reflexivity.
Defined.

Lemma TaskPrint_lists_witness :
  TaskPrint ClearScenario.E ClearScenario.world
  = (Done (Some ("a" +:+ newline +:+ "b"), None), ClearScenario.world)
  /\ exists folders,
       TaskPrint ClearScenario.E ClearScenario.world
       = (Done (Some (Strings.Join folders newline), None), ClearScenario.world)
       /\ StronglySorted String.le folders /\ NoDup folders
       /\ "a"%string ∈ folders /\ "b"%string ∈ folders.
Proof.
  split; [vm_compute; reflexivity|].
  destruct (TaskPrint_lists ClearScenario.E "/home/u" "/home/u/.hget" ClearScenario.world)
    as [Hok _].
  - reflexivity.
  - vm_compute. reflexivity.
  - destruct (Hok ltac:(vm_compute; reflexivity)) as (folders & Hrun & Hs & Hnd & Hin).
    exists folders. split; [exact Hrun|]. split; [exact Hs|]. split; [exact Hnd|].
    split; apply Hin; (split; [discriminate|]); split; vm_compute; reflexivity.
Defined.

(** *** The part files of a plan *)

Section OrderFacts.
Import Strings Strconv.

Lemma compare_prefix (P x y : string) :
  String.compare (P +:+ x) (P +:+ y) = String.compare x y.
Proof.
  induction P as [|c P IH]; [reflexivity|].
  rewrite !append_cons. cbn [String.compare].
  unfold Ascii.compare. by rewrite N.compare_refl.
Qed.

Lemma isDigit_val (c : ascii) : isDigit c = true -> 0 <= digitVal c <= 9.
Proof.
  unfold isDigit, digitVal. intros H. apply andb_true_iff in H as [H1 H2].
  apply N.leb_le in H1, H2. lia.
Qed.

Lemma parseDigits_acc (s : string) :
  allDigits s = true ->
  exists v,
    0 <= v < 10 ^ Z.of_nat (String.length s)
    /\ forall acc, parseDigits s acc = Some (acc * 10 ^ Z.of_nat (String.length s) + v).
Proof.
  induction s as [|c s IH]; intros H.
  - exists 0. split; [simpl; lia|]. intros acc. simpl. f_equal. lia.
  - cbn [allDigits] in H. apply andb_true_iff in H as [Hc Hs].
    destruct (IH Hs) as (v & Hv & Hacc). pose proof (isDigit_val c Hc) as Hd.
    exists (digitVal c * 10 ^ Z.of_nat (String.length s) + v).
    cbn [String.length]. rewrite Nat2Z.inj_succ, Z.pow_succ_r by lia. split; [nia|].
    intros acc. cbn [parseDigits]. rewrite Hc, Hacc. f_equal. lia.
Qed.

(** Runs of digits of the same length are ordered as the numbers they
    stand for. *)
Lemma compare_digits (s : string) :
  forall t vs vt,
    allDigits s = true -> allDigits t = true -> String.length s = String.length t ->
    parseDigits s 0 = Some vs -> parseDigits t 0 = Some vt -> vs < vt ->
    String.compare s t = Lt.
Proof.
  induction s as [|c s IH]; intros t vs vt Hs Ht Hlen Hvs Hvt Hlt.
  - destruct t; [|discriminate]. simpl in Hvs, Hvt.
    injection Hvs as <-. injection Hvt as <-. lia.
  - destruct t as [|d t]; [discriminate|]. cbn [String.length] in Hlen.
    cbn [allDigits] in Hs, Ht.
    apply andb_true_iff in Hs as [Hc Hs]. apply andb_true_iff in Ht as [Hd Ht].
    destruct (parseDigits_acc s Hs) as (v1 & Hv1 & H1).
    destruct (parseDigits_acc t Ht) as (v2 & Hv2 & H2).
    cbn [parseDigits] in Hvs, Hvt. rewrite Hc, H1 in Hvs. rewrite Hd, H2 in Hvt.
    assert (Hn : String.length s = String.length t) by lia.
    rewrite Hn in Hvs, Hv1.
    injection Hvs as <-. injection Hvt as <-.
    pose proof (isDigit_val c Hc). pose proof (isDigit_val d Hd).
    cbn [String.compare]. unfold Ascii.compare.
    destruct (N.compare_spec (N_of_ascii c) (N_of_ascii d)) as [Heq|Hcd|Hcd].
    + apply (IH t v1 v2 Hs Ht Hn); [rewrite H1; f_equal; lia|rewrite H2; f_equal; lia|].
      unfold digitVal in Hlt. rewrite Heq in Hlt. lia.
    + reflexivity.
    + exfalso. unfold digitVal in *. nia.
Qed.

Lemma allDigits_zeros (k : nat) (s : string) :
  allDigits s = true -> allDigits (zeros k +:+ s) = true.
Proof. intros Hs. induction k as [|k IH]; [exact Hs|exact IH]. Qed.

Lemma parseDigits_zeros (k : nat) (s : string) :
  parseDigits (zeros k +:+ s) 0 = parseDigits s 0.
Proof. induction k as [|k IH]; [reflexivity|exact IH]. Qed.

Lemma length_zeros (k : nat) : String.length (zeros k) = k.
Proof. induction k as [|k IH]; [reflexivity|]. simpl. by rewrite IH. Qed.

Lemma FormatIntPad_digits (w : nat) (j : Z) :
  0 <= j ->
  FormatIntPad w j = zeros (w - String.length (digits j)) +:+ digits j
  /\ allDigits (FormatIntPad w j) = true
  /\ parseDigits (FormatIntPad w j) 0 = Some j.
Proof.
  intros Hj. unfold FormatIntPad, FormatInt. destruct (Z.ltb_spec j 0); [lia|].
  split; [reflexivity|]. split.
  - apply allDigits_zeros, allDigits_digits. lia.
  - rewrite parseDigits_zeros. by apply parseDigits_digits.
Qed.

(** A number below a million is written with six digits at most. *)
Lemma length_digits (j : Z) : 0 <= j < 1000000 -> (String.length (digits j) <= 6)%nat.
Proof.
  intros Hj. destruct (Z.eq_dec j 0) as [->|Hne]; [simpl; lia|].
  destruct (digits_leading j ltac:(lia)) as (c & t & Hd & Hc & Hc0).
  pose proof (parseDigits_digits j ltac:(lia)) as Hp.
  pose proof (allDigits_digits j ltac:(lia)) as Ha.
  rewrite Hd in Hp, Ha |- *. cbn [allDigits] in Ha. apply andb_true_iff in Ha as [_ Ht].
  destruct (parseDigits_acc t Ht) as (v & Hv & Hacc).
  cbn [parseDigits] in Hp. rewrite Hc, Hacc in Hp. injection Hp as Hp.
  assert (1 <= digitVal c).
  { pose proof (isDigit_val c Hc). destruct (Z.eq_dec (digitVal c) 0) as [H0|]; [|lia].
    exfalso. apply Hc0. unfold digitVal in H0.
    rewrite <- (ascii_N_embedding c). replace (N_of_ascii c) with 48%N by lia. reflexivity. }
  cbn [String.length].
  destruct (le_lt_dec (String.length t) 5) as [|Hbig]; [lia|]. exfalso.
  assert (10 ^ 6 <= 10 ^ Z.of_nat (String.length t)) by (apply Z.pow_le_mono_r; lia).
  change (10 ^ 6) with 1000000 in *. nia.
Qed.

Lemma length_pad (j : Z) : 0 <= j < 1000000 -> String.length (FormatIntPad 6 j) = 6%nat.
Proof.
  intros Hj. destruct (FormatIntPad_digits 6 j ltac:(lia)) as (-> & _ & _).
  rewrite length_append, length_zeros. pose proof (length_digits j Hj). lia.
Qed.

(** Up to a million, the padded indices are ordered as the indices. *)
Lemma compare_pad (i j : Z) :
  0 <= i < j -> j < 1000000 ->
  String.compare (FormatIntPad 6 i) (FormatIntPad 6 j) = Lt.
Proof.
  intros Hi Hj.
  destruct (FormatIntPad_digits 6 i ltac:(lia)) as (_ & Hai & Hpi).
  destruct (FormatIntPad_digits 6 j ltac:(lia)) as (_ & Haj & Hpj).
  apply (compare_digits _ _ i j Hai Haj); [|exact Hpi|exact Hpj|lia].
  rewrite !length_pad by lia. reflexivity.
Qed.

Lemma FormatIntPad_inj (i j : Z) :
  0 <= i -> 0 <= j -> FormatIntPad 6 i = FormatIntPad 6 j -> i = j.
Proof.
  intros Hi Hj Heq.
  destruct (FormatIntPad_digits 6 i Hi) as (_ & _ & Hpi).
  destruct (FormatIntPad_digits 6 j Hj) as (_ & _ & Hpj).
  rewrite Heq in Hpi. congruence.
Qed.

Lemma hasSlash_digits (s : string) : allDigits s = true -> hasSlash s = false.
Proof.
  induction s as [|c s IH]; [reflexivity|].
  cbn [allDigits hasSlash]. intros H. apply andb_true_iff in H as [Hc Hs].
  by rewrite (isDigit_not_slash _ Hc), (IH Hs).
Qed.

Lemma append_inj_l (P x y : string) : P +:+ x = P +:+ y -> x = y.
Proof.
  induction P as [|c P IH]; [auto|]. rewrite !append_cons. intros [= H]. auto.
Qed.

(** The name of a part file is one path element. *)
Lemma partName_normal (file : string) (j : Z) :
  hasSlash file = false -> 0 <= j -> normal (partName file j).
Proof.
  intros Hf Hj. destruct (FormatIntPad_digits 6 j Hj) as (_ & Ha & _).
  assert (Hlen : (5 <= String.length (partName file j))%nat).
  { unfold partName. rewrite !length_append. simpl. lia. }
  split; [intros He; rewrite He in Hlen; simpl in Hlen; lia|].
  split; [intros He; rewrite He in Hlen; simpl in Hlen; lia|].
  split; [intros He; rewrite He in Hlen; simpl in Hlen; lia|].
  apply hasSlash_split. unfold partName. rewrite !hasSlash_app, Hf, (hasSlash_digits _ Ha).
  reflexivity.
Qed.

End OrderFacts.

Section PlanPaths.
Context (E : Env).
Import Strings Filepath.

(** X15. The part files of a plan. Each part of the plan has a file of its
    own, which lies directly in the task folder: no two parts share a
    path. And with a million parts at most, the paths come in the order
    of the indices when they are compared as strings, byte by byte,
    which is what the six digits of the file name are there for. *)
Theorem partCalculate_paths (par len : Z) (target folder : string) (w w1 : World) :
  (forall d, os_Getwd E = Some d -> IsAbs d = true) ->
  1 <= par <= Int64.max_int -> 0 <= len <= Int64.max_int ->
  FolderOf E target = Done folder ->
  MkdirIfNotExist E folder w = (Done None, w1) ->
  exists parts,
    partCalculate E par len target w = (Done parts, w1)
    /\ NoDup (map Part.Path parts)
    /\ (forall p, In p parts -> FS.parent (Part.Path p) = folder)
    /\ (par <= 1000000 ->
        forall (i j : nat) p q,
          (i < j)%nat -> parts !! i = Some p -> parts !! j = Some q ->
          String.ltb (Part.Path p) (Part.Path q) = true).
Proof.
  intros Hwd Hpar Hlen HF HM.
  destruct (partCalculate_spec E par len target folder w w1 Hpar Hlen HF HM)
    as (file & HT & Hcalc).
  eexists. split; [exact Hcalc|].
  destruct (FolderOf_Done_all E _ _ HF) as (h & u & t & rel & _ & Hu & Hp & HT' & Habs & _).
  assert (t = file) as -> by congruence.
  destruct (TaskFromURL_element E _ _ _ Hu Hp HT) as (Hs & _ & _).
  destruct (Abs_rooted _ _ _ Hwd Habs) as [Hroot Hclean].
  assert (Hne : folder <> ""%string) by (intros ->; discriminate).
  destruct (Clean_children folder Hne Hroot) as (A & HA).
  assert (Hpath : forall j, 0 <= j ->
            Part.Path (plannedPart par len target folder file j)
            = A +:+ String "/" (partName file j)
            /\ FS.parent (Part.Path (plannedPart par len target folder file j)) = folder).
  { intros j Hj. cbn [plannedPart Part.Path]. fold (partName file j).
    pose proof (partName_normal file j Hs Hj) as Hn.
    rewrite (JoinPath_pair folder _ Hne). split; [by apply HA|].
    destruct (Clean_child folder _ Hne Hroot Hn) as (_ & Hpar' & _).
    by rewrite Hpar', Hclean. }
  assert (Hlk : forall (i : nat) p,
            (plannedPart par len target folder file <$> seqZ 0 par) !! i = Some p ->
            p = plannedPart par len target folder file (Z.of_nat i) /\ Z.of_nat i < par).
  { intros i p Hi. rewrite list_lookup_fmap in Hi.
    destruct (seqZ 0 par !! i) as [z|] eqn:Hz; [|discriminate].
    apply lookup_seqZ in Hz as [-> Hlt]. injection Hi as <-. split; [f_equal; lia|lia]. }
  split; [|split].
  - apply (proj2 (NoDup_alt _)). intros i j x Hi Hj.
    change (map Part.Path) with (fmap (M:=list) Part.Path) in Hi, Hj.
    rewrite list_lookup_fmap in Hi, Hj.
    destruct ((plannedPart par len target folder file <$> seqZ 0 par) !! i) as [p|] eqn:Hpi;
      [|discriminate].
    destruct ((plannedPart par len target folder file <$> seqZ 0 par) !! j) as [q|] eqn:Hqj;
      [|discriminate].
    destruct (Hlk _ _ Hpi) as [-> _]. destruct (Hlk _ _ Hqj) as [-> _].
    destruct (Hpath (Z.of_nat i) ltac:(lia)) as [Hpi' _].
    destruct (Hpath (Z.of_nat j) ltac:(lia)) as [Hpj' _].
    assert (Heq : Part.Path (plannedPart par len target folder file (Z.of_nat i))
                  = Part.Path (plannedPart par len target folder file (Z.of_nat j)))
      by (cbn [fmap option_fmap option_map] in Hi, Hj; congruence).
    clear Hi. rename Heq into Hi. rewrite Hpi', Hpj' in Hi.
    apply append_inj_l in Hi. injection Hi as Hi. unfold partName in Hi.
    apply append_inj_l in Hi. apply (append_inj_l ".part") in Hi.
    apply FormatIntPad_inj in Hi; lia.
  - intros p Hin. apply list_elem_of_In, list_elem_of_lookup in Hin as [i Hi].
    destruct (Hlk _ _ Hi) as [-> _]. apply Hpath. lia.
  - intros Hmax i j p q Hij Hi Hj.
    destruct (Hlk _ _ Hi) as [-> Hi']. destruct (Hlk _ _ Hj) as [-> Hj'].
    destruct (Hpath (Z.of_nat i) ltac:(lia)) as [-> _].
    destruct (Hpath (Z.of_nat j) ltac:(lia)) as [-> _].
    unfold String.ltb. rewrite compare_prefix. cbn [String.compare].
    unfold Ascii.compare at 1. rewrite N.compare_refl.
    unfold partName. rewrite compare_prefix, (compare_prefix ".part").
    rewrite compare_pad by lia. reflexivity.
Qed.

End PlanPaths.

Lemma partCalculate_paths_witness :
  exists parts,
    partCalculate PlanScenario.E 3 10 PlanScenario.target Scenario.world0
    = (Done parts, PlanScenario.world1)
    /\ NoDup (map Part.Path parts).
Proof.
  destruct (partCalculate_paths PlanScenario.E 3 10 PlanScenario.target "/home/u/.hget/data"
              Scenario.world0 PlanScenario.world1)
    as (parts & Hcalc & Hnd & _).
  - intros d [= <-]. reflexivity.
  - vm_compute. split; discriminate.
  - vm_compute. split; discriminate.
  - vm_compute. reflexivity.
  - vm_compute. reflexivity.
  - exists parts. split; [exact Hcalc|exact Hnd].
Defined.

(** *** Saving and resuming in place *)

Section SaveFacts.
Context (E : Env).
Import Strings Filepath.














End SaveFacts.

Section SaveBehaviour.
Context (E : Env).
Import Strings Filepath.




End SaveBehaviour.




(** *** Building a downloader *)

Section BuildFacts.
Context (E : Env).













End BuildFacts.

Section BuildBehaviour.
Context (E : Env).


End BuildBehaviour.

